(** * Appointment scheduler: entity, validator, repository and controller

    A shallow embedding of [models/appointment.py], [models/repository.py]
    and [controllers/appointment_controller.py].

    Conventions of the embedding
    - A Python [str] is a [string]; every [ascii] stands for one character.
    - [datetime.date], [datetime.time] and [datetime.datetime] are records of
      naturals ([N]); the ranges the Python constructors enforce are the
      predicates [wf_date], [wf_time] and [wf_datetime].  All values are
      naive (no tzinfo), as everywhere in the program.
    - The JSON file is a list of dictionaries with string keys and string
      values ([gmap string string]); [json.dump]/[json.load] are the identity
      on such data.
    - [datetime.now()] and [uuid.uuid4()] are read from two streams indexed
      by the number of calls made so far; the counters live in the [world]
      next to the file. *)

From Stdlib Require Import NArith ZArith Lia Ascii String List Sorted.
From stdpp Require Import gmap strings list fin_maps.

Local Open Scope string_scope.
Local Open Scope list_scope.
Local Open Scope N_scope.

(** ** Characters and strings *)

Module Str.

(** [bool(s)] for a string. *)
Definition truthy (s : string) : bool :=
  match s with EmptyString => false | String _ _ => true end.

(** [str.isspace] on one character (the code points below 256). *)
Definition is_whitespace (c : ascii) : bool :=
  let n := N_of_ascii c in
  ((9 <=? n) && (n <=? 13)) || ((28 <=? n) && (n <=? 32))
  || (n =? 133) || (n =? 160).

Fixpoint lstrip (s : string) : string :=
  match s with
  | EmptyString => EmptyString
  | String c r => if is_whitespace c then lstrip r else s
  end.

(** [rstrip] drops the trailing run of whitespace. *)
Fixpoint rstrip (s : string) : string :=
  match s with
  | EmptyString => EmptyString
  | String c r =>
      match rstrip r with
      | EmptyString => if is_whitespace c then EmptyString else String c EmptyString
      | r' => String c r'
      end
  end.

(** [s.strip()] *)
Definition strip (s : string) : string := rstrip (lstrip s).

(** [c in s] for a one-character needle. *)
Fixpoint contains (c : ascii) (s : string) : bool :=
  match s with
  | EmptyString => false
  | String x r => if Ascii.eqb x c then true else contains c r
  end.

(** [s.split(c)[-1]]: what follows the last occurrence of [c]
    (all of [s] when [c] does not occur). *)
Fixpoint after_last (c : ascii) (s : string) : string :=
  match s with
  | EmptyString => EmptyString
  | String x r =>
      if contains c r then after_last c r
      else if Ascii.eqb x c then r else s
  end.

(** Every character of [s] is whitespace. *)
Fixpoint all_whitespace (s : string) : bool :=
  match s with
  | EmptyString => true
  | String c r => is_whitespace c && all_whitespace r
  end.

(** [s[:n]] *)
Fixpoint take (n : nat) (s : string) : string :=
  match n, s with
  | S n', String c r => String c (take n' r)
  | _, _ => EmptyString
  end.

(** [str.upper] on one character: the letters a-z. *)
Definition upper_char (c : ascii) : ascii :=
  let n := N_of_ascii c in
  if (97 <=? n) && (n <=? 122) then ascii_of_N (n - 32) else c.

Fixpoint upper (s : string) : string :=
  match s with
  | EmptyString => EmptyString
  | String c r => String (upper_char c) (upper r)
  end.

End Str.

(** ** Decimal fields of fixed width *)

Module Digits.

Definition digit_char (d : N) : ascii := ascii_of_N (48 + d).

(** ["%0wd" % n], most significant digit first (exact for [n < 10^w]). *)
Fixpoint zfill (w : nat) (n : N) : string :=
  match w with
  | O => EmptyString
  | S w' => String (digit_char ((n / 10 ^ N.of_nat w') mod 10)) (zfill w' n)
  end.

Definition digit_val (c : ascii) : option N :=
  let n := N_of_ascii c in
  if (48 <=? n) && (n <=? 57) then Some (n - 48) else None.

(** Reads exactly [w] decimal digits in front of [s]. *)
Fixpoint parse_digits (w : nat) (acc : N) (s : string) : option (N * string) :=
  match w with
  | O => Some (acc, s)
  | S w' =>
      match s with
      | EmptyString => None
      | String c r =>
          match digit_val c with
          | Some d => parse_digits w' (acc * 10 + d) r
          | None => None
          end
      end
  end.

End Digits.

(** ** Calendar dates, times of day and timestamps *)

Record date_t := mkDate { year : N; month : N; day : N }.
Record time_t := mkTime { hour : N; minute : N; second : N; microsecond : N }.
Record datetime_t := mkDatetime { dt_date : date_t; dt_time : time_t }.

Global Instance date_eq_dec : EqDecision date_t.
Proof. solve_decision. Defined.
Global Instance time_eq_dec : EqDecision time_t.
Proof. solve_decision. Defined.
Global Instance datetime_eq_dec : EqDecision datetime_t.
Proof. solve_decision. Defined.

Module Cal.

Definition is_leap (y : N) : bool :=
  (y mod 4 =? 0) && (negb (y mod 100 =? 0) || (y mod 400 =? 0)).

Definition days_in_month (y m : N) : N :=
  if m =? 2 then (if is_leap y then 29 else 28)
  else if (m =? 4) || (m =? 6) || (m =? 9) || (m =? 11) then 30
  else 31.

Definition days_before_year (y : N) : N :=
  let p := y - 1 in p * 365 + p / 4 - p / 100 + p / 400.

Fixpoint days_before_month_aux (y : N) (k : nat) : N :=
  match k with
  | O => 0
  | S k' => days_before_month_aux y k' + days_in_month y (N.of_nat k)
  end.

(** Days of year [y] that precede the first day of month [m]. *)
Definition days_before_month (y m : N) : N :=
  days_before_month_aux y (N.to_nat (m - 1)).

(** [date.toordinal()] *)
Definition toordinal (d : date_t) : N :=
  days_before_year (year d) + days_before_month (year d) (month d) + day d.

Definition wf_date (d : date_t) : Prop :=
  1 <= year d <= 9999 /\ 1 <= month d <= 12
  /\ 1 <= day d <= days_in_month (year d) (month d).

Definition wf_time (t : time_t) : Prop :=
  hour t < 24 /\ minute t < 60 /\ second t < 60 /\ microsecond t < 1000000.

Definition wf_datetime (x : datetime_t) : Prop :=
  wf_date (dt_date x) /\ wf_time (dt_time x).

Definition date_okb (d : date_t) : bool :=
  (1 <=? year d) && (year d <=? 9999) && (1 <=? month d) && (month d <=? 12)
  && (1 <=? day d) && (day d <=? days_in_month (year d) (month d)).

Definition time_okb (t : time_t) : bool :=
  (hour t <? 24) && (minute t <? 60) && (second t <? 60)
  && (microsecond t <? 1000000).

(** Comparison of tuples, field after field. *)
Definition lex (c1 c2 : comparison) : comparison :=
  match c1 with Eq => c2 | _ => c1 end.

Definition date_compare (a b : date_t) : comparison :=
  lex (year a ?= year b) (lex (month a ?= month b) (day a ?= day b)).

Definition time_compare (a b : time_t) : comparison :=
  lex (hour a ?= hour b)
    (lex (minute a ?= minute b)
       (lex (second a ?= second b) (microsecond a ?= microsecond b))).

Definition datetime_compare (a b : datetime_t) : comparison :=
  lex (date_compare (dt_date a) (dt_date b))
      (time_compare (dt_time a) (dt_time b)).

Definition is_lt (c : comparison) : bool :=
  match c with Lt => true | _ => false end.
Definition is_le (c : comparison) : bool :=
  match c with Gt => false | _ => true end.

(** [a < b] and [a <= b] on [time] and on [datetime]. *)
Definition time_ltb (a b : time_t) : bool := is_lt (time_compare a b).
Definition time_leb (a b : time_t) : bool := is_le (time_compare a b).
Definition datetime_ltb (a b : datetime_t) : bool := is_lt (datetime_compare a b).
Definition datetime_leb (a b : datetime_t) : bool := is_le (datetime_compare a b).

(** Microseconds since midnight. *)
Definition time_us (t : time_t) : N :=
  ((hour t * 60 + minute t) * 60 + second t) * 1000000 + microsecond t.

(** [datetime.combine(d, t)] *)
Definition combine (d : date_t) (t : time_t) : datetime_t := mkDatetime d t.

(** [(a - b)] as a [timedelta], counted in microseconds.  The program only
    compares [total_seconds()] of it with [15 * 60]; that quotient by
    [10^6] is below 900 exactly when the count is below [900 * 10^6]. *)
Definition sub_us (a b : datetime_t) : Z :=
  (Z.of_N (toordinal (dt_date a)) - Z.of_N (toordinal (dt_date b)))
    * 86400000000
  + (Z.of_N (time_us (dt_time a)) - Z.of_N (time_us (dt_time b))).

End Cal.

(** ** ISO 8601 text of dates and times *)

Module Iso.
Import Digits Cal.

(** [date.isoformat()]: YYYY-MM-DD *)
Definition date_isoformat (d : date_t) : string :=
  zfill 4 (year d) +:+ "-" +:+ zfill 2 (month d) +:+ "-" +:+ zfill 2 (day d).

(** [t.strftime("%H:%M")] *)
Definition strftime_HM (t : time_t) : string :=
  zfill 2 (hour t) +:+ ":" +:+ zfill 2 (minute t).

(** [time.isoformat()]: HH:MM:SS, with .ffffff when the microsecond is
    not zero. *)
Definition time_isoformat (t : time_t) : string :=
  zfill 2 (hour t) +:+ ":" +:+ zfill 2 (minute t) +:+ ":" +:+ zfill 2 (second t)
  +:+ (if microsecond t =? 0 then "" else "." +:+ zfill 6 (microsecond t)).

(** [datetime.isoformat()] *)
Definition datetime_isoformat (x : datetime_t) : string :=
  date_isoformat (dt_date x) +:+ "T" +:+ time_isoformat (dt_time x).

Definition expect (c : ascii) (s : string) : option string :=
  match s with
  | String x r => if Ascii.eqb x c then Some r else None
  | EmptyString => None
  end.

(** The date in front of [s], with what follows it. *)
Definition parse_date (s : string) : option (date_t * string) :=
  '(y, s) ← parse_digits 4 0 s;
  s ← expect "-" s;
  '(m, s) ← parse_digits 2 0 s;
  s ← expect "-" s;
  '(d, s) ← parse_digits 2 0 s;
  let r := mkDate y m d in
  if date_okb r then Some (r, s) else None.

(** The fraction of a second: three or six digits. *)
Definition parse_fraction (s : string) : option N :=
  match parse_digits 6 0 s with
  | Some (us, EmptyString) => Some us
  | _ =>
      match parse_digits 3 0 s with
      | Some (ms, EmptyString) => Some (ms * 1000)
      | _ => None
      end
  end.

(** HH[:MM[:SS[.fff[fff]]]] up to the end of the string. *)
Definition parse_time (s : string) : option time_t :=
  '(h, s) ← parse_digits 2 0 s;
  r ← match s with
      | EmptyString => Some (mkTime h 0 0 0)
      | _ =>
          s ← expect ":" s;
          '(m, s) ← parse_digits 2 0 s;
          match s with
          | EmptyString => Some (mkTime h m 0 0)
          | _ =>
              s ← expect ":" s;
              '(sec, s) ← parse_digits 2 0 s;
              match s with
              | EmptyString => Some (mkTime h m sec 0)
              | _ =>
                  s ← expect "." s;
                  us ← parse_fraction s;
                  Some (mkTime h m sec us)
              end
          end
      end;
  if time_okb r then Some r else None.

(** [date.fromisoformat], [time.fromisoformat], [datetime.fromisoformat]
    on the texts the [isoformat] methods and [strftime("%H:%M")] produce;
    [None] is a [ValueError]. *)
Definition date_fromisoformat (s : string) : option date_t :=
  match parse_date s with
  | Some (d, EmptyString) => Some d
  | _ => None
  end.

Definition time_fromisoformat (s : string) : option time_t := parse_time s.

Definition datetime_fromisoformat (s : string) : option datetime_t :=
  '(d, s) ← parse_date s;
  match s with
  | EmptyString => Some (mkDatetime d (mkTime 0 0 0 0))
  | String _ r => t ← parse_time r; Some (mkDatetime d t)
  end.

End Iso.

(** What is left of a time of day once it went through ["%H:%M"]. *)
Definition whole_minute (t : time_t) : time_t := mkTime (hour t) (minute t) 0 0.

(** ** The appointment entity ([models/appointment.py]) *)

Module AppointmentStatus.
Definition SCHEDULED : string := "Scheduled".
Definition COMPLETED : string := "Completed".
Definition CANCELLED : string := "Cancelled".
Definition NO_SHOW : string := "No Show".
Definition ALL : list string := [SCHEDULED; COMPLETED; CANCELLED; NO_SHOW].
End AppointmentStatus.

Record Appointment := mkAppointment {
  id : string;
  title : string;
  client_name : string;
  client_email : string;
  client_phone : string;
  date : date_t;
  start_time : time_t;
  end_time : time_t;
  status : string;
  notes : string;
  created_at : datetime_t;
  updated_at : datetime_t
}.

Global Instance Appointment_eq_dec : EqDecision Appointment.
Proof. solve_decision. Defined.

Definition start_datetime (self : Appointment) : datetime_t :=
  Cal.combine (date self) (start_time self).

Definition end_datetime (self : Appointment) : datetime_t :=
  Cal.combine (date self) (end_time self).

(** A stored record: one JSON object whose values are all strings. *)
Abbreviation dict := (gmap string string).

Definition to_dict (self : Appointment) : dict :=
  list_to_map
    [ ("id", id self);
      ("title", title self);
      ("client_name", client_name self);
      ("client_email", client_email self);
      ("client_phone", client_phone self);
      ("date", Iso.date_isoformat (date self));
      ("start_time", Iso.strftime_HM (start_time self));
      ("end_time", Iso.strftime_HM (end_time self));
      ("status", status self);
      ("notes", notes self);
      ("created_at", Iso.datetime_isoformat (created_at self));
      ("updated_at", Iso.datetime_isoformat (updated_at self)) ].

(** [l.append(x)] *)
Definition push {A} (l : list A) (x : A) : list A := l ++ [x].

(** ** The validator *)

Module AppointmentValidator.
Import Cal.

Definition validate (title client_name client_email client_phone : string)
    (appt_date : date_t) (start_time end_time : time_t) (status : string)
    : list string :=
  let errors : list string := [] in
  let errors :=
    if negb (Str.truthy (Str.strip title))
    then push errors ("Title is required.") else errors in
  let errors :=
    if negb (Str.truthy (Str.strip client_name))
    then push errors ("Client name is required.") else errors in
  let errors :=
    if negb (Str.truthy (Str.strip client_email))
    then push errors ("Client email is required.")
    else if negb (Str.contains "@" client_email)
            || negb (Str.contains "." (Str.after_last "@" client_email))
    then push errors ("Please enter a valid email address.") else errors in
  let errors :=
    if negb (Str.truthy (Str.strip client_phone))
    then push errors ("Client phone is required.") else errors in
  let errors :=
    if negb (bool_decide (status ∈ AppointmentStatus.ALL))
    then push errors ("Invalid status: " +:+ status) else errors in
  let start_dt := combine appt_date start_time in
  let end_dt := combine appt_date end_time in
  let errors :=
    if datetime_leb end_dt start_dt
    then push errors ("End time must be after start time.") else errors in
  let errors :=
    if (sub_us end_dt start_dt <? 15 * 60 * 1000000)%Z
    then push errors ("Appointment must be at least 15 minutes long.")
    else errors in
  errors.

End AppointmentValidator.

(** ** The world: the JSON file, the clock and the source of identifiers *)

Inductive exn :=
| KeyError (key : string)
| ValueError (text : string).

Inductive outcome (A : Type) :=
| Ok (a : A)
| Raise (e : exn).
Arguments Ok {A} a.
Arguments Raise {A} e.

Record world := mkWorld {
  file : list dict;   (* content of data/appointments.json *)
  ticks : nat;        (* calls of datetime.now() so far *)
  draws : nat         (* calls of uuid.uuid4() so far *)
}.

(** A computation that may read and write the world and may raise. *)
Definition M (A : Type) : Type := world -> outcome A * world.

Definition ret {A} (a : A) : M A := fun w => (Ok a, w).

Definition bind {A B} (m : M A) (k : A -> M B) : M B :=
  fun w =>
    match m w with
    | (Ok a, w') => k a w'
    | (Raise e, w') => (Raise e, w')
    end.

Definition raise {A} (e : exn) : M A := fun w => (Raise e, w).

Declare Scope prog_scope.
Delimit Scope prog_scope with prog.
Notation "x <~ m ; k" := (bind m (fun x => k))
  (at level 20, m at level 100, k at level 200, only parsing) : prog_scope.

(** [d[key]] *)
Definition getitem (d : dict) (key : string) : M string :=
  match d !! key with
  | Some v => ret v
  | None => raise (KeyError key)
  end.

(** Lifts a parser: [None] is the [ValueError] of [fromisoformat]. *)
Definition parsed {A} (p : string -> option A) (s : string) : M A :=
  match p s with
  | Some v => ret v
  | None => raise (ValueError s)
  end.

(** [AppointmentRepository._read] and [_write] *)
Definition _read : M (list dict) := fun w => (Ok (file w), w).

Definition _write (records : list dict) : M unit :=
  fun w => (Ok tt, mkWorld records (ticks w) (draws w)).

Inductive result :=
| Success (appointment : option Appointment)
| Failure (errors : list string).

Record stats := mkStats {
  total : nat;
  scheduled : nat;
  completed : nat;
  cancelled : nat;
  no_show : nat;
  today : nat;
  upcoming : nat
}.

(** [sorted(l, key=...)]: the stable sort. *)
Fixpoint insert_by {A} (key : A -> datetime_t) (x : A) (l : list A) : list A :=
  match l with
  | [] => [x]
  | y :: r =>
      if Cal.datetime_leb (key x) (key y) then x :: l
      else y :: insert_by key x r
  end.

Fixpoint sorted {A} (key : A -> datetime_t) (l : list A) : list A :=
  match l with
  | [] => []
  | x :: r => insert_by key x (sorted key r)
  end.

(** The first appointment of [same_day] that overlaps the candidate window:
    the loop of [_check_conflict]. *)
Fixpoint first_conflict (new_start new_end : time_t)
    (exclude_id : option string) (same_day : list Appointment)
    : option Appointment :=
  match same_day with
  | [] => None
  | existing :: rest =>
      if match exclude_id with
         | Some x => Str.truthy x && bool_decide (id existing = x)
         | None => false
         end
      then first_conflict new_start new_end exclude_id rest
      else if bool_decide (status existing = AppointmentStatus.CANCELLED)
      then first_conflict new_start new_end exclude_id rest
      else if Cal.time_ltb new_start (end_time existing)
              && Cal.time_ltb (start_time existing) new_end
      then Some existing
      else first_conflict new_start new_end exclude_id rest
  end.

(** The message of a conflict with [conflict]. *)
Definition conflict_message (conflict : Appointment) : string :=
  "Time conflict with appointment '" +:+ title conflict +:+ "' ("
  +:+ Iso.strftime_HM (start_time conflict) +:+ " – "
  +:+ Iso.strftime_HM (end_time conflict) +:+ ").".

Local Open Scope prog_scope.

(** ** Programs that read the clock: entity, repository, controller *)

Section Program.

(** [now_at n]: what the call number [n] of [datetime.now()] returns. *)
Variable now_at : nat -> datetime_t.
(** [uuid_at n]: [str(uuid.uuid4())] of the call number [n]. *)
Variable uuid_at : nat -> string.

Definition now : M datetime_t :=
  fun w => (Ok (now_at (ticks w)), mkWorld (file w) (S (ticks w)) (draws w)).

Definition uuid4 : M string :=
  fun w => (Ok (uuid_at (draws w)), mkWorld (file w) (ticks w) (S (draws w))).

(** [Appointment.from_dict].  The defaults of [d.get] are evaluated whether
    the key is there or not, so the clock is read twice. *)
Definition from_dict (d : dict) : M Appointment :=
  v_id <~ getitem d "id";
  v_title <~ getitem d "title";
  v_client_name <~ getitem d "client_name";
  v_client_email <~ getitem d "client_email";
  v_client_phone <~ getitem d "client_phone";
  s_date <~ getitem d "date";
  v_date <~ parsed Iso.date_fromisoformat s_date;
  s_start <~ getitem d "start_time";
  v_start <~ parsed Iso.time_fromisoformat s_start;
  s_end <~ getitem d "end_time";
  v_end <~ parsed Iso.time_fromisoformat s_end;
  v_status <~ getitem d "status";
  let v_notes := default "" (d !! "notes") in
  n1 <~ now;
  v_created <~ parsed Iso.datetime_fromisoformat
                 (default (Iso.datetime_isoformat n1) (d !! "created_at"));
  n2 <~ now;
  v_updated <~ parsed Iso.datetime_fromisoformat
                 (default (Iso.datetime_isoformat n2) (d !! "updated_at"));
  ret (mkAppointment v_id v_title v_client_name v_client_email v_client_phone
         v_date v_start v_end v_status v_notes v_created v_updated).

(** [Appointment.generate_id] *)
Definition generate_id : M string :=
  u <~ uuid4; ret (Str.upper (Str.take 8 u)).

(** *** [AppointmentRepository] *)

Fixpoint load (records : list dict) : M (list Appointment) :=
  match records with
  | [] => ret []
  | r :: rest => a <~ from_dict r; l <~ load rest; ret (a :: l)
  end.

Definition get_all : M (list Appointment) :=
  records <~ _read; load records.

Fixpoint find_by_id (appt_id : string) (records : list dict)
    : M (option Appointment) :=
  match records with
  | [] => ret None
  | record :: rest =>
      rid <~ getitem record "id";
      if bool_decide (rid = appt_id)
      then a <~ from_dict record; ret (Some a)
      else find_by_id appt_id rest
  end.

Definition get_by_id (appt_id : string) : M (option Appointment) :=
  records <~ _read; find_by_id appt_id records.

Definition create (appt : Appointment) : M Appointment :=
  records <~ _read;
  _ <~ _write (push records (to_dict appt));
  ret appt.

Definition set_updated_at (appt : Appointment) (t : datetime_t) : Appointment :=
  mkAppointment (id appt) (title appt) (client_name appt) (client_email appt)
    (client_phone appt) (date appt) (start_time appt) (end_time appt)
    (status appt) (notes appt) (created_at appt) t.

(** The loop of [update] over [enumerate(records)], at index [i] with
    [rest] still to visit.  The result is the appointment as the loop left
    it: the caller's object when a record matched, [None] otherwise. *)
Fixpoint update_from (appt : Appointment) (records : list dict) (i : nat)
    (rest : list dict) : M (option Appointment) :=
  match rest with
  | [] => ret None
  | record :: rest' =>
      rid <~ getitem record "id";
      if bool_decide (rid = id appt)
      then
        t <~ now;
        let appt := set_updated_at appt t in
        _ <~ _write (<[i := to_dict appt]> records);
        ret (Some appt)
      else update_from appt records (S i) rest'
  end.

Definition update (appt : Appointment) : M (option Appointment) :=
  records <~ _read; update_from appt records 0%nat records.

(** [[r for r in records if r["id"] != appt_id]] *)
Fixpoint without_id (appt_id : string) (records : list dict) : M (list dict) :=
  match records with
  | [] => ret []
  | r :: rest =>
      rid <~ getitem r "id";
      l <~ without_id appt_id rest;
      ret (if bool_decide (rid ≠ appt_id) then r :: l else l)
  end.

Definition delete (appt_id : string) : M bool :=
  records <~ _read;
  new_records <~ without_id appt_id records;
  if bool_decide (length new_records = length records)
  then ret false
  else _ <~ _write new_records; ret true.

Definition get_by_date (target_date : date_t) : M (list Appointment) :=
  l <~ get_all; ret (filter (fun a => date a = target_date) l).

Definition is_upcoming_at (t : datetime_t) (a : Appointment) : bool :=
  Cal.datetime_ltb t (start_datetime a)
  && bool_decide (status a = AppointmentStatus.SCHEDULED).

Definition get_upcoming : M (list Appointment) :=
  t <~ now;
  l <~ get_all;
  ret (sorted start_datetime (filter (fun a => is_upcoming_at t a = true) l)).

Definition count (P : Appointment -> Prop) `{forall a, Decision (P a)}
    (l : list Appointment) : nat :=
  length (filter P l).

Definition get_stats : M stats :=
  all_appts <~ get_all;
  t <~ now;
  let today := dt_date t in
  up <~ get_upcoming;
  ret (mkStats
         (length all_appts)
         (count (fun a => status a = AppointmentStatus.SCHEDULED) all_appts)
         (count (fun a => status a = AppointmentStatus.COMPLETED) all_appts)
         (count (fun a => status a = AppointmentStatus.CANCELLED) all_appts)
         (count (fun a => status a = AppointmentStatus.NO_SHOW) all_appts)
         (count (fun a => date a = today) all_appts)
         (length up)).

(** *** [AppointmentController] *)

Definition _check_conflict (appt_date : date_t) (start_time end_time : time_t)
    (exclude_id : option string) : M (option Appointment) :=
  same_day <~ get_by_date appt_date;
  ret (first_conflict start_time end_time exclude_id same_day).

Definition create_appointment
    (title client_name client_email client_phone : string)
    (appt_date : date_t) (start_time end_time : time_t)
    (status notes : string) : M result :=
  let errors :=
    AppointmentValidator.validate title client_name client_email client_phone
      appt_date start_time end_time status in
  if bool_decide (errors ≠ []) then ret (Failure errors)
  else
    conflict <~ _check_conflict appt_date start_time end_time None;
    match conflict with
    | Some c => ret (Failure [conflict_message c])
    | None =>
        new_id <~ generate_id;
        t_created <~ now;
        t_updated <~ now;
        let appt :=
          mkAppointment new_id title client_name client_email client_phone
            appt_date start_time end_time status notes t_created t_updated in
        _ <~ create appt;
        ret (Success (Some appt))
    end.

Definition update_appointment (appt_id : string)
    (title client_name client_email client_phone : string)
    (appt_date : date_t) (start_time end_time : time_t)
    (status notes : string) : M result :=
  let errors :=
    AppointmentValidator.validate title client_name client_email client_phone
      appt_date start_time end_time status in
  if bool_decide (errors ≠ []) then ret (Failure errors)
  else
    existing <~ get_by_id appt_id;
    match existing with
    | None => ret (Failure ["Appointment not found."])
    | Some existing =>
        conflict <~ _check_conflict appt_date start_time end_time (Some appt_id);
        match conflict with
        | Some c => ret (Failure [conflict_message c])
        | None =>
            let existing :=
              mkAppointment (id existing) title client_name client_email
                client_phone appt_date start_time end_time status notes
                (created_at existing) (updated_at existing) in
            updated <~ update existing;
            ret (Success updated)
        end
    end.

Definition delete_appointment (appt_id : string) : M result :=
  success <~ delete appt_id;
  if success then ret (Success None)
  else ret (Failure ["Appointment not found."]).

Definition set_status (appt : Appointment) (s : string) : Appointment :=
  mkAppointment (id appt) (title appt) (client_name appt) (client_email appt)
    (client_phone appt) (date appt) (start_time appt) (end_time appt)
    s (notes appt) (created_at appt) (updated_at appt).

(** [update_status] returns the object it passed to [update], which
    [update] has stamped when it found the record. *)
Definition update_status (appt_id new_status : string) : M result :=
  appt <~ get_by_id appt_id;
  match appt with
  | None => ret (Failure ["Appointment not found."])
  | Some appt =>
      if negb (bool_decide (new_status ∈ AppointmentStatus.ALL))
      then ret (Failure ["Invalid status: " +:+ new_status])
      else
        let appt := set_status appt new_status in
        stamped <~ update appt;
        ret (Success (Some (default appt stamped)))
  end.

End Program.

(** ** The rest of the entity, the repository and the controller *)

Module Text.

(** [str.lower] on text of code points below 256 (Latin-1), which is the
    text a [string] holds here.  On such text Python lowers each character
    by itself, to a code point that is again below 256: the letters A-Z and
    the accented capitals 192-214 and 216-222 move up by 32, every other
    character stays.  The rules of [str.lower] that look at the neighbours
    of a character or give more than one character concern code points from
    256 on (capital sigma, dotted capital I) and lie outside this text. *)
Definition lower_char (c : ascii) : ascii :=
  let n := N_of_ascii c in
  if ((65 <=? n) && (n <=? 90)) || ((192 <=? n) && (n <=? 214))
     || ((216 <=? n) && (n <=? 222))
  then ascii_of_N (n + 32) else c.

Fixpoint lower (s : string) : string :=
  match s with
  | EmptyString => EmptyString
  | String c r => String (lower_char c) (lower r)
  end.

(** [s.startswith(p)] *)
Fixpoint is_prefix (p s : string) : bool :=
  match p, s with
  | EmptyString, _ => true
  | String _ _, EmptyString => false
  | String c p', String d s' => Ascii.eqb c d && is_prefix p' s'
  end.

(** [q in s] for strings. *)
Fixpoint occurs_in (q s : string) : bool :=
  is_prefix q s
  || match s with
     | EmptyString => false
     | String _ r => occurs_in q r
     end.

End Text.

(** [a <= b] on dates. *)
Definition date_leb (a b : date_t) : bool := Cal.is_le (Cal.date_compare a b).

(** [Appointment.duration_minutes]: [int(delta.total_seconds() // 60)].  The
    quotient of the seconds by 60, rounded down, is the quotient of the
    microseconds by [60 * 10^6], rounded down. *)
Definition duration_minutes (self : Appointment) : Z :=
  let start_dt := Cal.combine (date self) (start_time self) in
  let end_dt := Cal.combine (date self) (end_time self) in
  (Cal.sub_us end_dt start_dt / 60000000)%Z.

(** The order of pairs [(date, time)]. *)
Definition date_time_compare (a b : date_t * time_t) : comparison :=
  Cal.lex (Cal.date_compare (fst a) (fst b)) (Cal.time_compare (snd a) (snd b)).

(** [sorted(l, key=...)] for keys ordered by [cmp]: the stable sort. *)
Fixpoint insert_on {A K} (cmp : K -> K -> comparison) (key : A -> K) (x : A)
    (l : list A) : list A :=
  match l with
  | [] => [x]
  | y :: r =>
      if Cal.is_le (cmp (key x) (key y)) then x :: l
      else y :: insert_on cmp key x r
  end.

Fixpoint sorted_on {A K} (cmp : K -> K -> comparison) (key : A -> K)
    (l : list A) : list A :=
  match l with
  | [] => []
  | x :: r => insert_on cmp key x (sorted_on cmp key r)
  end.

(** [l.index(x)]; [None] is the [ValueError]. *)
Fixpoint index_of {A} `{EqDecision A} (x : A) (l : list A) : option nat :=
  match l with
  | [] => None
  | y :: r => if decide (y = x) then Some 0%nat else S <$> index_of x r
  end.

(** *** [views/form_view.py]: the times the form offers *)

Definition _time_options : list time_t :=
  flat_map (fun h => map (fun m => mkTime (N.of_nat h) m 0 0) [0; 15; 30; 45])
    (seq 0 24).

Definition _format_time (t : time_t) : string := Iso.strftime_HM t.

(** [time_opts[time_labels.index(label)]], as the form reads a selection
    back. *)
Definition option_of_label (label : string) : option time_t :=
  let time_opts := _time_options in
  let time_labels := map _format_time time_opts in
  i ← index_of label time_labels; time_opts !! i.

Section MoreProgram.
Variable now_at : nat -> datetime_t.

(** [Appointment.is_upcoming] and [is_past] *)
Definition is_upcoming (self : Appointment) : M bool :=
  let appt_dt := Cal.combine (date self) (start_time self) in
  t <~ now now_at;
  ret (Cal.datetime_ltb t appt_dt
       && bool_decide (status self = AppointmentStatus.SCHEDULED)).

Definition is_past (self : Appointment) : M bool :=
  let appt_dt := Cal.combine (date self) (start_time self) in
  t <~ now now_at;
  ret (Cal.datetime_ltb appt_dt t).

(** *** [AppointmentRepository], the queries *)

Definition get_by_status (status' : string) : M (list Appointment) :=
  l <~ get_all now_at; ret (filter (fun a => status a = status') l).

Definition get_by_date_range (start end' : date_t) : M (list Appointment) :=
  l <~ get_all now_at;
  ret (filter (fun a => date_leb start (date a) && date_leb (date a) end' = true)
         l).

Definition matches (q : string) (a : Appointment) : bool :=
  Text.occurs_in q (Text.lower (title a))
  || Text.occurs_in q (Text.lower (client_name a))
  || Text.occurs_in q (Text.lower (client_email a))
  || Text.occurs_in q (Text.lower (notes a)).

Definition search (query : string) : M (list Appointment) :=
  let q := Str.strip (Text.lower query) in
  l <~ get_all now_at;
  ret (filter (fun a => matches q a = true) l).

(** *** [AppointmentController], the reads *)

Definition list_all (sort_by : string) : M (list Appointment) :=
  appts <~ get_all now_at;
  ret (if bool_decide (sort_by = "client_name")
       then sorted_on String.compare (fun a => Text.lower (client_name a)) appts
       else if bool_decide (sort_by = "status")
       then sorted_on String.compare (fun a => status a) appts
       else if bool_decide (sort_by = "title")
       then sorted_on String.compare (fun a => Text.lower (title a)) appts
       else sorted_on date_time_compare (fun a => (date a, start_time a)) appts).

(** [date.today()], read off the same clock. *)
Definition today_ : M date_t := t <~ now now_at; ret (dt_date t).

Definition get_today : M (list Appointment) :=
  d <~ today_; get_by_date now_at d.

Definition filter_by_status (status' : string) : M (list Appointment) :=
  get_by_status status'.

Definition filter_by_date_range (start end' : date_t) : M (list Appointment) :=
  get_by_date_range start end'.

Definition get_dashboard_stats : M stats := get_stats now_at.

(** *** [data/seed.py] *)

(** The loop of [seed_if_empty] over the seed records, [count] inserted so
    far. *)
Fixpoint seed_from (seeds : list dict) (count : nat) : M nat :=
  match seeds with
  | [] => ret count
  | seed :: rest =>
      v_id <~ getitem seed "id";
      v_title <~ getitem seed "title";
      v_client_name <~ getitem seed "client_name";
      v_client_email <~ getitem seed "client_email";
      v_client_phone <~ getitem seed "client_phone";
      s_date <~ getitem seed "date";
      v_date <~ parsed Iso.date_fromisoformat s_date;
      s_start <~ getitem seed "start_time";
      v_start <~ parsed Iso.time_fromisoformat s_start;
      s_end <~ getitem seed "end_time";
      v_end <~ parsed Iso.time_fromisoformat s_end;
      v_status <~ getitem seed "status";
      let v_notes := default "" (seed !! "notes") in
      t_created <~ now now_at;
      t_updated <~ now now_at;
      let appt :=
        mkAppointment v_id v_title v_client_name v_client_email v_client_phone
          v_date v_start v_end v_status v_notes t_created t_updated in
      _ <~ create appt;
      seed_from rest (S count)
  end.

(** [seed_if_empty], with the module constant [SEEDS] as an argument (its
    dates are computed from the day the module is loaded). *)
Definition seed_if_empty (SEEDS : list dict) : M nat :=
  existing <~ get_all now_at;
  match existing with
  | _ :: _ => ret 0%nat
  | [] => seed_from SEEDS 0%nat
  end.

End MoreProgram.

(** ** Vocabulary of the statements *)

(** The ranges the constructors of [date], [time] and [datetime] enforce,
    for every field of an appointment. *)
Definition wf_appt (a : Appointment) : Prop :=
  Cal.wf_date (date a) /\ Cal.wf_time (start_time a) /\ Cal.wf_time (end_time a)
  /\ Cal.wf_datetime (created_at a) /\ Cal.wf_datetime (updated_at a).

(** The appointment with both times of day cut to the minute. *)
Definition stored_form (a : Appointment) : Appointment :=
  mkAppointment (id a) (title a) (client_name a) (client_email a)
    (client_phone a) (date a) (whole_minute (start_time a))
    (whole_minute (end_time a)) (status a) (notes a) (created_at a)
    (updated_at a).

(** An appointment as the repository hands it out. *)
Definition stored_appt (a : Appointment) : Prop :=
  wf_appt a /\ stored_form a = a.

(** The file of [w] holds exactly the appointments [l], in this order. *)
Definition holds (w : world) (l : list Appointment) : Prop :=
  file w = to_dict <$> l /\ Forall stored_appt l.

(** [k] more readings of the clock. *)
Definition tick (k : nat) (w : world) : world :=
  mkWorld (file w) (k + ticks w) (draws w).

(** Every [updated_at] in [l] is one of the first [t] readings of the
    clock [now_at]. *)
Definition stamped_before (now_at : nat -> datetime_t) (t : nat)
    (l : list Appointment) : Prop :=
  Forall (fun a => exists k, (k < t)%nat /\ updated_at a = now_at k) l.


(** Half-open windows [[s1, e1)] and [[s2, e2)] overlap. *)
Definition overlap (s1 e1 s2 e2 : time_t) : Prop :=
  Cal.time_ltb s1 e2 = true /\ Cal.time_ltb s2 e1 = true.

(** The arguments of [create_appointment] and [update_appointment]. *)
Record fields := mkFields {
  f_title : string;
  f_client_name : string;
  f_client_email : string;
  f_client_phone : string;
  f_date : date_t;
  f_start_time : time_t;
  f_end_time : time_t;
  f_status : string;
  f_notes : string
}.

Definition wf_fields (f : fields) : Prop :=
  Cal.wf_date (f_date f) /\ Cal.wf_time (f_start_time f)
  /\ Cal.wf_time (f_end_time f).

Definition validate_fields (f : fields) : list string :=
  AppointmentValidator.validate (f_title f) (f_client_name f)
    (f_client_email f) (f_client_phone f) (f_date f) (f_start_time f)
    (f_end_time f) (f_status f).

(** A call of one of the writing operations of the controller. *)
Inductive op :=
| Create (f : fields)
| Update (appt_id : string) (f : fields)
| Delete (appt_id : string)
| SetStatus (appt_id : string) (new_status : string).

(** The appointment both write operations build from their arguments. *)
Definition appt_of_fields (i : string) (f : fields) (c u : datetime_t)
    : Appointment :=
  mkAppointment i (f_title f) (f_client_name f) (f_client_email f)
    (f_client_phone f) (f_date f) (f_start_time f) (f_end_time f)
    (f_status f) (f_notes f) c u.

(** The window of [f] against the stored appointments [l] of its day. *)
Definition conflict_with (f : fields) (exclude_id : option string)
    (l : list Appointment) : option Appointment :=
  first_conflict (f_start_time f) (f_end_time f) exclude_id
    (filter (fun a => date a = f_date f) l).

(** The loop of [_check_conflict] passes over [a] because of its id. *)
Definition excluded (exclude_id : option string) (a : Appointment) : bool :=
  match exclude_id with
  | Some x => Str.truthy x && bool_decide (id a = x)
  | None => false
  end.

(** The stored appointment [c] is in the way of the window of [f]. *)
Definition conflicts (f : fields) (c : Appointment) : Prop :=
  date c = f_date f /\ status c ≠ AppointmentStatus.CANCELLED
  /\ overlap (f_start_time f) (f_end_time f) (start_time c) (end_time c).

(** The computation [m] never writes the file. *)
Definition read_only {A} (m : M A) : Prop :=
  forall w, file (snd (m w)) = file w.

(** Both times of day of [a] are whole minutes. *)
Definition whole_minutes (a : Appointment) : Prop :=
  second (start_time a) = 0 /\ microsecond (start_time a) = 0
  /\ second (end_time a) = 0 /\ microsecond (end_time a) = 0.

Definition wf_op (o : op) : Prop :=
  match o with
  | Create f | Update _ f => wf_fields f
  | Delete _ | SetStatus _ _ => True
  end.

Section Runs.
Variable now_at : nat -> datetime_t.
Variable uuid_at : nat -> string.

Definition create_with (f : fields) : M result :=
  create_appointment now_at uuid_at (f_title f) (f_client_name f)
    (f_client_email f) (f_client_phone f) (f_date f) (f_start_time f)
    (f_end_time f) (f_status f) (f_notes f).

Definition update_with (appt_id : string) (f : fields) : M result :=
  update_appointment now_at appt_id (f_title f) (f_client_name f)
    (f_client_email f) (f_client_phone f) (f_date f) (f_start_time f)
    (f_end_time f) (f_status f) (f_notes f).

Definition perform (o : op) : M result :=
  match o with
  | Create f => create_with f
  | Update i f => update_with i f
  | Delete i => delete_appointment i
  | SetStatus i s => update_status now_at i s
  end.

(** The world after the calls [ops], one after the other. *)
Fixpoint run (ops : list op) (w : world) : world :=
  match ops with
  | [] => w
  | o :: rest => run rest (snd (perform o w))
  end.

End Runs.

(** The file as [AppointmentRepository.__init__] creates it. *)
Definition empty_world : world := mkWorld [] 0 0.

(** ** Vocabulary of the further statements *)

(** The three-way comparison [cmp] is a total preorder whose [Eq] is an
    equivalence compatible with it. *)
Record ordering {K} (cmp : K -> K -> comparison) : Prop := mkOrdering {
  ord_opp : forall x y, cmp y x = CompOpp (cmp x y);
  ord_eq : forall x y z, cmp x y = Eq -> cmp x z = cmp y z;
  ord_lt : forall x y z, cmp x y = Lt -> cmp y z = Lt -> cmp x z = Lt
}.

(** The key of [a] is not after the key of [b]. *)
Definition key_le {A K} (cmp : K -> K -> comparison) (key : A -> K)
    (a b : A) : Prop :=
  Cal.is_le (cmp (key a) (key b)) = true.

(** The key of [a] and the key [k] compare equal. *)
Definition key_is {A K} (cmp : K -> K -> comparison) (key : A -> K) (k : K)
    (a : A) : Prop :=
  cmp (key a) k = Eq.

Global Instance key_is_dec {A K} (cmp : K -> K -> comparison) (key : A -> K)
    (k : K) (a : A) : Decision (key_is cmp key k a).
Proof. unfold key_is. solve_decision. Defined.

(** The sort keys of [list_all]. *)
Definition by_date (a : Appointment) : date_t * time_t :=
  (date a, start_time a).
Definition by_client_name (a : Appointment) : string :=
  Text.lower (client_name a).
Definition by_title (a : Appointment) : string := Text.lower (title a).

(** [a] is not listed after [b] by [list_all(sort_by)]. *)
Definition listed_before (sort_by : string) (a b : Appointment) : Prop :=
  if bool_decide (sort_by = "client_name")
  then key_le String.compare by_client_name a b
  else if bool_decide (sort_by = "status")
  then key_le String.compare status a b
  else if bool_decide (sort_by = "title")
  then key_le String.compare by_title a b
  else key_le date_time_compare by_date a b.

(** [a] has the sort key of [a0] under [list_all(sort_by)]. *)
Definition ties_with (sort_by : string) (a0 a : Appointment) : Prop :=
  if bool_decide (sort_by = "client_name")
  then key_is String.compare by_client_name (by_client_name a0) a
  else if bool_decide (sort_by = "status")
  then key_is String.compare status (status a0) a
  else if bool_decide (sort_by = "title")
  then key_is String.compare by_title (by_title a0) a
  else key_is date_time_compare by_date (by_date a0) a.

Global Instance ties_with_dec (sort_by : string) (a0 a : Appointment) :
  Decision (ties_with sort_by a0 a).
Proof. unfold ties_with. repeat case_bool_decide; apply _. Defined.

(** What the data model asks of an appointment: a status of the closed
    set, an end after the start and a duration of at least 15 minutes. *)
Definition sound_appt (a : Appointment) : Prop :=
  status a ∈ AppointmentStatus.ALL
  /\ Cal.time_ltb (start_time a) (end_time a) = true
  /\ (15 <= duration_minutes a)%Z.

(** The id that [generate_id] makes of the draw number [n]. *)
Definition new_id (uuid_at : nat -> string) (n : nat) : string :=
  Str.upper (Str.take 8 (uuid_at n)).

(** What a call [o] of the controller can do to the stored appointments [l]
    and to the number [d] of identifiers drawn. *)
Inductive effect (uuid_at : nat -> string)
    : op -> nat -> list Appointment -> nat -> list Appointment -> Prop :=
| eff_none (o : op) (d : nat) (l : list Appointment) :
    effect uuid_at o d l d l
| eff_create (f : fields) (c u : datetime_t) (d : nat) (l : list Appointment) :
    validate_fields f = [] -> wf_fields f ->
    Cal.wf_datetime c -> Cal.wf_datetime u ->
    conflict_with f None l = None ->
    effect uuid_at (Create f) d l (S d)
      (l ++ [stored_form (appt_of_fields (new_id uuid_at d) f c u)])
| eff_update (i : string) (f : fields) (j : nat) (old : Appointment)
    (u : datetime_t) (d : nat) (l : list Appointment) :
    list_find (fun a => id a = i) l = Some (j, old) ->
    validate_fields f = [] -> wf_fields f -> Cal.wf_datetime u ->
    conflict_with f (Some i) l = None ->
    effect uuid_at (Update i f) d l d
      (<[j := stored_form (appt_of_fields i f (created_at old) u)]> l)
| eff_delete (i : string) (d : nat) (l : list Appointment) :
    effect uuid_at (Delete i) d l d (filter (fun a => id a ≠ i) l)
| eff_status (i s : string) (j : nat) (old : Appointment) (u : datetime_t)
    (d : nat) (l : list Appointment) :
    list_find (fun a => id a = i) l = Some (j, old) ->
    s ∈ AppointmentStatus.ALL -> Cal.wf_datetime u ->
    effect uuid_at (SetStatus i s) d l d
      (<[j := set_updated_at (set_status old s) u]> l).

(** The call [o] is not [update_status]. *)
Definition keeps_status_checked (o : op) : Prop :=
  match o with SetStatus _ _ => False | _ => True end.

(** [a] and [b] do not claim the same time: they are on different dates,
    one of them is cancelled, or their windows do not overlap. *)
Definition apart (a b : Appointment) : Prop :=
  date a = date b ->
  status a ≠ AppointmentStatus.CANCELLED ->
  status b ≠ AppointmentStatus.CANCELLED ->
  ~ overlap (start_time a) (end_time a) (start_time b) (end_time b).

(** Every element of [l] is related by [R] to every later one. *)
Fixpoint pairwise {A} (R : A -> A -> Prop) (l : list A) : Prop :=
  match l with
  | [] => True
  | x :: r => Forall (R x) r /\ pairwise R r
  end.

(** The first [d] identifiers drawn are all different. *)
Definition fresh_ids (uuid_at : nat -> string) (d : nat) : Prop :=
  forall m n, (m < d)%nat -> (n < d)%nat ->
    new_id uuid_at m = new_id uuid_at n -> m = n.

(** The stored appointments are pairwise apart and carry different ids, each
    one of the first [d] drawn. *)
Definition tidy (uuid_at : nat -> string) (d : nat) (l : list Appointment)
    : Prop :=
  pairwise apart l /\ NoDup (id <$> l)
  /\ Forall (fun a => exists k, (k < d)%nat /\ id a = new_id uuid_at k) l.

(** A seed record for [a]: the ten keys that [seed_if_empty] reads. *)
Definition seed_of (a : Appointment) : dict :=
  list_to_map
    [ ("id", id a);
      ("title", title a);
      ("client_name", client_name a);
      ("client_email", client_email a);
      ("client_phone", client_phone a);
      ("date", Iso.date_isoformat (date a));
      ("start_time", Iso.strftime_HM (start_time a));
      ("end_time", Iso.strftime_HM (end_time a));
      ("status", status a);
      ("notes", notes a) ].

Definition wf_seed (a : Appointment) : Prop :=
  Cal.wf_date (date a) /\ Cal.wf_time (start_time a) /\ Cal.wf_time (end_time a).

(** [a] with the timestamps [c] and [u]. *)
Definition with_stamps (a : Appointment) (c u : datetime_t) : Appointment :=
  mkAppointment (id a) (title a) (client_name a) (client_email a)
    (client_phone a) (date a) (start_time a) (end_time a) (status a)
    (notes a) c u.

(** The appointments [l] as seeding stores them, from the reading number
    [k] of the clock [now_at] on. *)
Fixpoint seeded (now_at : nat -> datetime_t) (k : nat) (l : list Appointment)
    : list Appointment :=
  match l with
  | [] => []
  | a :: r =>
      stored_form (with_stamps a (now_at k) (now_at (S k)))
      :: seeded now_at (S (S k)) r
  end.

(** The keys that [from_dict] cannot do without. *)
Definition required_keys : list string :=
  ["id"; "title"; "client_name"; "client_email"; "client_phone"; "date";
   "start_time"; "end_time"; "status"].

(** The characters of the text of a UUID apart from its dashes, as [str]
    prints them, and their upper-case forms. *)
Definition lower_hex (c : ascii) : bool :=
  let n := N_of_ascii c in
  ((48 <=? n) && (n <=? 57)) || ((97 <=? n) && (n <=? 102)).

Definition upper_hex (c : ascii) : bool :=
  let n := N_of_ascii c in
  ((48 <=? n) && (n <=? 57)) || ((65 <=? n) && (n <=? 70)).

Fixpoint all_chars (p : ascii -> bool) (s : string) : bool :=
  match s with
  | EmptyString => true
  | String c r => p c && all_chars p r
  end.

(** ** Sample data *)

Module Sample.

(** A clock that advances by one microsecond per reading. *)
Definition clock (n : nat) : datetime_t :=
  mkDatetime (mkDate 2025 5 20) (mkTime 8 0 0 (N.of_nat n mod 1000000)).

Definition uuids (n : nat) : string :=
  Digits.zfill 8 (N.of_nat n) +:+ "-5b7d-4e8a-9f10-2c6d8e4b7a11".

Definition day : date_t := mkDate 2025 6 1.

Definition hm (h m : N) : time_t := mkTime h m 0 0.

(** The first appointment of the scenarios: 09:00 to 10:00. *)
Definition exam : Appointment :=
  mkAppointment "A001" "Annual Physical Exam" "Alice Johnson"
    "alice@example.com" "+1 555 100 2001" day (hm 9 0) (hm 10 0)
    "Scheduled" "Bring previous lab results." (clock 0) (clock 1).

Definition review : Appointment :=
  mkAppointment "A002" "Product Strategy Review" "Bob Martinez"
    "bob.m@acme.com" "+1 555 200 3002" day (hm 14 0) (hm 15 30)
    "Scheduled" "" (clock 2) (clock 3).

(** A file with the two appointments, after four readings of the clock. *)
Definition two : world := mkWorld [to_dict exam; to_dict review] 4 2.

(** An appointment that starts thirty seconds past the minute. *)
Definition late : Appointment :=
  mkAppointment "A003" "Tax Consultation" "Carol White"
    "carol.white@gmail.com" "+1 555 300 4003" day (mkTime 11 0 30 0)
    (hm 12 0) "Scheduled" "" (clock 0) (clock 1).

Definition request (s e : time_t) : fields :=
  mkFields "Tax Consultation" "Carol White" "carol.white@gmail.com"
    "+1 555 300 4003" day s e "Scheduled" "".

(** The same request without a title. *)
Definition untitled (s e : time_t) : fields :=
  mkFields "" "Carol White" "carol.white@gmail.com" "+1 555 300 4003" day
    s e "Scheduled" "".

End Sample.

(** ** More sample data *)

Module Demo.

(** Four calls: two bookings, a change of the first and a deletion. *)
Definition calls : list op :=
  [ Create (Sample.request (Sample.hm 9 0) (Sample.hm 10 0));
    Create (Sample.request (Sample.hm 10 0) (Sample.hm 10 30));
    Update "00000000" (Sample.request (Sample.hm 8 0) (Sample.hm 9 30));
    Delete "00000001" ].

(** The same with a status call at the end. *)
Definition calls_with_status : list op :=
  calls ++ [SetStatus "00000000" "Completed"].

End Demo.

(** * Properties *)

(** ** Decimal fields and ISO texts are read back as written *)

Section IsoRoundTrip.
Import Digits Cal Iso.

Lemma append_cons (c : ascii) (s r : string) :
  String c s +:+ r = String c (s +:+ r).
Proof. reflexivity. Qed.

Lemma append_empty_l (s : string) : "" +:+ s = s.
Proof. reflexivity. Qed.

Ltac str_norm := rewrite ?append_cons, ?append_empty_l.
Ltac parse_step :=
  str_norm; cbn [mbind option_bind Iso.expect Ascii.eqb Bool.eqb].

Lemma digit_val_char (d : N) : d < 10 -> digit_val (digit_char d) = Some d.
Proof.
  intros Hd. unfold digit_val, digit_char.
  rewrite N_ascii_embedding by lia.
  replace (48 + d - 48) with d by lia.
  destruct (N.leb_spec 48 (48 + d)); [|lia].
  destruct (N.leb_spec (48 + d) 57); [reflexivity|lia].
Qed.

Lemma parse_zfill (w : nat) : forall n acc rest,
  parse_digits w acc (zfill w n +:+ rest)
  = Some (acc * 10 ^ N.of_nat w + n mod 10 ^ N.of_nat w, rest).
Proof.
  induction w as [|w IH]; intros n acc rest.
  - simpl. rewrite N.mod_1_r. f_equal. f_equal. lia.
  - cbn [zfill parse_digits]. str_norm.
    rewrite digit_val_char by (apply N.mod_lt; lia).
    rewrite IH. f_equal. f_equal.
    rewrite Nat2N.inj_succ, N.pow_succ_r'.
    rewrite (N.mul_comm 10 (10 ^ N.of_nat w)).
    rewrite (N.Div0.mod_mul_r n (10 ^ N.of_nat w) 10).
    ring.
Qed.

Lemma parse_zfill_small (w : nat) (n : N) (rest : string) :
  n < 10 ^ N.of_nat w ->
  parse_digits w 0 (zfill w n +:+ rest) = Some (n, rest).
Proof.
  intros Hn. rewrite parse_zfill, N.mod_small by exact Hn.
  reflexivity.
Qed.

Lemma append_empty_r (s : string) : s +:+ "" = s.
Proof. induction s as [|c s IH]; [reflexivity|]. now rewrite append_cons, IH. Qed.

Lemma append_assoc (a b c : string) : (a +:+ b) +:+ c = a +:+ (b +:+ c).
Proof. induction a as [|x a IH]; [reflexivity|]. now rewrite !append_cons, IH. Qed.

Lemma days_in_month_le (y m : N) : days_in_month y m <= 31.
Proof.
  unfold days_in_month.
  repeat match goal with |- context [if ?b then _ else _] => destruct b end; lia.
Qed.

Lemma date_okb_wf (d : date_t) : date_okb d = true <-> wf_date d.
Proof.
  unfold date_okb, wf_date.
  rewrite !andb_true_iff, !N.leb_le. tauto.
Qed.

Lemma time_okb_wf (t : time_t) : time_okb t = true <-> wf_time t.
Proof.
  unfold time_okb, wf_time.
  rewrite !andb_true_iff, !N.ltb_lt. tauto.
Qed.

Lemma parse_date_isoformat (d : date_t) (rest : string) :
  wf_date d -> parse_date (date_isoformat d +:+ rest) = Some (d, rest).
Proof.
  intros Hd. pose proof Hd as (Hy & Hm & Hday).
  pose proof (days_in_month_le (year d) (month d)) as Hle.
  unfold parse_date, date_isoformat.
  rewrite !append_assoc.
  rewrite parse_zfill_small by (simpl; lia). parse_step.
  rewrite parse_zfill_small by (simpl; lia). parse_step.
  rewrite parse_zfill_small by (simpl; lia). parse_step.
  destruct d as [y m dd]. cbn [year month day] in *.
  apply date_okb_wf in Hd. rewrite Hd. reflexivity.
Qed.

Lemma date_roundtrip (d : date_t) :
  wf_date d -> date_fromisoformat (date_isoformat d) = Some d.
Proof.
  intros Hd. unfold date_fromisoformat.
  rewrite <- (append_empty_r (date_isoformat d)).
  rewrite parse_date_isoformat by exact Hd. reflexivity.
Qed.

Lemma strftime_HM_read (t : time_t) :
  wf_time t -> time_fromisoformat (strftime_HM t) = Some (whole_minute t).
Proof.
  intros (Hh & Hm & _ & _).
  unfold time_fromisoformat, parse_time, strftime_HM.
  rewrite parse_zfill_small by (simpl; lia). parse_step.
  rewrite <- (append_empty_r (zfill 2 (minute t))).
  rewrite parse_zfill_small by (simpl; lia). parse_step.
  unfold whole_minute.
  assert (Hok : time_okb (mkTime (hour t) (minute t) 0 0) = true)
    by (apply time_okb_wf; unfold wf_time; simpl; lia).
  rewrite Hok. reflexivity.
Qed.

Lemma parse_time_isoformat (t : time_t) :
  wf_time t -> parse_time (time_isoformat t) = Some t.
Proof.
  intros Ht. pose proof Ht as (Hh & Hm & Hs & Hu).
  unfold parse_time, time_isoformat.
  rewrite parse_zfill_small by (simpl; lia). parse_step.
  rewrite parse_zfill_small by (simpl; lia). parse_step.
  rewrite parse_zfill_small by (simpl; lia). parse_step.
  apply time_okb_wf in Ht.
  destruct t as [h m s u]; cbn [hour minute second microsecond] in *.
  destruct (N.eqb_spec u 0) as [->|Hne].
  - parse_step. rewrite Ht. reflexivity.
  - parse_step.
    unfold parse_fraction.
    rewrite <- (append_empty_r (zfill 6 u)).
    rewrite parse_zfill_small by (simpl; lia).
    parse_step. rewrite Ht. reflexivity.
Qed.

Lemma datetime_roundtrip (x : datetime_t) :
  wf_datetime x -> datetime_fromisoformat (datetime_isoformat x) = Some x.
Proof.
  intros (Hd & Ht). unfold datetime_fromisoformat, datetime_isoformat.
  rewrite parse_date_isoformat by exact Hd. parse_step.
  str_norm. rewrite parse_time_isoformat by exact Ht.
  destruct x; reflexivity.
Qed.

End IsoRoundTrip.

(** ** Reading the file back *)

Lemma to_dict_lookups (a : Appointment) :
  to_dict a !! "id" = Some (id a)
  /\ to_dict a !! "title" = Some (title a)
  /\ to_dict a !! "client_name" = Some (client_name a)
  /\ to_dict a !! "client_email" = Some (client_email a)
  /\ to_dict a !! "client_phone" = Some (client_phone a)
  /\ to_dict a !! "date" = Some (Iso.date_isoformat (date a))
  /\ to_dict a !! "start_time" = Some (Iso.strftime_HM (start_time a))
  /\ to_dict a !! "end_time" = Some (Iso.strftime_HM (end_time a))
  /\ to_dict a !! "status" = Some (status a)
  /\ to_dict a !! "notes" = Some (notes a)
  /\ to_dict a !! "created_at" = Some (Iso.datetime_isoformat (created_at a))
  /\ to_dict a !! "updated_at" = Some (Iso.datetime_isoformat (updated_at a)).
Proof. repeat split; reflexivity. Qed.

Lemma to_dict_id (a : Appointment) : to_dict a !! "id" = Some (id a).
Proof. reflexivity. Qed.

Lemma to_dict_stored_form (a : Appointment) : to_dict (stored_form a) = to_dict a.
Proof. reflexivity. Qed.

Lemma stored_form_idem (a : Appointment) : stored_form (stored_form a) = stored_form a.
Proof. reflexivity. Qed.

Lemma wf_whole_minute (t : time_t) : Cal.wf_time t -> Cal.wf_time (whole_minute t).
Proof. unfold Cal.wf_time. simpl. lia. Qed.

Lemma wf_stored_form (a : Appointment) : wf_appt a -> wf_appt (stored_form a).
Proof.
  intros (Hd & Hs & He & Hc & Hu).
  repeat split; simpl; auto using wf_whole_minute; try apply Hd; try apply Hc;
    try apply Hu; try (apply wf_whole_minute; assumption).
Qed.

Lemma stored_appt_stored_form (a : Appointment) :
  wf_appt a -> stored_appt (stored_form a).
Proof. intros H. split; [now apply wf_stored_form | reflexivity]. Qed.

Lemma tick_tick (j k : nat) (w : world) : tick j (tick k w) = tick (j + k) w.
Proof. unfold tick. simpl. f_equal. lia. Qed.

Lemma tick_0 (w : world) : tick 0 w = w.
Proof. destruct w. reflexivity. Qed.

Section Reading.
Variable now_at : nat -> datetime_t.

Lemma from_dict_to_dict (a : Appointment) (w : world) :
  wf_appt a -> from_dict now_at (to_dict a) w = (Ok (stored_form a), tick 2 w).
Proof.
  intros (Hd & Hs & He & Hc & Hu).
  destruct (to_dict_lookups a)
    as (L1 & L2 & L3 & L4 & L5 & L6 & L7 & L8 & L9 & L10 & L11 & L12).
  unfold from_dict, getitem, parsed, bind, ret, raise, now.
  rewrite L1, L2, L3, L4, L5, L6. cbv beta iota.
  rewrite (date_roundtrip _ Hd), L7. cbv beta iota.
  rewrite (strftime_HM_read _ Hs), L8. cbv beta iota.
  rewrite (strftime_HM_read _ He), L9, L10, L11, L12. cbv beta iota.
  cbn [from_option Datatypes.id]. rewrite (datetime_roundtrip _ Hc). cbv beta iota.
  cbn [from_option Datatypes.id]. rewrite (datetime_roundtrip _ Hu). cbv beta iota.
  reflexivity.
Qed.

Lemma load_stored (l : list Appointment) : forall w,
  Forall stored_appt l ->
  load now_at (to_dict <$> l) w = (Ok l, tick (2 * length l) w).
Proof.
  induction l as [|a l IH]; intros w Hl.
  - simpl. now rewrite tick_0.
  - apply Forall_cons in Hl as [[Hwf Hst] Hl].
    cbn [fmap list_fmap load]. unfold bind at 1.
    rewrite (from_dict_to_dict a w Hwf), Hst.
    unfold bind at 1. rewrite (IH _ Hl). unfold ret.
    rewrite tick_tick. do 2 f_equal. simpl. lia.
Qed.

Lemma get_all_holds (w : world) (l : list Appointment) :
  holds w l -> get_all now_at w = (Ok l, tick (2 * length l) w).
Proof.
  intros [Hf Hl]. unfold get_all, bind, _read. rewrite Hf.
  pose proof (load_stored l w Hl) as H. exact H.
Qed.

End Reading.

(** ** The repository on a well-kept file *)

Lemma filter_length_all {A} (P : A -> Prop) `{forall x, Decision (P x)}
    (l : list A) :
  length (filter P l) = length l <-> Forall P l.
Proof.
  induction l as [|x l IH].
  - split; [constructor | reflexivity].
  - pose proof (length_filter P l) as Hle.
    rewrite filter_cons. destruct (decide (P x)) as [Hx|Hx].
    + simpl. rewrite Forall_cons. split.
      * intros Hlen. split; [exact Hx | apply IH; lia].
      * intros [_ Hl]. apply IH in Hl. lia.
    + split.
      * intros Hlen. simpl in Hlen. lia.
      * intros Hl. apply Forall_cons in Hl as [Hx' _]. contradiction.
Qed.

Section Repository.
Variable now_at : nat -> datetime_t.

Lemma find_by_id_stored (i : string) (l : list Appointment) : forall w,
  Forall stored_appt l ->
  find_by_id now_at i (to_dict <$> l) w
  = match list_find (fun a => id a = i) l with
    | Some (_, a) => (Ok (Some a), tick 2 w)
    | None => (Ok None, w)
    end.
Proof.
  induction l as [|a l IH]; intros w Hl; [reflexivity|].
  apply Forall_cons in Hl as [[Hwf Hst] Hl].
  cbn [fmap list_fmap find_by_id list_find]. unfold bind at 1, getitem.
  rewrite to_dict_id. unfold ret at 1.
  destruct (decide (id a = i)) as [Hi|Hi].
  - rewrite bool_decide_eq_true_2 by exact Hi.
    unfold bind. rewrite (from_dict_to_dict now_at a w Hwf), Hst. reflexivity.
  - rewrite bool_decide_eq_false_2 by exact Hi.
    rewrite (IH w Hl).
    destruct (list_find (fun a0 => id a0 = i) l) as [[j b]|]; reflexivity.
Qed.

Lemma get_by_id_holds (i : string) (w : world) (l : list Appointment) :
  holds w l ->
  get_by_id now_at i w
  = match list_find (fun a => id a = i) l with
    | Some (_, a) => (Ok (Some a), tick 2 w)
    | None => (Ok None, w)
    end.
Proof.
  intros [Hf Hl]. unfold get_by_id, bind, _read. rewrite Hf.
  exact (find_by_id_stored i l w Hl).
Qed.

Lemma update_from_stored (appt : Appointment) (records : list dict)
    (rest : list Appointment) : forall (i : nat) (w : world),
  update_from now_at appt records i (to_dict <$> rest) w
  = match list_find (fun a => id a = id appt) rest with
    | Some (j, _) =>
        let appt' := set_updated_at appt (now_at (ticks w)) in
        (Ok (Some appt'),
         mkWorld (<[(i + j)%nat := to_dict appt']> records) (S (ticks w)) (draws w))
    | None => (Ok None, w)
    end.
Proof.
  induction rest as [|a rest IH]; intros i w; [reflexivity|].
  cbn [fmap list_fmap update_from list_find]. unfold bind at 1, getitem.
  rewrite to_dict_id. unfold ret at 1.
  destruct (decide (id a = id appt)) as [Hi|Hi].
  - rewrite bool_decide_eq_true_2 by exact Hi.
    unfold bind, now, _write, ret. cbn [ticks file draws].
    replace (i + 0)%nat with i by lia. reflexivity.
  - rewrite bool_decide_eq_false_2 by exact Hi.
    rewrite (IH (S i) w).
    destruct (list_find (fun a0 => id a0 = id appt) rest) as [[j b]|];
      [|reflexivity].
    cbn [fmap option_fmap option_map prod_map fst snd].
    replace (S i + j)%nat with (i + S j)%nat by lia. reflexivity.
Qed.

Lemma update_holds (appt : Appointment) (w : world) (l : list Appointment) :
  holds w l ->
  update now_at appt w
  = match list_find (fun a => id a = id appt) l with
    | Some (j, _) =>
        let appt' := set_updated_at appt (now_at (ticks w)) in
        (Ok (Some appt'),
         mkWorld (to_dict <$> <[j := appt']> l) (S (ticks w)) (draws w))
    | None => (Ok None, w)
    end.
Proof.
  intros [Hf Hl]. unfold update, bind, _read. rewrite Hf.
  pose proof (update_from_stored appt (to_dict <$> l) l 0 w) as H.
  rewrite H.
  destruct (list_find (fun a => id a = id appt) l) as [[j b]|]; [|reflexivity].
  cbv zeta. rewrite list_fmap_insert. reflexivity.
Qed.

Lemma without_id_stored (i : string) (l : list Appointment) : forall w,
  without_id i (to_dict <$> l) w
  = (Ok (to_dict <$> filter (fun a => id a ≠ i) l), w).
Proof.
  induction l as [|a l IH]; intros w; [reflexivity|].
  cbn [fmap list_fmap without_id]. unfold bind at 1, getitem.
  rewrite to_dict_id. unfold ret at 1. unfold bind at 1.
  rewrite (IH w).
  unfold ret. rewrite filter_cons.
  destruct (decide (id a ≠ i)) as [Hi|Hi].
  - rewrite bool_decide_eq_true_2 by exact Hi. reflexivity.
  - rewrite bool_decide_eq_false_2 by exact Hi. reflexivity.
Qed.

Lemma delete_holds (i : string) (w : world) (l : list Appointment) :
  holds w l ->
  delete i w
  = if bool_decide (Forall (fun a => id a ≠ i) l) then (Ok false, w)
    else (Ok true,
          mkWorld (to_dict <$> filter (fun a => id a ≠ i) l) (ticks w) (draws w)).
Proof.
  intros [Hf Hl]. unfold delete, bind, _read. rewrite Hf.
  rewrite without_id_stored. rewrite !length_fmap.
  destruct (decide (Forall (fun a => id a ≠ i) l)) as [Hall|Hall].
  - rewrite (bool_decide_eq_true_2 _ Hall).
    rewrite bool_decide_eq_true_2
      by (now apply (filter_length_all (fun a => id a ≠ i) l)).
    reflexivity.
  - rewrite (bool_decide_eq_false_2 _ Hall).
    rewrite bool_decide_eq_false_2
      by (intros Hlen; apply Hall;
          now apply (filter_length_all (fun a => id a ≠ i) l)).
    reflexivity.
Qed.

Lemma create_holds (appt : Appointment) (w : world) (l : list Appointment) :
  holds w l ->
  create appt w
  = (Ok appt,
     mkWorld (to_dict <$> (l ++ [stored_form appt])) (ticks w) (draws w)).
Proof.
  intros [Hf Hl]. unfold create, bind, _read, _write, ret, push.
  rewrite Hf, fmap_app. reflexivity.
Qed.

Lemma get_by_date_holds (d : date_t) (w : world) (l : list Appointment) :
  holds w l ->
  get_by_date now_at d w
  = (Ok (filter (fun a => date a = d) l), tick (2 * length l) w).
Proof.
  intros H. unfold get_by_date, bind.
  rewrite (get_all_holds now_at w l H). reflexivity.
Qed.

Lemma check_conflict_holds (d : date_t) (s e : time_t) (x : option string)
    (w : world) (l : list Appointment) :
  holds w l ->
  _check_conflict now_at d s e x w
  = (Ok (first_conflict s e x (filter (fun a => date a = d) l)),
     tick (2 * length l) w).
Proof.
  intros H. unfold _check_conflict, bind.
  rewrite (get_by_date_holds d w l H). reflexivity.
Qed.

End Repository.

(** ** The controller on a well-kept file *)

Lemma holds_tick (k : nat) (w : world) (l : list Appointment) :
  holds w l -> holds (tick k w) l.
Proof. intros [Hf Hl]. split; assumption. Qed.

Lemma holds_intro (l : list Appointment) (t d : nat) :
  Forall stored_appt l -> holds (mkWorld (to_dict <$> l) t d) l.
Proof. intros Hl. split; [reflexivity | exact Hl]. Qed.

Lemma fmap_insert_stored (j : nat) (a : Appointment) (l : list Appointment) :
  to_dict <$> <[j := a]> l = to_dict <$> <[j := stored_form a]> l.
Proof. rewrite !list_fmap_insert. reflexivity. Qed.

Lemma wf_appt_of_fields (i : string) (f : fields) (c u : datetime_t) :
  wf_fields f -> Cal.wf_datetime c -> Cal.wf_datetime u ->
  wf_appt (appt_of_fields i f c u).
Proof.
  intros (Hd & Hs & He) Hc Hu. unfold wf_appt, appt_of_fields.
  cbn [date start_time end_time created_at updated_at]. tauto.
Qed.

Lemma list_find_id (i : string) (l : list Appointment) (j : nat)
    (a : Appointment) :
  list_find (fun a => id a = i) l = Some (j, a) ->
  id a = i /\ l !! j = Some a /\ a ∈ l.
Proof.
  intros H. apply list_find_Some in H as (Hj & Hi & _).
  repeat split; try assumption. eapply list_elem_of_lookup_2; eassumption.
Qed.

Lemma list_find_id_None (i : string) (l : list Appointment) :
  list_find (fun a => id a = i) l = None <-> Forall (fun a => id a ≠ i) l.
Proof. apply list_find_None. Qed.

Section Controller.
Variable now_at : nat -> datetime_t.
Variable uuid_at : nat -> string.

Lemma create_invalid (f : fields) (w : world) :
  validate_fields f ≠ [] ->
  create_with now_at uuid_at f w = (Ok (Failure (validate_fields f)), w).
Proof.
  intros H. unfold create_with, create_appointment.
  fold (validate_fields f). rewrite bool_decide_eq_true_2 by exact H.
  reflexivity.
Qed.

Lemma create_valid (f : fields) (w : world) (l : list Appointment) :
  validate_fields f = [] -> holds w l ->
  create_with now_at uuid_at f w
  = match conflict_with f None l with
    | Some c => (Ok (Failure [conflict_message c]), tick (2 * length l) w)
    | None =>
        let t := (2 * length l + ticks w)%nat in
        let appt :=
          appt_of_fields (Str.upper (Str.take 8 (uuid_at (draws w)))) f
            (now_at t) (now_at (S t)) in
        (Ok (Success (Some appt)),
         mkWorld (to_dict <$> (l ++ [stored_form appt])) (S (S t)) (S (draws w)))
    end.
Proof.
  intros Hv H. unfold create_with, create_appointment.
  fold (validate_fields f). rewrite Hv.
  rewrite bool_decide_eq_false_2 by (intros X; now apply X).
  unfold bind at 1. rewrite (check_conflict_holds now_at _ _ _ _ w l H).
  fold (conflict_with f None l).
  destruct (conflict_with f None l) as [c|]; [reflexivity|].
  unfold bind at 1. unfold generate_id, uuid4, bind at 1, ret at 1.
  unfold bind at 1, now at 1. unfold bind at 1, now at 1.
  cbn [ticks file draws tick].
  unfold bind at 1.
  rewrite (create_holds _ _ l) by (apply holds_tick with (k := 0%nat) in H;
    split; [apply H | apply H]).
  reflexivity.
Qed.

Lemma update_invalid (i : string) (f : fields) (w : world) :
  validate_fields f ≠ [] ->
  update_with now_at i f w = (Ok (Failure (validate_fields f)), w).
Proof.
  intros H. unfold update_with, update_appointment.
  fold (validate_fields f). rewrite bool_decide_eq_true_2 by exact H.
  reflexivity.
Qed.

Lemma update_valid (i : string) (f : fields) (w : world) (l : list Appointment) :
  validate_fields f = [] -> holds w l ->
  update_with now_at i f w
  = match list_find (fun a => id a = i) l with
    | None => (Ok (Failure ["Appointment not found."]), w)
    | Some (j, existing) =>
        match conflict_with f (Some i) l with
        | Some c =>
            (Ok (Failure [conflict_message c]), tick (2 + 2 * length l) w)
        | None =>
            let t := (2 + 2 * length l + ticks w)%nat in
            let appt :=
              appt_of_fields i f (created_at existing) (now_at t) in
            (Ok (Success (Some appt)),
             mkWorld (to_dict <$> <[j := stored_form appt]> l) (S t) (draws w))
        end
    end.
Proof.
  intros Hv H. unfold update_with, update_appointment.
  fold (validate_fields f). rewrite Hv.
  rewrite bool_decide_eq_false_2 by (intros X; now apply X).
  unfold bind at 1. rewrite (get_by_id_holds now_at i w l H).
  destruct (list_find (fun a => id a = i) l) as [[j ex]|] eqn:Hfind;
    [|reflexivity].
  apply list_find_id in Hfind as Hex. destruct Hex as (Hid & _ & _).
  unfold bind at 1.
  rewrite (check_conflict_holds now_at _ _ _ _ (tick 2 w) l (holds_tick 2 w l H)).
  fold (conflict_with f (Some i) l). rewrite tick_tick.
  destruct (conflict_with f (Some i) l) as [c|].
  - unfold ret. do 2 f_equal. lia.
  - unfold bind at 1.
    rewrite (update_holds now_at _ _ l (holds_tick _ w l H)).
    cbn [id]. rewrite Hid, Hfind. cbv zeta. unfold ret.
    rewrite fmap_insert_stored. cbn [tick ticks draws file].
    unfold appt_of_fields, set_updated_at.
    cbn [id title client_name client_email client_phone date start_time
           end_time status notes created_at updated_at].
    replace (2 * length l + 2 + ticks w)%nat
      with (2 + 2 * length l + ticks w)%nat by lia.
    reflexivity.
Qed.

End Controller.

(** ** Order of times of day *)

Section TimeOrder.
Import Cal.

Lemma lex_opp (c1 c2 : comparison) : CompOpp (lex c1 c2) = lex (CompOpp c1) (CompOpp c2).
Proof. destruct c1; reflexivity. Qed.

Lemma time_compare_antisym (a b : time_t) :
  time_compare b a = CompOpp (time_compare a b).
Proof.
  unfold time_compare. rewrite !lex_opp, <- !N.compare_antisym. reflexivity.
Qed.

Lemma date_compare_refl (d : date_t) : date_compare d d = Eq.
Proof. unfold date_compare. now rewrite !N.compare_refl. Qed.

Lemma datetime_compare_same_day (d : date_t) (a b : time_t) :
  datetime_compare (combine d a) (combine d b) = time_compare a b.
Proof. unfold datetime_compare, combine. simpl. now rewrite date_compare_refl. Qed.

Lemma time_lt_not_le (a b : time_t) :
  time_ltb a b = true -> time_leb b a = false.
Proof.
  unfold time_ltb, time_leb. rewrite (time_compare_antisym a b).
  destruct (time_compare a b); simpl; congruence.
Qed.

Lemma time_le_not_lt (a b : time_t) :
  time_leb b a = true -> time_ltb a b = false.
Proof.
  unfold time_ltb, time_leb. rewrite (time_compare_antisym a b).
  destruct (time_compare a b); simpl; congruence.
Qed.

Lemma sub_us_same_day (d : date_t) (a b : time_t) :
  sub_us (combine d a) (combine d b)
  = (Z.of_N (time_us a) - Z.of_N (time_us b))%Z.
Proof. unfold sub_us, combine. simpl. lia. Qed.

(** A time of day is never before its own whole minute. *)
Lemma not_before_whole_minute (t : time_t) : time_ltb t (whole_minute t) = false.
Proof.
  unfold time_ltb, time_compare, whole_minute. simpl.
  rewrite !N.compare_refl. simpl.
  destruct (second t), (microsecond t); reflexivity.
Qed.

(** Field after field is the order of the microsecond counts. *)
Lemma time_compare_us (a b : time_t) :
  wf_time a -> wf_time b -> time_compare a b = (time_us a ?= time_us b).
Proof.
  intros (Ha1 & Ha2 & Ha3 & Ha4) (Hb1 & Hb2 & Hb3 & Hb4).
  unfold time_compare, time_us.
  destruct (N.compare_spec (hour a) (hour b));
    destruct (N.compare_spec (minute a) (minute b));
    destruct (N.compare_spec (second a) (second b));
    destruct (N.compare_spec (microsecond a) (microsecond b));
    simpl; symmetry;
    first [ apply N.compare_eq_iff; lia | apply N.compare_lt_iff; lia
          | apply N.compare_gt_iff; lia ].
Qed.

End TimeOrder.

(** ** The conflict check *)

Lemma first_conflict_unfold (s e : time_t) (x : option string)
    (a : Appointment) (rest : list Appointment) :
  first_conflict s e x (a :: rest)
  = if excluded x a then first_conflict s e x rest
    else if bool_decide (status a = AppointmentStatus.CANCELLED)
    then first_conflict s e x rest
    else if Cal.time_ltb s (end_time a) && Cal.time_ltb (start_time a) e
    then Some a else first_conflict s e x rest.
Proof. reflexivity. Qed.

Lemma first_conflict_app (s e : time_t) (x : option string)
    (l1 l2 : list Appointment) :
  first_conflict s e x (l1 ++ l2)
  = match first_conflict s e x l1 with
    | Some c => Some c
    | None => first_conflict s e x l2
    end.
Proof.
  induction l1 as [|a l1 IH]; [reflexivity|].
  rewrite <- app_comm_cons, !first_conflict_unfold, IH.
  repeat match goal with |- context [if ?b then _ else _] => destruct b end;
    reflexivity.
Qed.

(** What the loop returns is a stored appointment in the way. *)
Lemma first_conflict_sound (s e : time_t) (x : option string)
    (l : list Appointment) (c : Appointment) :
  first_conflict s e x l = Some c ->
  c ∈ l /\ excluded x c = false /\ status c ≠ AppointmentStatus.CANCELLED
  /\ overlap s e (start_time c) (end_time c).
Proof.
  induction l as [|a l IH]; [discriminate|].
  rewrite first_conflict_unfold.
  destruct (excluded x a) eqn:Hx.
  { intros H. destruct (IH H) as (Hin & Hrest).
    split; [now apply list_elem_of_further | exact Hrest]. }
  case_bool_decide as Hc.
  { intros H. destruct (IH H) as (Hin & Hrest).
    split; [now apply list_elem_of_further | exact Hrest]. }
  destruct (Cal.time_ltb s (end_time a) && Cal.time_ltb (start_time a) e) eqn:Ho.
  - intros [= <-]. apply andb_true_iff in Ho as [Ho1 Ho2].
    split; [apply list_elem_of_here|]. split; [exact Hx|].
    split; [exact Hc | split; assumption].
  - intros H. destruct (IH H) as (Hin & Hrest).
    split; [now apply list_elem_of_further | exact Hrest].
Qed.

(** The loop returns a conflict whenever one is stored. *)
Lemma first_conflict_complete (s e : time_t) (x : option string)
    (l : list Appointment) (b : Appointment) :
  b ∈ l -> excluded x b = false -> status b ≠ AppointmentStatus.CANCELLED ->
  overlap s e (start_time b) (end_time b) ->
  exists c, first_conflict s e x l = Some c.
Proof.
  intros Hin Hx Hc [Ho1 Ho2]. induction l as [|a l IH].
  - now apply elem_of_nil in Hin.
  - rewrite first_conflict_unfold. apply elem_of_cons in Hin as [<-|Hin].
    + rewrite Hx, bool_decide_eq_false_2 by exact Hc.
      rewrite Ho1, Ho2. simpl. eauto.
    + destruct (IH Hin) as [c Hcf]. rewrite Hcf.
      repeat match goal with |- context [if ?b then _ else _] => destruct b end;
        eauto.
Qed.

Lemma first_conflict_none (s e : time_t) (x : option string)
    (l : list Appointment) :
  first_conflict s e x l = None <->
  Forall (fun a => excluded x a = true
                   \/ status a = AppointmentStatus.CANCELLED
                   \/ ~ overlap s e (start_time a) (end_time a)) l.
Proof.
  induction l as [|a l IH]; [split; [constructor|reflexivity]|].
  rewrite first_conflict_unfold, Forall_cons, <- IH. unfold overlap.
  destruct (excluded x a); [intuition|].
  case_bool_decide as Hc; [intuition|].
  destruct (Cal.time_ltb s (end_time a)), (Cal.time_ltb (start_time a) e); simpl;
    intuition congruence.
Qed.

(** ** Strings of the validator *)

Lemma lstrip_empty (s : string) :
  Str.lstrip s = "" <-> Str.all_whitespace s = true.
Proof.
  induction s as [|c s IH]; simpl; [tauto|].
  destruct (Str.is_whitespace c); simpl; [exact IH|].
  split; discriminate.
Qed.

Lemma lstrip_head (s : string) :
  Str.lstrip s = ""
  \/ exists c r, Str.lstrip s = String c r /\ Str.is_whitespace c = false.
Proof.
  induction s as [|c s IH]; simpl; [now left|].
  destruct (Str.is_whitespace c) eqn:Hc; [exact IH|].
  right. eauto.
Qed.

Lemma rstrip_head (c : ascii) (r : string) :
  Str.is_whitespace c = false -> Str.rstrip (String c r) ≠ "".
Proof. intros Hc. simpl. rewrite Hc. destruct (Str.rstrip r); discriminate. Qed.

(** [s.strip()] is empty exactly when [s] is made of whitespace. *)
Lemma strip_empty (s : string) :
  Str.strip s = "" <-> Str.all_whitespace s = true.
Proof.
  rewrite <- lstrip_empty. unfold Str.strip.
  destruct (lstrip_head s) as [H|(c & r & H & Hc)]; rewrite H.
  - simpl. tauto.
  - split; [|discriminate]. intros X. now apply rstrip_head in X.
Qed.

Lemma truthy_strip (s : string) : Str.strip s ≠ "" -> Str.truthy (Str.strip s) = true.
Proof. destruct (Str.strip s); [congruence | reflexivity]. Qed.

(** [after_last c s] is the part of [s] behind its last [c]. *)
Lemma after_last_split (c : ascii) (s : string) :
  Str.contains c s = true ->
  exists pre, s = pre +:+ String c (Str.after_last c s)
              /\ Str.contains c (Str.after_last c s) = false.
Proof.
  induction s as [|x s IH]; [discriminate|].
  cbn [Str.contains Str.after_last]. intros H.
  destruct (Str.contains c s) eqn:Hs.
  - destruct (IH eq_refl) as (pre & Heq & Hno).
    exists (String x pre). rewrite append_cons, <- Heq. auto.
  - destruct (Ascii.eqb_spec x c) as [->|Hne]; [|discriminate].
    exists "". auto.
Qed.

(** ** The validator *)

(** C3.  When title, client name, client email and client phone are
    non-empty after trimming, the email contains an at sign and a dot
    behind the last at sign, the status is one of the four labels, the end
    time is strictly after the start time and at least 15 minutes
    (900 000 000 microseconds) lie between them, [validate] returns the
    empty list. *)
Theorem validate_accepts
    (title client_name client_email client_phone : string)
    (appt_date : date_t) (start_time end_time : time_t) (status : string) :
  Str.strip title ≠ "" ->
  Str.strip client_name ≠ "" ->
  Str.strip client_email ≠ "" ->
  Str.strip client_phone ≠ "" ->
  Str.contains "@" client_email = true ->
  Str.contains "." (Str.after_last "@" client_email) = true ->
  status ∈ AppointmentStatus.ALL ->
  Cal.time_ltb start_time end_time = true ->
  (15 * 60 * 1000000
   <= Z.of_N (Cal.time_us end_time) - Z.of_N (Cal.time_us start_time))%Z ->
  AppointmentValidator.validate title client_name client_email client_phone
    appt_date start_time end_time status = [].
Proof.
  intros Ht Hn He Hp Hat Hdot Hst Hlt Hdur.
  unfold AppointmentValidator.validate. cbv zeta.
  rewrite !truthy_strip by assumption.
  rewrite Hat, Hdot, (bool_decide_eq_true_2 _ Hst).
  unfold Cal.datetime_leb. rewrite datetime_compare_same_day.
  fold (Cal.time_leb end_time start_time).
  rewrite (time_lt_not_le _ _ Hlt), sub_us_same_day.
  destruct (Z.ltb_spec
    (Z.of_N (Cal.time_us end_time) - Z.of_N (Cal.time_us start_time))
    (15 * 60 * 1000000)) as [Hlt'|_]; [lia|].
  reflexivity.
Qed.

Lemma validate_accepts_witness :
  AppointmentValidator.validate "Tax Consultation" "Carol White"
    "carol.white@gmail.com" "+1 555 300 4003" Sample.day (Sample.hm 9 0)
    (Sample.hm 9 15) "Scheduled" = [].
Proof.
  apply validate_accepts;
    try discriminate; try reflexivity; try (vm_compute; lia).
  apply list_elem_of_here.
Defined.

(** C4.  When the end time is not after the start time, the list that
    [validate] returns contains the time-ordering message, whatever the
    other fields are. *)
Theorem validate_ordering
    (title client_name client_email client_phone : string)
    (appt_date : date_t) (start_time end_time : time_t) (status : string) :
  Cal.time_leb end_time start_time = true ->
  "End time must be after start time."
    ∈ AppointmentValidator.validate title client_name client_email
        client_phone appt_date start_time end_time status.
Proof.
  intros Hle. unfold AppointmentValidator.validate. cbv zeta.
  unfold Cal.datetime_leb. rewrite datetime_compare_same_day.
  fold (Cal.time_leb end_time start_time). rewrite Hle.
  unfold push.
  repeat match goal with |- context [if ?b then _ else _] => destruct b end;
    set_solver.
Qed.

Lemma validate_ordering_witness :
  "End time must be after start time."
    ∈ AppointmentValidator.validate "" "Carol White" "not-an-email" ""
        Sample.day (Sample.hm 10 0) (Sample.hm 10 0) "Pending".
Proof. apply validate_ordering. reflexivity. Defined.

(** ** Serialisation *)

Lemma whole_minutes_stored (a : Appointment) :
  whole_minutes a -> stored_form a = a.
Proof.
  destruct a as [i t cn ce cp d [sh sm ss su] [eh em es eu] st n c u].
  unfold whole_minutes, stored_form, whole_minute. simpl.
  intros (-> & -> & -> & ->). reflexivity.
Qed.

(** C5, as the program has it.  An appointment whose start and end times
    are whole minutes is read back from its dictionary equal in every
    field; reading takes two readings of the clock and raises nothing. *)
Theorem from_dict_to_dict_whole_minutes (now_at : nat -> datetime_t)
    (a : Appointment) (w : world) :
  wf_appt a -> whole_minutes a ->
  from_dict now_at (to_dict a) w = (Ok a, tick 2 w).
Proof.
  intros Hwf Hm. rewrite (from_dict_to_dict now_at a w Hwf).
  now rewrite (whole_minutes_stored a Hm).
Qed.

Lemma sample_clock_wf (n : nat) : Cal.wf_datetime (Sample.clock n).
Proof.
  split; [vm_compute; intuition discriminate|].
  unfold Cal.wf_time, Sample.clock. simpl.
  repeat split; try lia. apply N.mod_lt. lia.
Qed.

Lemma wf_exam : wf_appt Sample.exam.
Proof.
  unfold wf_appt. repeat split; try apply sample_clock_wf;
    vm_compute; try reflexivity; discriminate.
Qed.

Lemma wf_review : wf_appt Sample.review.
Proof.
  unfold wf_appt. repeat split; try apply sample_clock_wf;
    vm_compute; try reflexivity; discriminate.
Qed.

Lemma wf_late : wf_appt Sample.late.
Proof.
  unfold wf_appt. repeat split; try apply sample_clock_wf;
    vm_compute; try reflexivity; discriminate.
Qed.

Lemma from_dict_to_dict_whole_minutes_witness :
  from_dict Sample.clock (to_dict Sample.exam) empty_world
  = (Ok Sample.exam, tick 2 empty_world).
Proof.
  apply from_dict_to_dict_whole_minutes.
  - exact wf_exam.
  - repeat split; reflexivity.
Defined.

(** C5, as it is worded, fails: the seconds of a time of day are not
    written, so an appointment that starts at 11:00:30 is read back
    starting at 11:00:00. *)
Lemma from_dict_to_dict_drops_seconds :
  wf_appt Sample.late
  /\ from_dict Sample.clock (to_dict Sample.late) empty_world
     = (Ok (stored_form Sample.late), tick 2 empty_world)
  /\ start_time (stored_form Sample.late) = mkTime 11 0 0 0
  /\ start_time Sample.late = mkTime 11 0 30 0
  /\ stored_form Sample.late ≠ Sample.late.
Proof.
  split; [exact wf_late|].
  split; [apply from_dict_to_dict; exact wf_late|].
  repeat split; discriminate.
Qed.

(** ** Failure paths of the controller *)

Section ReadOnly.
Variable now_at : nat -> datetime_t.

Lemma read_only_ret {A} (a : A) : read_only (ret a).
Proof. intros w. reflexivity. Qed.

Lemma read_only_raise {A} (e : exn) : read_only (@raise A e).
Proof. intros w. reflexivity. Qed.

Lemma read_only_bind {A B} (m : M A) (k : A -> M B) :
  read_only m -> (forall a, read_only (k a)) -> read_only (bind m k).
Proof.
  intros Hm Hk w. unfold bind. specialize (Hm w).
  destruct (m w) as [[a|e] w1]; simpl in *; [|exact Hm].
  now rewrite (Hk a w1).
Qed.

Lemma read_only_getitem (d : dict) (k : string) : read_only (getitem d k).
Proof. intros w. unfold getitem. destruct (d !! k); reflexivity. Qed.

Lemma read_only_parsed {A} (p : string -> option A) (s : string) :
  read_only (parsed p s).
Proof. intros w. unfold parsed. destruct (p s); reflexivity. Qed.

Lemma read_only_now : read_only (now now_at).
Proof. intros w. reflexivity. Qed.

Lemma read_only_read : read_only _read.
Proof. intros w. reflexivity. Qed.

Create HintDb ro.
Local Hint Resolve read_only_ret read_only_raise read_only_getitem
  read_only_parsed read_only_now read_only_read : ro.

Ltac ro := repeat first [ apply read_only_bind; [|intros ?] | solve [auto with ro] ].

Lemma read_only_from_dict (d : dict) : read_only (from_dict now_at d).
Proof. unfold from_dict. ro. Qed.

Lemma read_only_load (records : list dict) : read_only (load now_at records).
Proof.
  induction records as [|r rest IH]; simpl; [apply read_only_ret|].
  apply read_only_bind; [apply read_only_from_dict|intros a].
  apply read_only_bind; [exact IH|intros l]. apply read_only_ret.
Qed.

Lemma read_only_get_all : read_only (get_all now_at).
Proof.
  unfold get_all. apply read_only_bind; [apply read_only_read|].
  intros records. apply read_only_load.
Qed.

Lemma read_only_find_by_id (i : string) (records : list dict) :
  read_only (find_by_id now_at i records).
Proof.
  induction records as [|r rest IH]; simpl; [apply read_only_ret|].
  apply read_only_bind; [apply read_only_getitem|intros rid].
  destruct (bool_decide (rid = i)); [|exact IH].
  apply read_only_bind; [apply read_only_from_dict|intros a].
  apply read_only_ret.
Qed.

Lemma read_only_get_by_id (i : string) : read_only (get_by_id now_at i).
Proof.
  unfold get_by_id. apply read_only_bind; [apply read_only_read|].
  intros records. apply read_only_find_by_id.
Qed.

Lemma read_only_check_conflict (d : date_t) (s e : time_t) (x : option string) :
  read_only (_check_conflict now_at d s e x).
Proof.
  unfold _check_conflict, get_by_date.
  apply read_only_bind; [|intros; apply read_only_ret].
  apply read_only_bind; [apply read_only_get_all|intros; apply read_only_ret].
Qed.

End ReadOnly.

(** C9.  When [create_appointment] or [update_appointment] returns a
    failure (validation errors, a conflict, or an id that is not found), the
    file is what it was before the call. *)
Theorem failure_writes_nothing (now_at : nat -> datetime_t)
    (uuid_at : nat -> string) (appt_id : string) (f : fields) (w w' : world)
    (errors : list string) :
  create_with now_at uuid_at f w = (Ok (Failure errors), w')
  \/ update_with now_at appt_id f w = (Ok (Failure errors), w') ->
  file w' = file w.
Proof.
  intros [H|H]; revert H.
  - unfold create_with, create_appointment.
    case_bool_decide; [intros [= _ <-]; reflexivity|].
    unfold bind at 1.
    pose proof (read_only_check_conflict now_at (f_date f) (f_start_time f)
                  (f_end_time f) None w) as Hro.
    destruct (_check_conflict now_at (f_date f) (f_start_time f)
                (f_end_time f) None w) as [[[c|]|e] w1]; simpl in Hro.
    + intros [= _ <-]. exact Hro.
    + unfold bind, generate_id, uuid4, now, create, _read, _write, ret.
      simpl. discriminate.
    + discriminate.
  - unfold update_with, update_appointment.
    case_bool_decide; [intros [= _ <-]; reflexivity|].
    unfold bind at 1.
    pose proof (read_only_get_by_id now_at appt_id w) as Hro1.
    destruct (get_by_id now_at appt_id w) as [[[ex|]|e] w1]; simpl in Hro1.
    + unfold bind at 1.
      pose proof (read_only_check_conflict now_at (f_date f) (f_start_time f)
                    (f_end_time f) (Some appt_id) w1) as Hro2.
      destruct (_check_conflict now_at (f_date f) (f_start_time f)
                  (f_end_time f) (Some appt_id) w1) as [[[c|]|e] w2];
        simpl in Hro2.
      * intros [= _ <-]. congruence.
      * unfold bind at 1.
        match goal with |- context [update ?n ?a ?x] =>
          destruct (update n a x) as [[u|e] w3] end;
          unfold ret; discriminate.
      * discriminate.
    + intros [= _ <-]. exact Hro1.
    + discriminate.
Qed.

Lemma failure_writes_nothing_witness :
  file (tick 4 Sample.two) = file Sample.two.
Proof.
  apply (failure_writes_nothing Sample.clock Sample.uuids "A002"
           (Sample.request (Sample.hm 9 30) (Sample.hm 9 45)) Sample.two
           (tick 4 Sample.two) [conflict_message Sample.exam]).
  left. vm_compute. reflexivity.
Defined.

(** C10.  When the fields fail validation, [update_appointment] returns the
    validation errors and touches nothing, whether or not the id is that of
    a stored record: validation comes before the lookup. *)
Theorem update_validates_first (now_at : nat -> datetime_t)
    (appt_id title client_name client_email client_phone : string)
    (appt_date : date_t) (start_time end_time : time_t)
    (status notes : string) (w : world) :
  AppointmentValidator.validate title client_name client_email client_phone
    appt_date start_time end_time status ≠ [] ->
  update_appointment now_at appt_id title client_name client_email
    client_phone appt_date start_time end_time status notes w
  = (Ok (Failure (AppointmentValidator.validate title client_name
                    client_email client_phone appt_date start_time end_time
                    status)), w).
Proof.
  intros H.
  exact (update_invalid now_at appt_id
           (mkFields title client_name client_email client_phone appt_date
              start_time end_time status notes) w H).
Qed.

Lemma update_validates_first_witness :
  update_appointment Sample.clock "NOSUCHID" "" "Carol White" "not-an-email"
    "+1 555 300 4003" Sample.day (Sample.hm 9 0) (Sample.hm 10 0)
    "Scheduled" "" empty_world
  = (Ok (Failure ["Title is required."; "Please enter a valid email address."]),
     empty_world).
Proof.
  apply (update_validates_first Sample.clock "NOSUCHID" "" "Carol White"
           "not-an-email" "+1 555 300 4003" Sample.day (Sample.hm 9 0)
           (Sample.hm 10 0) "Scheduled" "" empty_world).
  vm_compute. discriminate.
Defined.

(** ** Conflicts *)

Lemma holds_two : holds Sample.two [Sample.exam; Sample.review].
Proof.
  split; [reflexivity|].
  apply Forall_cons. split; [split; [exact wf_exam | reflexivity]|].
  apply Forall_cons. split; [split; [exact wf_review | reflexivity]|].
  constructor.
Qed.

Lemma holds_empty : holds empty_world [].
Proof. split; [reflexivity | constructor]. Qed.

Lemma excluded_other (i : string) (b : Appointment) :
  id b ≠ i -> excluded (Some i) b = false.
Proof.
  intros H. unfold excluded. rewrite bool_decide_eq_false_2 by exact H.
  apply andb_false_r.
Qed.

Lemma conflict_with_found (f : fields) (x : option string)
    (l : list Appointment) (b : Appointment) :
  b ∈ l -> conflicts f b -> excluded x b = false ->
  exists c, conflict_with f x l = Some c /\ c ∈ l /\ conflicts f c
            /\ excluded x c = false.
Proof.
  intros Hin (Hd & Hc & Ho) Hx. unfold conflict_with.
  destruct (first_conflict_complete (f_start_time f) (f_end_time f) x
              (filter (fun a => date a = f_date f) l) b) as [c Hcf];
    try assumption.
  { apply list_elem_of_filter. split; assumption. }
  exists c. split; [exact Hcf|].
  apply first_conflict_sound in Hcf as (Hcin & Hcx & Hcc & Hco).
  apply list_elem_of_filter in Hcin as [Hcd Hcin].
  split; [exact Hcin|]. split; [|exact Hcx].
  unfold conflicts. auto.
Qed.

Lemma list_find_id_Some (i : string) (l : list Appointment) :
  (exists a, a ∈ l /\ id a = i) ->
  exists j a, list_find (fun a => id a = i) l = Some (j, a).
Proof.
  intros (a & Hin & Hid).
  destruct (list_find (fun a => id a = i) l) as [[j a']|] eqn:Hf; [eauto|].
  apply list_find_id_None in Hf. rewrite Forall_forall in Hf.
  now destruct (Hf a Hin).
Qed.

(** C1, as the program has it.  Let the file hold a well-formed list [l]
    of appointments, and let [b] be one of them that is on the date of the
    candidate [f], is not cancelled and whose window overlaps that of [f].
    If the fields of [f] pass validation, then creating [f] fails with one
    message, the conflict message of a stored appointment in the way, and
    so does updating with [f] a stored record other than [b]; the file is
    left as it was. *)
Theorem overlap_is_rejected (now_at : nat -> datetime_t)
    (uuid_at : nat -> string) (w : world) (l : list Appointment)
    (f : fields) (b : Appointment) :
  holds w l -> validate_fields f = [] -> b ∈ l -> conflicts f b ->
  (exists c w',
      c ∈ l /\ conflicts f c
      /\ create_with now_at uuid_at f w = (Ok (Failure [conflict_message c]), w')
      /\ file w' = file w)
  /\ (forall appt_id,
        (exists a, a ∈ l /\ id a = appt_id) -> id b ≠ appt_id ->
        exists c w',
          c ∈ l /\ conflicts f c
          /\ update_with now_at appt_id f w
             = (Ok (Failure [conflict_message c]), w')
          /\ file w' = file w).
Proof.
  intros H Hv Hin Hb. split.
  - destruct (conflict_with_found f None l b Hin Hb eq_refl)
      as (c & Hc & Hcin & Hcc & _).
    exists c, (tick (2 * length l) w).
    rewrite (create_valid now_at uuid_at f w l Hv H), Hc. auto.
  - intros appt_id Hex Hne.
    destruct (list_find_id_Some appt_id l Hex) as (j & a & Hfind).
    destruct (conflict_with_found f (Some appt_id) l b Hin Hb
                (excluded_other appt_id b Hne)) as (c & Hc & Hcin & Hcc & _).
    exists c, (tick (2 + 2 * length l) w).
    rewrite (update_valid now_at appt_id f w l Hv H), Hfind, Hc. auto.
Qed.

Lemma overlap_is_rejected_witness :
  let f := Sample.request (Sample.hm 9 30) (Sample.hm 9 45) in
  exists c w',
    c ∈ [Sample.exam; Sample.review] /\ conflicts f c
    /\ create_with Sample.clock Sample.uuids f Sample.two
       = (Ok (Failure [conflict_message c]), w')
    /\ file w' = file Sample.two.
Proof.
  refine (proj1 (overlap_is_rejected Sample.clock Sample.uuids Sample.two
                   [Sample.exam; Sample.review]
                   (Sample.request (Sample.hm 9 30) (Sample.hm 9 45))
                   Sample.exam holds_two _ _ _)).
  - vm_compute. reflexivity.
  - apply list_elem_of_here.
  - repeat split; try reflexivity. vm_compute. discriminate.
Defined.

(** C1, as it is worded, fails: validation comes before the conflict check.
    With the 09:00 to 10:00 appointment stored, a candidate from 09:30 to
    09:45 on the same day that has no title is not cancelled and overlaps
    it, and the call fails with the title message and no conflict
    message. *)
Lemma overlap_untitled_no_conflict_message :
  let f := Sample.untitled (Sample.hm 9 30) (Sample.hm 9 45) in
  holds Sample.two [Sample.exam; Sample.review]
  /\ Sample.exam ∈ [Sample.exam; Sample.review]
  /\ f_status f ≠ AppointmentStatus.CANCELLED
  /\ conflicts f Sample.exam
  /\ create_with Sample.clock Sample.uuids f Sample.two
     = (Ok (Failure ["Title is required."]), Sample.two)
  /\ update_with Sample.clock "A002" f Sample.two
     = (Ok (Failure ["Title is required."]), Sample.two)
  /\ forall c, [conflict_message c] ≠ ["Title is required."].
Proof.
  cbv zeta. split; [exact holds_two|]. split; [apply list_elem_of_here|].
  split; [discriminate|]. split.
  { repeat split; try reflexivity. vm_compute. discriminate. }
  split; [vm_compute; reflexivity|].
  split; [vm_compute; reflexivity|].
  intros c. unfold conflict_message. rewrite append_cons. intros [=].
Qed.

(** ** Back-to-back appointments *)

Lemma stored_appt_of_fields (i : string) (f : fields) (c u : datetime_t) :
  wf_fields f -> Cal.wf_datetime c -> Cal.wf_datetime u ->
  stored_appt (stored_form (appt_of_fields i f c u)).
Proof.
  intros Hf Hc Hu. apply stored_appt_stored_form.
  now apply wf_appt_of_fields.
Qed.

Lemma holds_snoc (l : list Appointment) (a : Appointment) (t d : nat) :
  Forall stored_appt l -> stored_appt a ->
  holds (mkWorld (to_dict <$> (l ++ [a])) t d) (l ++ [a]).
Proof.
  intros Hl Ha. apply holds_intro, Forall_app. split; [exact Hl|].
  apply Forall_cons. split; [exact Ha | constructor].
Qed.

(** The record of an appointment that ends where [f] starts is not in the
    way of [f]. *)
Lemma no_conflict_after (f : fields) (a : Appointment) :
  f_start_time f = end_time a ->
  first_conflict (f_start_time f) (f_end_time f) None [stored_form a] = None.
Proof.
  intros Heq. rewrite first_conflict_unfold. cbn [excluded].
  destruct (bool_decide _); [reflexivity|].
  cbn [end_time stored_form]. rewrite Heq, not_before_whole_minute.
  reflexivity.
Qed.

(** C2.  Let [f1] and [f2] be on the same date, both passing validation,
    with the end time of [f1] equal to the start time of [f2], and let no
    appointment already in the file be in the way of either.  Then creating
    [f1] succeeds and creating [f2] after it succeeds too: the touching end
    points are not a conflict. *)
Theorem back_to_back_both_created (now_at : nat -> datetime_t)
    (uuid_at : nat -> string) (w : world) (l : list Appointment)
    (f1 f2 : fields) :
  (forall n, Cal.wf_datetime (now_at n)) ->
  holds w l -> wf_fields f1 -> wf_fields f2 ->
  validate_fields f1 = [] -> validate_fields f2 = [] ->
  f_date f1 = f_date f2 -> f_end_time f1 = f_start_time f2 ->
  conflict_with f1 None l = None -> conflict_with f2 None l = None ->
  exists a1 w1 a2 w2,
    create_with now_at uuid_at f1 w = (Ok (Success (Some a1)), w1)
    /\ create_with now_at uuid_at f2 w1 = (Ok (Success (Some a2)), w2)
    /\ holds w2 (l ++ [stored_form a1; stored_form a2]).
Proof.
  intros Hclk H Hwf1 Hwf2 Hv1 Hv2 Hdate Htouch Hc1 Hc2.
  pose proof (create_valid now_at uuid_at f1 w l Hv1 H) as E1.
  rewrite Hc1 in E1. cbv zeta in E1.
  set (a1 := appt_of_fields _ f1 _ _) in E1.
  set (w1 := mkWorld _ _ _) in E1.
  assert (H1 : holds w1 (l ++ [stored_form a1])).
  { apply holds_snoc; [apply H|]. now apply stored_appt_of_fields. }
  pose proof (create_valid now_at uuid_at f2 w1 _ Hv2 H1) as E2.
  assert (Hc : conflict_with f2 None (l ++ [stored_form a1]) = None).
  { unfold conflict_with. rewrite filter_app, first_conflict_app.
    fold (conflict_with f2 None l). rewrite Hc2.
    rewrite filter_cons, filter_nil.
    destruct (decide (date (stored_form a1) = f_date f2)); [|reflexivity].
    apply no_conflict_after. symmetry. exact Htouch. }
  rewrite Hc in E2. cbv zeta in E2.
  set (a2 := appt_of_fields _ f2 _ _) in E2.
  set (w2 := mkWorld _ _ _) in E2.
  exists a1, w1, a2, w2. split; [exact E1|]. split; [exact E2|].
  replace (l ++ [stored_form a1; stored_form a2])
    with ((l ++ [stored_form a1]) ++ [stored_form a2])
    by (now rewrite <- app_assoc).
  apply holds_snoc; [apply H1|]. now apply stored_appt_of_fields.
Qed.

Lemma back_to_back_both_created_witness :
  let f1 := Sample.request (Sample.hm 10 0) (Sample.hm 11 0) in
  let f2 := Sample.request (Sample.hm 11 0) (Sample.hm 11 15) in
  exists a1 w1 a2 w2,
    create_with Sample.clock Sample.uuids f1 Sample.two
      = (Ok (Success (Some a1)), w1)
    /\ create_with Sample.clock Sample.uuids f2 w1
       = (Ok (Success (Some a2)), w2)
    /\ holds w2 ([Sample.exam; Sample.review]
                 ++ [stored_form a1; stored_form a2]).
Proof.
  refine (back_to_back_both_created Sample.clock Sample.uuids Sample.two
            [Sample.exam; Sample.review]
            (Sample.request (Sample.hm 10 0) (Sample.hm 11 0))
            (Sample.request (Sample.hm 11 0) (Sample.hm 11 15))
            sample_clock_wf holds_two _ _ _ _ _ _ _ _);
    try (vm_compute; reflexivity);
    try (unfold wf_fields, Cal.wf_date, Cal.wf_time; vm_compute;
         intuition discriminate).
Defined.

(** ** Deleting *)

Lemma Forall_filter_keep {A} (P Q : A -> Prop) `{forall x, Decision (Q x)}
    (l : list A) :
  Forall P l -> Forall P (filter Q l).
Proof.
  rewrite !Forall_forall. intros Hl x Hx.
  apply list_elem_of_filter in Hx as [_ Hx]. now apply Hl.
Qed.

Lemma find_after_filter (i : string) (l : list Appointment) :
  list_find (fun a => id a = i) (filter (fun a => id a ≠ i) l) = None.
Proof.
  apply list_find_id_None, Forall_forall. intros x Hx.
  now apply list_elem_of_filter in Hx as [Hx _].
Qed.

(** C7.  On a well-kept file, [delete_appointment] fails when no stored
    record has the id and succeeds when one has; after the success
    [get_by_id] of that id finds nothing. *)
Theorem delete_then_absent (now_at : nat -> datetime_t) (w : world)
    (l : list Appointment) (appt_id : string) :
  holds w l ->
  ((forall a, a ∈ l -> id a ≠ appt_id) ->
     delete_appointment appt_id w
     = (Ok (Failure ["Appointment not found."]), w))
  /\ ((exists a, a ∈ l /\ id a = appt_id) ->
        exists w',
          delete_appointment appt_id w = (Ok (Success None), w')
          /\ holds w' (filter (fun a => id a ≠ appt_id) l)
          /\ get_by_id now_at appt_id w' = (Ok None, w')).
Proof.
  intros H. unfold delete_appointment, bind. rewrite (delete_holds appt_id w l H).
  split.
  - intros Hno. rewrite bool_decide_eq_true_2 by (now apply Forall_forall).
    reflexivity.
  - intros (a & Hin & Hid).
    rewrite bool_decide_eq_false_2
      by (rewrite Forall_forall; intros Hall; now apply (Hall a Hin)).
    eexists. split; [reflexivity|].
    assert (H' : holds (mkWorld (to_dict <$> filter (fun a => id a ≠ appt_id) l)
                          (ticks w) (draws w))
                   (filter (fun a => id a ≠ appt_id) l)).
    { apply holds_intro. apply Forall_filter_keep. apply H. }
    split; [exact H'|].
    rewrite (get_by_id_holds now_at appt_id _ _ H'), find_after_filter.
    reflexivity.
Qed.

Lemma delete_then_absent_witness :
  exists w',
    delete_appointment "A001" Sample.two = (Ok (Success None), w')
    /\ holds w' (filter (fun a => id a ≠ "A001") [Sample.exam; Sample.review])
    /\ get_by_id Sample.clock "A001" w' = (Ok None, w').
Proof.
  apply (proj2 (delete_then_absent Sample.clock Sample.two
                  [Sample.exam; Sample.review] "A001" holds_two)).
  exists Sample.exam. split; [apply list_elem_of_here | reflexivity].
Defined.

(** ** Changing the status *)

Lemma stored_appt_restamped (a : Appointment) (s : string) (t : datetime_t) :
  stored_appt a -> Cal.wf_datetime t ->
  stored_appt (set_updated_at (set_status a s) t).
Proof.
  intros [(Hd & Hs & He & Hc & _) Hst] Ht. split.
  - unfold wf_appt. simpl. tauto.
  - change (stored_form (set_updated_at (set_status a s) t))
      with (set_updated_at (set_status (stored_form a) s) t).
    now rewrite Hst.
Qed.

Lemma list_find_insert_same (i : string) (l : list Appointment) (j : nat)
    (old new : Appointment) :
  list_find (fun a => id a = i) l = Some (j, old) -> id new = i ->
  list_find (fun a => id a = i) (<[j := new]> l) = Some (j, new).
Proof.
  intros Hf Hid. apply list_find_Some in Hf as (Hj & _ & Hbefore).
  apply list_find_Some. split; [|split; [exact Hid|]].
  - apply list_lookup_insert_eq. eapply lookup_lt_Some; eassumption.
  - intros k y Hk Hlt. rewrite list_lookup_insert_ne in Hk by lia.
    eapply Hbefore; eassumption.
Qed.

Lemma holds_insert (l : list Appointment) (j : nat) (a : Appointment)
    (t d : nat) :
  Forall stored_appt l -> stored_appt a ->
  holds (mkWorld (to_dict <$> <[j := a]> l) t d) (<[j := a]> l).
Proof. intros Hl Ha. apply holds_intro. now apply Forall_insert. Qed.

Section Status.
Variable now_at : nat -> datetime_t.

Lemma update_status_holds (appt_id new_status : string) (w : world)
    (l : list Appointment) :
  holds w l ->
  update_status now_at appt_id new_status w
  = match list_find (fun a => id a = appt_id) l with
    | None => (Ok (Failure ["Appointment not found."]), w)
    | Some (j, old) =>
        if bool_decide (new_status ∈ AppointmentStatus.ALL)
        then
          let new :=
            set_updated_at (set_status old new_status) (now_at (2 + ticks w)) in
          (Ok (Success (Some new)),
           mkWorld (to_dict <$> <[j := new]> l) (3 + ticks w) (draws w))
        else (Ok (Failure ["Invalid status: " +:+ new_status]), tick 2 w)
    end.
Proof.
  intros H. unfold update_status. unfold bind at 1.
  rewrite (get_by_id_holds now_at appt_id w l H).
  destruct (list_find (fun a => id a = appt_id) l) as [[j old]|] eqn:Hfind;
    [|reflexivity].
  destruct (list_find_id _ _ _ _ Hfind) as (Hid & _ & _).
  destruct (bool_decide (new_status ∈ AppointmentStatus.ALL)); [|reflexivity].
  cbn [negb]. unfold bind.
  rewrite (update_holds now_at _ _ l (holds_tick 2 w l H)).
  cbn [id set_status]. rewrite Hid, Hfind. reflexivity.
Qed.

End Status.



(** ** Statistics *)

Lemma insert_by_length {A} (key : A -> datetime_t) (x : A) (l : list A) :
  length (insert_by key x l) = S (length l).
Proof.
  induction l as [|y l IH]; simpl; [reflexivity|].
  destruct (Cal.datetime_leb (key x) (key y)); simpl; [reflexivity|].
  now rewrite IH.
Qed.

Lemma sorted_length {A} (key : A -> datetime_t) (l : list A) :
  length (sorted key l) = length l.
Proof.
  induction l as [|x l IH]; simpl; [reflexivity|].
  now rewrite insert_by_length, IH.
Qed.

Lemma insert_by_perm {A} (key : A -> datetime_t) (x : A) (l : list A) :
  insert_by key x l ≡ₚ x :: l.
Proof.
  induction l as [|y l IH]; simpl; [reflexivity|].
  destruct (Cal.datetime_leb (key x) (key y)); [reflexivity|].
  rewrite IH. apply Permutation_swap.
Qed.

(** [sorted] rearranges and neither drops nor repeats. *)
Lemma sorted_perm {A} (key : A -> datetime_t) (l : list A) :
  sorted key l ≡ₚ l.
Proof.
  induction l as [|x l IH]; simpl; [reflexivity|].
  now rewrite insert_by_perm, IH.
Qed.

Section Statistics.
Variable now_at : nat -> datetime_t.
Variable uuid_at : nat -> string.
Hypothesis now_wf : forall n, Cal.wf_datetime (now_at n).

Lemma get_upcoming_holds (w : world) (l : list Appointment) :
  holds w l ->
  get_upcoming now_at w
  = (Ok (sorted start_datetime
           (filter (fun a => is_upcoming_at (now_at (ticks w)) a = true) l)),
     tick (1 + 2 * length l) w).
Proof.
  intros H. unfold get_upcoming, bind, now.
  match goal with |- context [get_all now_at ?x] =>
    assert (Hx : holds x l) by (split; apply H);
    rewrite (get_all_holds now_at x l Hx) end.
  unfold ret, tick. cbn [ticks file draws]. do 2 f_equal. lia.
Qed.

Lemma get_stats_holds (w : world) (l : list Appointment) :
  holds w l ->
  exists st,
    get_stats now_at w = (Ok st, tick (2 + 4 * length l) w)
    /\ total st = length l
    /\ upcoming st
       = length (filter (fun a =>
                   is_upcoming_at (now_at (1 + 2 * length l + ticks w)) a = true)
                   l).
Proof.
  intros H. unfold get_stats. unfold bind at 1.
  rewrite (get_all_holds now_at w l H).
  unfold bind at 1, now at 1. unfold bind at 1.
  match goal with |- context [get_upcoming now_at ?x] =>
    assert (Hx : holds x l) by (split; apply H);
    rewrite (get_upcoming_holds x l Hx) end.
  unfold ret. eexists. split; [|split].
  - f_equal. unfold tick. cbn [ticks file draws]. f_equal. lia.
  - reflexivity.
  - cbn [upcoming]. rewrite sorted_length. cbn [ticks tick].
    replace (S (2 * length l + ticks w)) with (1 + 2 * length l + ticks w)%nat
      by lia.
    reflexivity.
Qed.

Lemma stamped_before_mono (t t' : nat) (l : list Appointment) :
  (t <= t')%nat -> stamped_before now_at t l -> stamped_before now_at t' l.
Proof.
  intros Hle Hl. eapply Forall_impl; [exact Hl|].
  intros a (k & Hk & Ha). exists k. split; [lia | exact Ha].
Qed.

Lemma stamped_before_one (t k : nat) (a : Appointment) :
  (k < t)%nat -> updated_at a = now_at k -> stamped_before now_at t [a].
Proof. intros Hk Ha. apply Forall_cons. split; [eauto | constructor]. Qed.

(** Every operation of the controller keeps the file well kept, and every
    [updated_at] in it a past reading of the clock if they all were. *)
Lemma perform_kept (o : op) (w : world) (l : list Appointment) :
  holds w l -> wf_op o ->
  exists l',
    holds (snd (perform now_at uuid_at o w)) l'
    /\ (stamped_before now_at (ticks w) l ->
        stamped_before now_at (ticks (snd (perform now_at uuid_at o w))) l').
Proof.
  intros H Ho. destruct o as [f|i f|i|i s]; cbn [perform wf_op] in *.
  - destruct (decide (validate_fields f = [])) as [Hv|Hv].
    + rewrite (create_valid now_at uuid_at f w l Hv H).
      destruct (conflict_with f None l).
      * exists l. split; [now apply holds_tick|]. intros Hs.
        eapply stamped_before_mono; [|exact Hs]. cbn. lia.
      * eexists. cbv zeta. cbn [snd ticks]. split.
        { apply holds_snoc; [apply H|]. now apply stored_appt_of_fields. }
        intros Hs. apply Forall_app. split.
        { eapply stamped_before_mono; [|exact Hs]. lia. }
        eapply stamped_before_one; [|reflexivity]. lia.
    + rewrite (create_invalid now_at uuid_at f w Hv). now exists l.
  - destruct (decide (validate_fields f = [])) as [Hv|Hv].
    + rewrite (update_valid now_at i f w l Hv H).
      destruct (list_find (fun a => id a = i) l) as [[j ex]|] eqn:Hfind;
        [|now exists l].
      destruct (conflict_with f (Some i) l).
      * exists l. split; [now apply holds_tick|]. intros Hs.
        eapply stamped_before_mono; [|exact Hs]. cbn. lia.
      * eexists. cbv zeta. cbn [snd ticks]. split.
        { apply holds_insert; [apply H|]. apply stored_appt_of_fields; auto.
          apply list_find_id in Hfind as (_ & _ & Hin).
          destruct H as [_ Hl]. rewrite Forall_forall in Hl.
          apply (Hl ex Hin). }
        intros Hs. apply Forall_insert.
        { eapply stamped_before_mono; [|exact Hs]. lia. }
        eexists. split; [|reflexivity]. lia.
    + rewrite (update_invalid now_at i f w Hv). now exists l.
  - unfold delete_appointment, bind. rewrite (delete_holds i w l H).
    case_bool_decide; [now exists l|].
    eexists. cbn [snd ticks]. split.
    + apply holds_intro, Forall_filter_keep, H.
    + intros Hs. apply Forall_filter_keep, Hs.
  - rewrite (update_status_holds now_at i s w l H).
    destruct (list_find (fun a => id a = i) l) as [[j old]|] eqn:Hfind;
      [|now exists l].
    case_bool_decide.
    + eexists. cbv zeta. cbn [snd ticks]. split.
      { apply holds_insert; [apply H|].
        apply stored_appt_restamped; [|apply now_wf].
        apply list_find_id in Hfind as (_ & _ & Hin).
        destruct H as [_ Hl]. rewrite Forall_forall in Hl. now apply Hl. }
      intros Hs. apply Forall_insert.
      { eapply stamped_before_mono; [|exact Hs]. lia. }
      eexists. split; [|reflexivity]. lia.
    + exists l. split; [now apply holds_tick|]. intros Hs.
      eapply stamped_before_mono; [|exact Hs]. cbn. lia.
Qed.

Lemma run_kept (ops : list op) : forall (w : world) (l : list Appointment),
  holds w l -> Forall wf_op ops ->
  exists l',
    holds (run now_at uuid_at ops w) l'
    /\ (stamped_before now_at (ticks w) l ->
        stamped_before now_at (ticks (run now_at uuid_at ops w)) l').
Proof.
  induction ops as [|o ops IH]; intros w l H Hops; [now exists l|].
  apply Forall_cons in Hops as [Ho Hops].
  destruct (perform_kept o w l H Ho) as (l1 & H1 & Hs1).
  destruct (IH _ l1 H1 Hops) as (l2 & H2 & Hs2).
  exists l2. split; [exact H2 | auto].
Qed.

(** Started on a well-kept file, the calls leave a well-kept file. *)
Lemma run_holds (ops : list op) (w : world) (l : list Appointment) :
  holds w l -> Forall wf_op ops ->
  exists l', holds (run now_at uuid_at ops w) l'.
Proof.
  intros H Hops. destruct (run_kept ops w l H Hops) as (l' & H' & _). eauto.
Qed.

(** From the empty file on, every stored [updated_at] is a past reading. *)
Lemma run_from_empty_kept (ops : list op) :
  Forall wf_op ops ->
  exists l,
    holds (run now_at uuid_at ops empty_world) l
    /\ stamped_before now_at (ticks (run now_at uuid_at ops empty_world)) l.
Proof.
  intros Hops.
  destruct (run_kept ops empty_world [] holds_empty Hops) as (l & H & Hs).
  exists l. split; [exact H|]. apply Hs. constructor.
Qed.

End Statistics.

(** C8.  After any sequence of create, update, delete and status calls,
    started on a well-kept file, [get_stats] returns a record whose [total]
    is the length of what [get_all] returns and whose [upcoming] is the
    length of what [get_upcoming] returns at the clock reading [get_stats]
    takes for it. *)
Theorem stats_count_the_store (now_at : nat -> datetime_t)
    (uuid_at : nat -> string) (w0 : world) (l0 : list Appointment)
    (ops : list op) :
  (forall n, Cal.wf_datetime (now_at n)) ->
  holds w0 l0 -> Forall wf_op ops ->
  let w := run now_at uuid_at ops w0 in
  exists st all up,
    get_all now_at w = (Ok all, tick (2 * length all) w)
    /\ get_upcoming now_at (tick (1 + 2 * length all) w)
       = (Ok up, tick (2 + 4 * length all) w)
    /\ get_stats now_at w = (Ok st, tick (2 + 4 * length all) w)
    /\ total st = length all
    /\ upcoming st = length up.
Proof.
  intros Hclk H0 Hops w.
  destruct (run_holds now_at uuid_at Hclk ops w0 l0 H0 Hops) as [l H].
  fold w in H.
  destruct (get_stats_holds now_at w l H) as (st & Hst & Htot & Hup).
  exists st, l,
    (sorted start_datetime
       (filter (fun a =>
          is_upcoming_at (now_at (1 + 2 * length l + ticks w)%nat) a = true) l)).
  split; [exact (get_all_holds now_at w l H)|].
  split.
  { rewrite (get_upcoming_holds now_at _ l (holds_tick _ w l H)).
    rewrite (tick_tick (1 + 2 * length l) (1 + 2 * length l) w).
    apply pair_equal_spec. split; [reflexivity | f_equal; lia]. }
  split; [exact Hst|]. split; [exact Htot|].
  rewrite sorted_length. exact Hup.
Qed.

Lemma stats_count_the_store_witness :
  let w := run Sample.clock Sample.uuids
             [Create (Sample.request (Sample.hm 9 0) (Sample.hm 10 0));
              SetStatus "00000000" "Completed";
              Create (Sample.request (Sample.hm 16 0) (Sample.hm 17 0));
              Delete "A002"]
             empty_world in
  exists st all up,
    get_all Sample.clock w = (Ok all, tick (2 * length all) w)
    /\ get_upcoming Sample.clock (tick (1 + 2 * length all) w)
       = (Ok up, tick (2 + 4 * length all) w)
    /\ get_stats Sample.clock w = (Ok st, tick (2 + 4 * length all) w)
    /\ total st = length all
    /\ upcoming st = length up.
Proof.
  refine (stats_count_the_store Sample.clock Sample.uuids empty_world []
            _ sample_clock_wf holds_empty _).
  repeat (apply Forall_cons; split);
    try exact I; try apply Forall_nil;
    unfold wf_op, wf_fields, Cal.wf_date, Cal.wf_time; vm_compute;
    intuition discriminate.
Defined.

(** * Further properties *)

(** ** Three-way comparisons *)

Section Orderings.
Import Cal.

Lemma ordering_N : ordering N.compare.
Proof.
  split.
  - intros x y. apply N.compare_antisym.
  - intros x y z H. apply N.compare_eq in H. now subst.
  - intros x y z. rewrite !N.compare_lt_iff. lia.
Qed.

(** A comparison of keys orders what carries the keys. *)
Lemma ordering_on {A K} (cmp : K -> K -> comparison) (f : A -> K) :
  ordering cmp -> ordering (fun x y => cmp (f x) (f y)).
Proof. intros [H1 H2 H3]. split; eauto. Qed.

(** The comparison field after field of two orderings is an ordering. *)
Lemma ordering_lex {A} (c1 c2 : A -> A -> comparison) :
  ordering c1 -> ordering c2 -> ordering (fun x y => lex (c1 x y) (c2 x y)).
Proof.
  intros [O1 E1 L1] [O2 E2 L2]. split.
  - intros x y. rewrite O1, O2. now destruct (c1 x y).
  - intros x y z. destruct (c1 x y) eqn:H1; simpl; try discriminate.
    intros H2. now rewrite (E1 x y z H1), (E2 x y z H2).
  - intros x y z.
    destruct (c1 x y) eqn:Hxy; simpl; try discriminate.
    + rewrite (E1 x y z Hxy).
      destruct (c1 y z); simpl; try discriminate; eauto.
    + intros _. destruct (c1 y z) eqn:Hyz; simpl; try discriminate.
      * intros _. assert (Hzy : c1 z y = Eq) by (now rewrite O1, Hyz).
        pose proof (E1 z y x Hzy) as E.
        rewrite (O1 x z), (O1 x y), Hxy in E. simpl in E.
        destruct (c1 x z); simpl in *; congruence.
      * intros _. now rewrite (L1 x y z Hxy Hyz).
Qed.

Lemma ordering_date : ordering date_compare.
Proof.
  unfold date_compare.
  apply (ordering_lex (fun a b => year a ?= year b)
           (fun a b => lex (month a ?= month b) (day a ?= day b))).
  - apply (ordering_on N.compare year), ordering_N.
  - apply (ordering_lex (fun a b => month a ?= month b)
             (fun a b => day a ?= day b)).
    + apply (ordering_on N.compare month), ordering_N.
    + apply (ordering_on N.compare day), ordering_N.
Qed.

Lemma ordering_time : ordering time_compare.
Proof.
  unfold time_compare.
  apply (ordering_lex (fun a b => hour a ?= hour b)
           (fun a b => lex (minute a ?= minute b)
              (lex (second a ?= second b) (microsecond a ?= microsecond b)))).
  - apply (ordering_on N.compare hour), ordering_N.
  - apply (ordering_lex (fun a b => minute a ?= minute b)
             (fun a b => lex (second a ?= second b)
                           (microsecond a ?= microsecond b))).
    + apply (ordering_on N.compare minute), ordering_N.
    + apply (ordering_lex (fun a b => second a ?= second b)
               (fun a b => microsecond a ?= microsecond b)).
      * apply (ordering_on N.compare second), ordering_N.
      * apply (ordering_on N.compare microsecond), ordering_N.
Qed.

Lemma ordering_datetime : ordering datetime_compare.
Proof.
  unfold datetime_compare.
  apply (ordering_lex (fun a b => date_compare (dt_date a) (dt_date b))
           (fun a b => time_compare (dt_time a) (dt_time b))).
  - apply (ordering_on date_compare dt_date), ordering_date.
  - apply (ordering_on time_compare dt_time), ordering_time.
Qed.

Lemma ordering_date_time : ordering date_time_compare.
Proof.
  unfold date_time_compare.
  apply (ordering_lex (fun a b => date_compare (fst a) (fst b))
           (fun a b => time_compare (snd a) (snd b))).
  - apply (ordering_on date_compare fst), ordering_date.
  - apply (ordering_on time_compare snd), ordering_time.
Qed.

Lemma ordering_ascii : ordering Ascii.compare.
Proof. apply (ordering_on N.compare N_of_ascii), ordering_N. Qed.

Lemma string_compare_cons (a b : ascii) (s t : string) :
  String.compare (String a s) (String b t)
  = lex (Ascii.compare a b) (String.compare s t).
Proof. simpl. now destruct (Ascii.compare a b). Qed.

Lemma ordering_string : ordering String.compare.
Proof.
  destruct ordering_ascii as [OA EA LA]. split.
  - intros x y. symmetry. rewrite String.compare_antisym.
    now destruct (String.compare y x).
  - intros x y z H. apply String.compare_eq_iff in H. now subst.
  - intros x. induction x as [|a x IH]; intros [|b y] [|c z];
      try discriminate; try reflexivity.
    rewrite !string_compare_cons.
    destruct (Ascii.compare a b) eqn:Hab; simpl; try discriminate.
    + rewrite (EA a b c Hab).
      destruct (Ascii.compare b c); simpl; try discriminate; eauto.
    + intros _. destruct (Ascii.compare b c) eqn:Hbc; simpl; try discriminate.
      * apply Ascii.compare_eq_iff in Hbc. subst. now rewrite Hab.
      * now rewrite (LA a b c Hab Hbc).
Qed.

Lemma is_le_total {K} (cmp : K -> K -> comparison) (x y : K) :
  ordering cmp -> is_le (cmp x y) = false -> is_le (cmp y x) = true.
Proof.
  intros [O _ _]. rewrite (O x y). now destruct (cmp x y).
Qed.

Lemma is_le_trans {K} (cmp : K -> K -> comparison) (x y z : K) :
  ordering cmp ->
  is_le (cmp x y) = true -> is_le (cmp y z) = true -> is_le (cmp x z) = true.
Proof.
  intros [O E L].
  destruct (cmp x y) eqn:Hxy; simpl; try discriminate; intros _.
  - now rewrite (E x y z Hxy).
  - destruct (cmp y z) eqn:Hyz; simpl; try discriminate; intros _.
    + assert (Hzy : cmp z y = Eq) by (now rewrite O, Hyz).
      pose proof (E z y x Hzy) as Ez.
      rewrite (O x z), (O x y), Hxy in Ez. simpl in Ez.
      destruct (cmp x z); simpl in *; congruence.
    + now rewrite (L x y z Hxy Hyz).
Qed.

End Orderings.

(** ** The stable sort *)

Section Sorting.
Context {A K : Type} (cmp : K -> K -> comparison) (key : A -> K).
Hypothesis cmp_ordering : ordering cmp.

Lemma insert_on_perm (x : A) (l : list A) : insert_on cmp key x l ≡ₚ x :: l.
Proof.
  induction l as [|y l IH]; simpl; [reflexivity|].
  destruct (Cal.is_le (cmp (key x) (key y))); [reflexivity|].
  rewrite IH. apply Permutation_swap.
Qed.

Lemma sorted_on_perm (l : list A) : sorted_on cmp key l ≡ₚ l.
Proof.
  induction l as [|x l IH]; simpl; [reflexivity|].
  now rewrite insert_on_perm, IH.
Qed.

Lemma key_le_trans (a b c : A) :
  key_le cmp key a b -> key_le cmp key b c -> key_le cmp key a c.
Proof. apply is_le_trans, cmp_ordering. Qed.

Lemma insert_on_sorted (x : A) (l : list A) :
  StronglySorted (key_le cmp key) l ->
  StronglySorted (key_le cmp key) (insert_on cmp key x l).
Proof.
  induction l as [|y l IH]; intros Hs; simpl.
  - repeat constructor.
  - apply StronglySorted_inv in Hs as [Hl Hy].
    destruct (Cal.is_le (cmp (key x) (key y))) eqn:Hxy.
    + constructor; [now constructor|].
      constructor; [exact Hxy|].
      eapply Forall_impl; [exact Hy|]. intros z Hz.
      now apply (key_le_trans x y z).
    + constructor; [now apply IH|].
      rewrite (insert_on_perm x l). constructor; [|exact Hy].
      now apply is_le_total.
Qed.

Lemma sorted_on_sorted (l : list A) :
  StronglySorted (key_le cmp key) (sorted_on cmp key l).
Proof.
  induction l as [|x l IH]; simpl; [constructor|].
  now apply insert_on_sorted.
Qed.

(** Elements whose keys compare equal keep their order. *)
Lemma insert_on_stable (k : K) (x : A) (l : list A) :
  filter (key_is cmp key k) (insert_on cmp key x l)
  = filter (key_is cmp key k) (x :: l).
Proof.
  destruct cmp_ordering as [O E L].
  induction l as [|y l IH]; simpl; [reflexivity|].
  destruct (Cal.is_le (cmp (key x) (key y))) eqn:Hxy; [reflexivity|].
  rewrite (filter_cons _ y), IH, !(filter_cons _ x), (filter_cons _ y).
  destruct (decide (key_is cmp key k x)) as [Hx|Hx]; [|reflexivity].
  destruct (decide (key_is cmp key k y)) as [Hy|Hy]; [|reflexivity].
  exfalso. unfold key_is in Hx, Hy.
  assert (Hky : cmp k (key y) = Eq) by (now rewrite O, Hy).
  rewrite (E (key x) k (key y) Hx), Hky in Hxy. discriminate.
Qed.

Lemma sorted_on_stable (k : K) (l : list A) :
  filter (key_is cmp key k) (sorted_on cmp key l)
  = filter (key_is cmp key k) l.
Proof.
  induction l as [|x l IH]; simpl; [reflexivity|].
  now rewrite insert_on_stable, !(filter_cons _ x), IH.
Qed.

End Sorting.

(** ** Listings *)

Lemma sorted_is_sorted_on {A} (key : A -> datetime_t) (l : list A) :
  sorted key l = sorted_on Cal.datetime_compare key l.
Proof.
  induction l as [|x l IH]; simpl; [reflexivity|]. rewrite IH.
  generalize (sorted_on Cal.datetime_compare key l). intros m.
  induction m as [|y m IHm]; simpl; [reflexivity|].
  unfold Cal.datetime_leb. now rewrite IHm.
Qed.

(** X1.  On a well-kept file [list_all] returns every stored appointment
    exactly once, in non-decreasing order of the key that [sort_by] names:
    the lower-cased client name, the status, the lower-cased title, or, for
    "date" and for every other string, the date and then the start time. *)
Theorem list_all_sorted (now_at : nat -> datetime_t) (sort_by : string)
    (w : world) (l : list Appointment) :
  holds w l ->
  exists r,
    list_all now_at sort_by w = (Ok r, tick (2 * length l) w)
    /\ r ≡ₚ l
    /\ StronglySorted (listed_before sort_by) r.
Proof.
  intros H. unfold list_all, bind. rewrite (get_all_holds now_at w l H).
  unfold ret, listed_before. eexists. split; [reflexivity|].
  repeat case_bool_decide.
  - split; [apply sorted_on_perm | apply sorted_on_sorted, ordering_string].
  - split; [apply sorted_on_perm | apply sorted_on_sorted, ordering_string].
  - split; [apply sorted_on_perm | apply sorted_on_sorted, ordering_string].
  - split; [apply sorted_on_perm | apply sorted_on_sorted, ordering_date_time].
Qed.

Lemma list_all_sorted_witness :
  exists r,
    list_all Sample.clock "title" Sample.two
    = (Ok r, tick (2 * length [Sample.exam; Sample.review]) Sample.two)
    /\ r ≡ₚ [Sample.exam; Sample.review]
    /\ StronglySorted (listed_before "title") r.
Proof.
  exact (list_all_sorted Sample.clock "title" Sample.two
           [Sample.exam; Sample.review] holds_two).
Defined.

(** X2.  [list_all] is stable: the stored appointments that share a sort
    key come out in the order in which they are stored. *)
Theorem list_all_stable (now_at : nat -> datetime_t) (sort_by : string)
    (w : world) (l : list Appointment) (a0 : Appointment) :
  holds w l ->
  exists r w',
    list_all now_at sort_by w = (Ok r, w')
    /\ filter (ties_with sort_by a0) r = filter (ties_with sort_by a0) l.
Proof.
  intros H. unfold list_all, bind. rewrite (get_all_holds now_at w l H).
  unfold ret. eexists _, _. split; [reflexivity|].
  destruct (decide (sort_by = "client_name")) as [E1|E1];
    [|destruct (decide (sort_by = "status")) as [E2|E2];
      [|destruct (decide (sort_by = "title")) as [E3|E3]]].
  - rewrite (bool_decide_eq_true_2 _ E1).
    rewrite !(list_filter_iff (ties_with sort_by a0)
                (key_is String.compare by_client_name (by_client_name a0)))
      by (intros x; unfold ties_with;
          now rewrite (bool_decide_eq_true_2 _ E1)).
    apply (sorted_on_stable String.compare _ ordering_string).
  - rewrite (bool_decide_eq_false_2 _ E1), (bool_decide_eq_true_2 _ E2).
    rewrite !(list_filter_iff (ties_with sort_by a0)
                (key_is String.compare status (status a0)))
      by (intros x; unfold ties_with;
          now rewrite (bool_decide_eq_false_2 _ E1),
                      (bool_decide_eq_true_2 _ E2)).
    apply (sorted_on_stable String.compare _ ordering_string).
  - rewrite (bool_decide_eq_false_2 _ E1), (bool_decide_eq_false_2 _ E2),
      (bool_decide_eq_true_2 _ E3).
    rewrite !(list_filter_iff (ties_with sort_by a0)
                (key_is String.compare by_title (by_title a0)))
      by (intros x; unfold ties_with;
          now rewrite (bool_decide_eq_false_2 _ E1),
                      (bool_decide_eq_false_2 _ E2),
                      (bool_decide_eq_true_2 _ E3)).
    apply (sorted_on_stable String.compare _ ordering_string).
  - rewrite (bool_decide_eq_false_2 _ E1), (bool_decide_eq_false_2 _ E2),
      (bool_decide_eq_false_2 _ E3).
    rewrite !(list_filter_iff (ties_with sort_by a0)
                (key_is date_time_compare by_date (by_date a0)))
      by (intros x; unfold ties_with;
          now rewrite (bool_decide_eq_false_2 _ E1),
                      (bool_decide_eq_false_2 _ E2),
                      (bool_decide_eq_false_2 _ E3)).
    apply (sorted_on_stable date_time_compare _ ordering_date_time).
Qed.

Lemma list_all_stable_witness :
  exists r w',
    list_all Sample.clock "status" Sample.two = (Ok r, w')
    /\ filter (ties_with "status" Sample.exam) r
       = filter (ties_with "status" Sample.exam) [Sample.exam; Sample.review].
Proof.
  exact (list_all_stable Sample.clock "status" Sample.two
           [Sample.exam; Sample.review] Sample.exam holds_two).
Defined.

(** X3.  On a well-kept file [get_upcoming] returns, each once, the stored
    appointments that are Scheduled and start after the reading of the clock
    it takes, in non-decreasing order of their start. *)
Theorem get_upcoming_sorted (now_at : nat -> datetime_t) (w : world)
    (l : list Appointment) :
  holds w l ->
  exists r,
    get_upcoming now_at w = (Ok r, tick (1 + 2 * length l) w)
    /\ r ≡ₚ filter (fun a => is_upcoming_at (now_at (ticks w)) a = true) l
    /\ (forall a,
          a ∈ r <->
          a ∈ l /\ status a = AppointmentStatus.SCHEDULED
          /\ Cal.datetime_ltb (now_at (ticks w)) (start_datetime a) = true)
    /\ StronglySorted (key_le Cal.datetime_compare start_datetime) r.
Proof.
  intros H. rewrite (get_upcoming_holds now_at w l H).
  eexists. split; [reflexivity|].
  rewrite sorted_is_sorted_on.
  pose proof (sorted_on_perm Cal.datetime_compare start_datetime
                (filter (fun a => is_upcoming_at (now_at (ticks w)) a = true) l))
    as Hp.
  split; [exact Hp|]. split.
  - intros a. rewrite Hp, list_elem_of_filter. unfold is_upcoming_at.
    rewrite andb_true_iff, bool_decide_eq_true. tauto.
  - apply sorted_on_sorted, ordering_datetime.
Qed.

Lemma get_upcoming_sorted_witness :
  exists r,
    get_upcoming Sample.clock Sample.two
    = (Ok r, tick (1 + 2 * length [Sample.exam; Sample.review]) Sample.two)
    /\ r ≡ₚ filter (fun a =>
                is_upcoming_at (Sample.clock (ticks Sample.two)) a = true)
              [Sample.exam; Sample.review]
    /\ (forall a,
          a ∈ r <->
          a ∈ [Sample.exam; Sample.review]
          /\ status a = AppointmentStatus.SCHEDULED
          /\ Cal.datetime_ltb (Sample.clock (ticks Sample.two))
               (start_datetime a) = true)
    /\ StronglySorted (key_le Cal.datetime_compare start_datetime) r.
Proof.
  exact (get_upcoming_sorted Sample.clock Sample.two
           [Sample.exam; Sample.review] holds_two).
Defined.

(** ** Queries by date and by status *)

Lemma date_compare_eq (a b : date_t) : Cal.date_compare a b = Eq -> a = b.
Proof.
  destruct a as [y m d], b as [y' m' d']. unfold Cal.date_compare. simpl.
  destruct (N.compare_spec y y'); simpl; try discriminate.
  destruct (N.compare_spec m m'); simpl; try discriminate.
  destruct (N.compare_spec d d'); simpl; try discriminate.
  intros _. congruence.
Qed.

Lemma date_leb_refl (d : date_t) : date_leb d d = true.
Proof. unfold date_leb. now rewrite date_compare_refl. Qed.

Lemma date_leb_antisym (a b : date_t) :
  date_leb a b = true -> date_leb b a = true -> a = b.
Proof.
  unfold date_leb. destruct ordering_date as [O _ _]. rewrite (O a b).
  destruct (Cal.date_compare a b) eqn:E; simpl; try discriminate.
  intros _ _. now apply date_compare_eq.
Qed.

Lemma filter_none {A} (P : A -> Prop) `{forall x, Decision (P x)} (l : list A) :
  (forall x, x ∈ l -> ~ P x) -> filter P l = [].
Proof.
  intros Hno. induction l as [|x l IH]; [reflexivity|].
  rewrite filter_cons. destruct (decide (P x)) as [Hx|Hx].
  - destruct (Hno x); [apply list_elem_of_here | exact Hx].
  - apply IH. intros y Hy. apply Hno. now apply list_elem_of_further.
Qed.

(** X4.  A range of one day is that day: on a well-kept file
    [get_by_date_range(d, d)] returns what [get_by_date(d)] returns. *)
Theorem date_range_of_one_day (now_at : nat -> datetime_t) (w : world)
    (l : list Appointment) (d : date_t) :
  holds w l ->
  get_by_date_range now_at d d w = get_by_date now_at d w.
Proof.
  intros H. unfold get_by_date_range, get_by_date, bind.
  rewrite (get_all_holds now_at w l H). unfold ret. do 2 f_equal.
  apply list_filter_iff. intros a. rewrite andb_true_iff. split.
  - intros [H1 H2]. now apply date_leb_antisym.
  - intros ->. split; apply date_leb_refl.
Qed.

Lemma date_range_of_one_day_witness :
  get_by_date_range Sample.clock Sample.day Sample.day Sample.two
  = get_by_date Sample.clock Sample.day Sample.two.
Proof.
  exact (date_range_of_one_day Sample.clock Sample.two
           [Sample.exam; Sample.review] Sample.day holds_two).
Defined.

(** X5.  Both ends of a range are included, and a range whose start is
    after its end is empty: on a well-kept file [get_by_date_range] returns
    the stored appointments whose date is neither before [start] nor after
    [end], and none when [end] is before [start]. *)
Theorem date_range_bounds (now_at : nat -> datetime_t) (w : world)
    (l : list Appointment) (start end' : date_t) :
  holds w l ->
  exists r,
    get_by_date_range now_at start end' w = (Ok r, tick (2 * length l) w)
    /\ (forall a, a ∈ l -> date a = start -> date_leb start end' = true -> a ∈ r)
    /\ (forall a, a ∈ l -> date a = end' -> date_leb start end' = true -> a ∈ r)
    /\ (date_leb start end' = false -> r = []).
Proof.
  intros H. unfold get_by_date_range, bind.
  rewrite (get_all_holds now_at w l H). unfold ret.
  eexists. split; [reflexivity|]. split; [|split].
  - intros a Hin <- Hle. apply list_elem_of_filter. split; [|exact Hin].
    now rewrite date_leb_refl, Hle.
  - intros a Hin <- Hle. apply list_elem_of_filter. split; [|exact Hin].
    now rewrite date_leb_refl, Hle.
  - intros Hgt. apply filter_none. intros a _ Ha.
    apply andb_true_iff in Ha as [H1 H2].
    unfold date_leb in *.
    now rewrite (is_le_trans Cal.date_compare start (date a) end'
                   ordering_date H1 H2) in Hgt.
Qed.

Lemma date_range_bounds_witness :
  exists r,
    get_by_date_range Sample.clock (mkDate 2025 6 2) Sample.day Sample.two
    = (Ok r, tick (2 * length [Sample.exam; Sample.review]) Sample.two)
    /\ (forall a, a ∈ [Sample.exam; Sample.review] ->
          date a = mkDate 2025 6 2 ->
          date_leb (mkDate 2025 6 2) Sample.day = true -> a ∈ r)
    /\ (forall a, a ∈ [Sample.exam; Sample.review] ->
          date a = Sample.day ->
          date_leb (mkDate 2025 6 2) Sample.day = true -> a ∈ r)
    /\ (date_leb (mkDate 2025 6 2) Sample.day = false -> r = []).
Proof.
  exact (date_range_bounds Sample.clock Sample.two
           [Sample.exam; Sample.review] (mkDate 2025 6 2) Sample.day holds_two).
Defined.

(** ** Statistics and the queries *)

Lemma filter_length_mono {A} (P Q : A -> Prop) `{forall x, Decision (P x)}
    `{forall x, Decision (Q x)} (l : list A) :
  (forall x, P x -> Q x) ->
  (length (filter P l) <= length (filter Q l))%nat.
Proof.
  intros HPQ. induction l as [|x l IH]; [reflexivity|].
  rewrite !filter_cons.
  destruct (decide (P x)) as [Hp|Hp], (decide (Q x)) as [Hq|Hq]; simpl;
    try lia.
  now destruct Hq; apply HPQ.
Qed.

Lemma count_statuses (l : list Appointment) :
  (count (fun a => status a = AppointmentStatus.SCHEDULED) l
   + count (fun a => status a = AppointmentStatus.COMPLETED) l
   + count (fun a => status a = AppointmentStatus.CANCELLED) l
   + count (fun a => status a = AppointmentStatus.NO_SHOW) l
   <= length l)%nat
  /\ (Forall (fun a => status a ∈ AppointmentStatus.ALL) l ->
      (count (fun a => status a = AppointmentStatus.SCHEDULED) l
       + count (fun a => status a = AppointmentStatus.COMPLETED) l
       + count (fun a => status a = AppointmentStatus.CANCELLED) l
       + count (fun a => status a = AppointmentStatus.NO_SHOW) l
       = length l)%nat).
Proof.
  unfold count, AppointmentStatus.ALL, AppointmentStatus.SCHEDULED,
    AppointmentStatus.COMPLETED, AppointmentStatus.CANCELLED,
    AppointmentStatus.NO_SHOW.
  induction l as [|a l [IH1 IH2]]; [split; auto|].
  rewrite !(filter_cons _ a).
  split.
  - repeat match goal with |- context [decide ?P] =>
      destruct (decide P) as [?E|?E] end;
      simpl; try lia; congruence.
  - intros Hall. apply Forall_cons in Hall as [Ha Hall].
    specialize (IH2 Hall).
    repeat match goal with |- context [decide ?P] =>
      destruct (decide P) as [?E|?E] end;
      simpl; try lia; try congruence.
    exfalso.
    repeat (apply elem_of_cons in Ha as [Ha|Ha]; [contradiction|]).
    now apply elem_of_nil in Ha.
Qed.

Lemma get_stats_fields (now_at : nat -> datetime_t) (w : world)
    (l : list Appointment) :
  holds w l ->
  get_stats now_at w
  = (Ok (mkStats (length l)
           (count (fun a => status a = AppointmentStatus.SCHEDULED) l)
           (count (fun a => status a = AppointmentStatus.COMPLETED) l)
           (count (fun a => status a = AppointmentStatus.CANCELLED) l)
           (count (fun a => status a = AppointmentStatus.NO_SHOW) l)
           (count (fun a => date a = dt_date (now_at (2 * length l + ticks w)%nat)) l)
           (length (filter (fun a =>
              is_upcoming_at (now_at (1 + 2 * length l + ticks w)%nat) a = true)
              l))),
     tick (2 + 4 * length l) w).
Proof.
  intros H. unfold get_stats. unfold bind at 1.
  rewrite (get_all_holds now_at w l H).
  unfold bind at 1, now at 1. unfold bind at 1.
  match goal with |- context [get_upcoming now_at ?x] =>
    assert (Hx : holds x l) by (split; apply H);
    rewrite (get_upcoming_holds now_at x l Hx) end.
  unfold ret. rewrite sorted_length. cbn [ticks tick file draws].
  apply pair_equal_spec. split.
  - replace (S (2 * length l + ticks w)) with (1 + 2 * length l + ticks w)%nat
      by lia. reflexivity.
  - unfold tick. cbn [file ticks draws]. f_equal. lia.
Qed.

(** X6.  On a well-kept file the counters of [get_stats] fit together:
    [upcoming] is at most [scheduled], [today] is at most [total], the four
    status counters add up to at most [total], and to exactly [total] when
    every stored status is one of the four labels. *)
Theorem stats_fit_together (now_at : nat -> datetime_t) (w : world)
    (l : list Appointment) :
  holds w l ->
  exists st w',
    get_stats now_at w = (Ok st, w')
    /\ (upcoming st <= scheduled st)%nat
    /\ (today st <= total st)%nat
    /\ (scheduled st + completed st + cancelled st + no_show st <= total st)%nat
    /\ (Forall (fun a => status a ∈ AppointmentStatus.ALL) l ->
        (scheduled st + completed st + cancelled st + no_show st = total st)%nat).
Proof.
  intros H. rewrite (get_stats_fields now_at w l H).
  eexists _, _. split; [reflexivity|]. cbn [upcoming scheduled total today
    completed cancelled no_show].
  split; [|split; [|exact (count_statuses l)]].
  - unfold count. apply filter_length_mono. intros a Ha.
    unfold is_upcoming_at in Ha. apply andb_true_iff in Ha as [_ Ha].
    now apply bool_decide_eq_true in Ha.
  - unfold count. apply length_filter.
Qed.

Lemma stats_fit_together_witness :
  exists st w',
    get_stats Sample.clock Sample.two = (Ok st, w')
    /\ (upcoming st <= scheduled st)%nat
    /\ (today st <= total st)%nat
    /\ (scheduled st + completed st + cancelled st + no_show st <= total st)%nat
    /\ (Forall (fun a => status a ∈ AppointmentStatus.ALL)
          [Sample.exam; Sample.review] ->
        (scheduled st + completed st + cancelled st + no_show st = total st)%nat).
Proof.
  exact (stats_fit_together Sample.clock Sample.two
           [Sample.exam; Sample.review] holds_two).
Defined.

(** ** Search *)

Lemma lower_char_whitespace (c : ascii) :
  Str.is_whitespace (Text.lower_char c) = Str.is_whitespace c.
Proof.
  destruct c as [[] [] [] [] [] [] [] []]; reflexivity.
Qed.

Lemma lower_all_whitespace (s : string) :
  Str.all_whitespace (Text.lower s) = Str.all_whitespace s.
Proof.
  induction s as [|c s IH]; simpl; [reflexivity|].
  now rewrite lower_char_whitespace, IH.
Qed.

Lemma occurs_in_empty (s : string) : Text.occurs_in "" s = true.
Proof. destruct s; reflexivity. Qed.

Lemma filter_all {A} (P : A -> Prop) `{forall x, Decision (P x)} (l : list A) :
  (forall x, P x) -> filter P l = l.
Proof.
  intros HP. induction l as [|x l IH]; [reflexivity|].
  rewrite filter_cons, IH. now destruct (decide (P x)) as [|[]].
Qed.

(** X7.  A query that is empty or made of whitespace selects everything:
    on a well-kept file [search] then returns all stored appointments, in
    the order in which they are stored. *)
Theorem search_blank_returns_all (now_at : nat -> datetime_t) (w : world)
    (l : list Appointment) (query : string) :
  holds w l -> Str.all_whitespace query = true ->
  search now_at query w = (Ok l, tick (2 * length l) w).
Proof.
  intros H Hq. unfold search, bind. rewrite (get_all_holds now_at w l H).
  unfold ret. do 2 f_equal.
  assert (Hs : Str.strip (Text.lower query) = "").
  { apply strip_empty. now rewrite lower_all_whitespace. }
  rewrite Hs. apply filter_all. intros a. unfold matches.
  now rewrite occurs_in_empty.
Qed.

Lemma search_blank_returns_all_witness :
  search Sample.clock "  " Sample.two
  = (Ok [Sample.exam; Sample.review],
     tick (2 * length [Sample.exam; Sample.review]) Sample.two).
Proof.
  apply (search_blank_returns_all Sample.clock Sample.two
           [Sample.exam; Sample.review] "  " holds_two).
  reflexivity.
Defined.

Lemma is_prefix_app (p s : string) : Text.is_prefix p (p +:+ s) = true.
Proof.
  induction p as [|c p IH]; [reflexivity|]. rewrite append_cons. simpl.
  now rewrite Ascii.eqb_refl, IH.
Qed.

Lemma occurs_in_prefix (q s : string) :
  Text.is_prefix q s = true -> Text.occurs_in q s = true.
Proof. intros H. destruct s; simpl in *; now rewrite H. Qed.

Lemma occurs_in_app (q pre post : string) :
  Text.occurs_in q (pre +:+ q +:+ post) = true.
Proof.
  induction pre as [|c pre IH].
  - rewrite append_empty_l. apply occurs_in_prefix, is_prefix_app.
  - rewrite append_cons. simpl. rewrite IH. apply orb_true_r.
Qed.

Lemma lower_app (a b : string) :
  Text.lower (a +:+ b) = Text.lower a +:+ Text.lower b.
Proof.
  induction a as [|c a IH]; [reflexivity|].
  rewrite append_cons. simpl. now rewrite IH, append_cons.
Qed.

Lemma lower_char_idem (c : ascii) :
  Text.lower_char (Text.lower_char c) = Text.lower_char c.
Proof.
  destruct c as [[] [] [] [] [] [] [] []]; reflexivity.
Qed.

Lemma lower_idem (s : string) : Text.lower (Text.lower s) = Text.lower s.
Proof.
  induction s as [|c s IH]; simpl; [reflexivity|].
  now rewrite lower_char_idem, IH.
Qed.

(** X8.  On Latin-1 text (every character of the stored fields and of the
    query has a code point below 256) [search] ignores the case of letters
    on both sides: on a well-kept file, a stored appointment whose title,
    client name, client email or notes contain a text [t] is among the
    results of a search for any spelling [query] of [t] that differs from it
    only in letter case and has no whitespace at its ends. *)
Theorem search_ignores_case (now_at : nat -> datetime_t) (w : world)
    (l : list Appointment) (a : Appointment) (query t pre post : string) :
  holds w l -> a ∈ l ->
  Text.lower query = Text.lower t ->
  Str.strip (Text.lower query) = Text.lower query ->
  title a = pre +:+ t +:+ post \/ client_name a = pre +:+ t +:+ post
  \/ client_email a = pre +:+ t +:+ post \/ notes a = pre +:+ t +:+ post ->
  exists r, search now_at query w = (Ok r, tick (2 * length l) w) /\ a ∈ r.
Proof.
  intros H Hin Hq Hs Hfield. unfold search, bind.
  rewrite (get_all_holds now_at w l H). unfold ret.
  eexists. split; [reflexivity|].
  apply list_elem_of_filter. split; [|exact Hin].
  rewrite Hs, Hq. unfold matches.
  assert (Hocc : Text.occurs_in (Text.lower t)
                   (Text.lower (pre +:+ t +:+ post)) = true).
  { rewrite !lower_app. apply occurs_in_app. }
  destruct Hfield as [E|[E|[E|E]]]; rewrite E, Hocc;
    rewrite ?orb_true_r; reflexivity.
Qed.

Lemma search_ignores_case_witness :
  exists r,
    search Sample.clock "PHYSICAL" Sample.two
    = (Ok r, tick (2 * length [Sample.exam; Sample.review]) Sample.two)
    /\ Sample.exam ∈ r.
Proof.
  apply (search_ignores_case Sample.clock Sample.two
           [Sample.exam; Sample.review] Sample.exam "PHYSICAL" "Physical"
           "Annual " " Exam" holds_two).
  - apply list_elem_of_here.
  - reflexivity.
  - reflexivity.
  - left. reflexivity.
Defined.

(** ** More on the validator *)

Lemma push_not_empty {A} (l : list A) (x : A) : push l x ≠ [].
Proof. unfold push. destruct l; discriminate. Qed.

Lemma pushed_empty {A} (b : bool) (l : list A) (x : A) :
  (if b then push l x else l) = [] -> b = false /\ l = [].
Proof.
  destruct b; [|auto]. intros H. now destruct (push_not_empty l x).
Qed.

Lemma truthy_not_empty (s : string) : Str.truthy s = true -> s ≠ "".
Proof. destruct s; [discriminate | discriminate]. Qed.

(** X9.  [validate] returns the empty list only for acceptable fields: then
    title, client name, client email and client phone are non-empty after
    trimming, the email contains an at sign and a dot behind the last at
    sign, the status is one of the four labels, the end time is after the
    start time and at least 15 minutes lie between them. *)
Theorem validate_empty_only_if_acceptable
    (title client_name client_email client_phone : string)
    (appt_date : date_t) (start_time end_time : time_t) (status : string) :
  AppointmentValidator.validate title client_name client_email client_phone
    appt_date start_time end_time status = [] ->
  Str.strip title ≠ "" /\ Str.strip client_name ≠ ""
  /\ Str.strip client_email ≠ "" /\ Str.strip client_phone ≠ ""
  /\ Str.contains "@" client_email = true
  /\ Str.contains "." (Str.after_last "@" client_email) = true
  /\ status ∈ AppointmentStatus.ALL
  /\ Cal.time_ltb start_time end_time = true
  /\ (15 * 60 * 1000000
      <= Z.of_N (Cal.time_us end_time) - Z.of_N (Cal.time_us start_time))%Z.
Proof.
  unfold AppointmentValidator.validate. cbv zeta. intros G7.
  apply pushed_empty in G7 as [H7 G6].
  apply pushed_empty in G6 as [H6 G5].
  apply pushed_empty in G5 as [H5 G4].
  apply pushed_empty in G4 as [H4 G3].
  destruct (Str.truthy (Str.strip client_email)) eqn:H3; simpl in G3;
    [|now destruct (push_not_empty _ _ G3)].
  destruct (Str.contains "@" client_email) eqn:Hat; simpl in G3;
    [|now destruct (push_not_empty _ _ G3)].
  destruct (Str.contains "." (Str.after_last "@" client_email)) eqn:Hdot;
    simpl in G3; [|now destruct (push_not_empty _ _ G3)].
  apply pushed_empty in G3 as [H2 G1].
  apply pushed_empty in G1 as [H1 _].
  apply negb_false_iff in H1, H2, H4, H5.
  apply bool_decide_eq_true in H5.
  unfold Cal.datetime_leb in H6. rewrite datetime_compare_same_day in H6.
  rewrite sub_us_same_day in H7. apply Z.ltb_ge in H7.
  repeat split; try (now apply truthy_not_empty); try assumption.
  unfold Cal.time_ltb. rewrite (time_compare_antisym end_time start_time).
  destruct (Cal.time_compare end_time start_time); simpl in *; congruence.
Qed.

Lemma validate_empty_only_if_acceptable_witness :
  Str.strip "Tax Consultation" ≠ "" /\ Str.strip "Carol White" ≠ ""
  /\ Str.strip "carol.white@gmail.com" ≠ ""
  /\ Str.strip "+1 555 300 4003" ≠ ""
  /\ Str.contains "@" "carol.white@gmail.com" = true
  /\ Str.contains "." (Str.after_last "@" "carol.white@gmail.com") = true
  /\ "Scheduled" ∈ AppointmentStatus.ALL
  /\ Cal.time_ltb (Sample.hm 9 0) (Sample.hm 9 15) = true
  /\ (15 * 60 * 1000000
      <= Z.of_N (Cal.time_us (Sample.hm 9 15))
         - Z.of_N (Cal.time_us (Sample.hm 9 0)))%Z.
Proof.
  apply (validate_empty_only_if_acceptable "Tax Consultation" "Carol White"
           "carol.white@gmail.com" "+1 555 300 4003" Sample.day
           (Sample.hm 9 0) (Sample.hm 9 15) "Scheduled").
  reflexivity.
Defined.

(** X10.  A window that does not end after its start is reported twice:
    when the end time is not after the start time, [validate] returns both
    the time-ordering message and the minimum-duration message. *)
Theorem validate_backwards_window_two_messages
    (title client_name client_email client_phone : string)
    (appt_date : date_t) (start_time end_time : time_t) (status : string) :
  Cal.wf_time start_time -> Cal.wf_time end_time ->
  Cal.time_leb end_time start_time = true ->
  let errors :=
    AppointmentValidator.validate title client_name client_email client_phone
      appt_date start_time end_time status in
  "End time must be after start time." ∈ errors
  /\ "Appointment must be at least 15 minutes long." ∈ errors.
Proof.
  intros Hs He Hle. cbv zeta.
  unfold AppointmentValidator.validate. cbv zeta.
  unfold Cal.datetime_leb. rewrite datetime_compare_same_day.
  fold (Cal.time_leb end_time start_time). rewrite Hle, sub_us_same_day.
  assert (Hus : (Cal.time_us end_time <= Cal.time_us start_time)%N).
  { unfold Cal.time_leb in Hle. rewrite (time_compare_us _ _ He Hs) in Hle.
    destruct (N.compare_spec (Cal.time_us end_time) (Cal.time_us start_time));
      simpl in Hle; [lia | lia | discriminate]. }
  destruct (Z.ltb_spec
              (Z.of_N (Cal.time_us end_time) - Z.of_N (Cal.time_us start_time))
              (15 * 60 * 1000000)); [|lia].
  unfold push. split; set_solver.
Qed.

Lemma validate_backwards_window_two_messages_witness :
  let errors :=
    AppointmentValidator.validate "Tax Consultation" "Carol White"
      "carol.white@gmail.com" "+1 555 300 4003" Sample.day (Sample.hm 10 0)
      (Sample.hm 9 0) "Scheduled" in
  "End time must be after start time." ∈ errors
  /\ "Appointment must be at least 15 minutes long." ∈ errors.
Proof.
  apply validate_backwards_window_two_messages;
    try reflexivity; unfold Cal.wf_time; vm_compute; intuition discriminate.
Defined.

(** ** What the controller does to the stored appointments *)

Section Effects.
Variable now_at : nat -> datetime_t.
Variable uuid_at : nat -> string.
Hypothesis now_wf : forall n, Cal.wf_datetime (now_at n).

Lemma perform_effect (o : op) (w : world) (l : list Appointment) :
  holds w l -> wf_op o ->
  exists l',
    holds (snd (perform now_at uuid_at o w)) l'
    /\ effect uuid_at o (draws w) l (draws (snd (perform now_at uuid_at o w))) l'.
Proof.
  intros H Ho. destruct o as [f|i f|i|i s]; cbn [perform wf_op] in *.
  - destruct (decide (validate_fields f = [])) as [Hv|Hv].
    + rewrite (create_valid now_at uuid_at f w l Hv H).
      destruct (conflict_with f None l) eqn:Hc.
      * exists l. split; [now apply holds_tick | apply eff_none].
      * eexists. cbv zeta. cbn [snd draws]. split.
        { apply holds_snoc; [apply H|]. now apply stored_appt_of_fields. }
        now apply eff_create.
    + rewrite (create_invalid now_at uuid_at f w Hv).
      exists l. split; [exact H | apply eff_none].
  - destruct (decide (validate_fields f = [])) as [Hv|Hv].
    + rewrite (update_valid now_at i f w l Hv H).
      destruct (list_find (fun a => id a = i) l) as [[j ex]|] eqn:Hfind;
        [|exists l; split; [exact H | apply eff_none]].
      destruct (conflict_with f (Some i) l) eqn:Hc.
      * exists l. split; [now apply holds_tick | apply eff_none].
      * eexists. cbv zeta. cbn [snd draws]. split.
        { apply holds_insert; [apply H|]. apply stored_appt_of_fields; auto.
          apply list_find_id in Hfind as (_ & _ & Hin).
          destruct H as [_ Hl]. rewrite Forall_forall in Hl.
          apply (Hl ex Hin). }
        now apply eff_update.
    + rewrite (update_invalid now_at i f w Hv).
      exists l. split; [exact H | apply eff_none].
  - unfold delete_appointment, bind. rewrite (delete_holds i w l H).
    case_bool_decide; [exists l; split; [exact H | apply eff_none]|].
    eexists. cbn [snd draws]. split.
    + apply holds_intro, Forall_filter_keep, H.
    + apply eff_delete.
  - rewrite (update_status_holds now_at i s w l H).
    destruct (list_find (fun a => id a = i) l) as [[j old]|] eqn:Hfind;
      [|exists l; split; [exact H | apply eff_none]].
    case_bool_decide.
    + eexists. cbv zeta. cbn [snd draws]. split.
      { apply holds_insert; [apply H|].
        apply stored_appt_restamped; [|apply now_wf].
        apply list_find_id in Hfind as (_ & _ & Hin).
        destruct H as [_ Hl]. rewrite Forall_forall in Hl. now apply Hl. }
      now apply eff_status.
    + exists l. split; [now apply holds_tick | apply eff_none].
Qed.

(** A property of the stored appointments that every allowed call keeps
    holds after every run of allowed calls. *)
Lemma run_invariant (allowed : op -> Prop)
    (I : nat -> list Appointment -> Prop) :
  (forall o d l d' l',
     allowed o -> Forall stored_appt l -> I d l ->
     effect uuid_at o d l d' l' -> I d' l') ->
  forall ops w l,
    Forall wf_op ops -> Forall allowed ops -> holds w l -> I (draws w) l ->
    exists l',
      holds (run now_at uuid_at ops w) l'
      /\ I (draws (run now_at uuid_at ops w)) l'.
Proof.
  intros Hstep ops. induction ops as [|o ops IH]; intros w l Hwf Hal H HI.
  - exists l. split; assumption.
  - apply Forall_cons in Hwf as [Ho Hwf]. apply Forall_cons in Hal as [Hao Hal].
    destruct (perform_effect o w l H Ho) as (l1 & H1 & He).
    apply (IH _ l1 Hwf Hal H1).
    exact (Hstep o _ l _ l1 Hao (proj2 H) HI He).
Qed.

End Effects.

(** ** Windows of accepted fields *)

Lemma validate_empty_window (f : fields) :
  validate_fields f = [] ->
  f_status f ∈ AppointmentStatus.ALL
  /\ Cal.time_ltb (f_start_time f) (f_end_time f) = true
  /\ (900000000
      <= Z.of_N (Cal.time_us (f_end_time f))
         - Z.of_N (Cal.time_us (f_start_time f)))%Z.
Proof.
  unfold validate_fields, AppointmentValidator.validate. cbv zeta. intros G7.
  apply pushed_empty in G7 as [H7 G6].
  apply pushed_empty in G6 as [H6 G5].
  apply pushed_empty in G5 as [H5 _].
  apply negb_false_iff, bool_decide_eq_true in H5.
  unfold Cal.datetime_leb in H6. rewrite datetime_compare_same_day in H6.
  rewrite sub_us_same_day in H7. apply Z.ltb_ge in H7.
  repeat split; try assumption; try lia.
  unfold Cal.time_ltb.
  rewrite (time_compare_antisym (f_end_time f) (f_start_time f)).
  destruct (Cal.time_compare (f_end_time f) (f_start_time f)); simpl in *;
    congruence.
Qed.

Lemma time_us_whole_minute (t : time_t) :
  Cal.time_us (whole_minute t) = ((hour t * 60 + minute t) * 60000000)%N.
Proof. unfold Cal.time_us, whole_minute. simpl. lia. Qed.

Lemma time_us_split (t : time_t) :
  Cal.wf_time t ->
  exists r, (r < 60000000)%N
            /\ Cal.time_us t = ((hour t * 60 + minute t) * 60000000 + r)%N.
Proof.
  intros (_ & _ & Hs & Hu). exists (second t * 1000000 + microsecond t)%N.
  unfold Cal.time_us. split; lia.
Qed.

Lemma duration_minutes_us (a : Appointment) :
  duration_minutes a
  = ((Z.of_N (Cal.time_us (end_time a)) - Z.of_N (Cal.time_us (start_time a)))
     / 60000000)%Z.
Proof. unfold duration_minutes. cbv zeta. now rewrite sub_us_same_day. Qed.

(** X11.  For an appointment as the repository hands it out,
    [duration_minutes] is exactly the number of minutes from the start time
    to the end time, negative when the end is before the start. *)
Theorem duration_minutes_of_stored (a : Appointment) :
  stored_appt a ->
  duration_minutes a
  = (Z.of_N (hour (end_time a) * 60 + minute (end_time a))
     - Z.of_N (hour (start_time a) * 60 + minute (start_time a)))%Z.
Proof.
  intros [_ Hst]. rewrite duration_minutes_us.
  assert (Hs : start_time a = whole_minute (start_time a))
    by (rewrite <- Hst at 1; reflexivity).
  assert (He : end_time a = whole_minute (end_time a))
    by (rewrite <- Hst at 1; reflexivity).
  rewrite Hs, He, !time_us_whole_minute.
  cbn [whole_minute hour minute].
  set (me := (hour (end_time a) * 60 + minute (end_time a))%N).
  set (ms := (hour (start_time a) * 60 + minute (start_time a))%N).
  replace (Z.of_N (me * 60000000) - Z.of_N (ms * 60000000))%Z
    with ((Z.of_N me - Z.of_N ms) * 60000000)%Z by lia.
  now rewrite Z.div_mul.
Qed.

Lemma duration_minutes_of_stored_witness :
  duration_minutes Sample.review = 90%Z.
Proof.
  rewrite (duration_minutes_of_stored Sample.review);
    [reflexivity | split; [exact wf_review | reflexivity]].
Defined.

Lemma sound_of_fields (i : string) (f : fields) (c u : datetime_t) :
  validate_fields f = [] -> wf_fields f ->
  sound_appt (stored_form (appt_of_fields i f c u)).
Proof.
  intros Hv (_ & Hs & He).
  destruct (validate_empty_window f Hv) as (Hst & _ & Hdur).
  destruct (time_us_split _ Hs) as (rs & Hrs & Es).
  destruct (time_us_split _ He) as (re & Hre & Ee).
  assert (Hmin : (hour (f_start_time f) * 60 + minute (f_start_time f) + 15
                  <= hour (f_end_time f) * 60 + minute (f_end_time f))%N)
    by lia.
  split; [exact Hst|]. split.
  - cbn [start_time end_time stored_form appt_of_fields].
    unfold Cal.time_ltb.
    rewrite (time_compare_us _ _ (wf_whole_minute _ Hs) (wf_whole_minute _ He)).
    rewrite !time_us_whole_minute.
    destruct (N.compare_spec
                ((hour (f_start_time f) * 60 + minute (f_start_time f)) * 60000000)
                ((hour (f_end_time f) * 60 + minute (f_end_time f)) * 60000000));
      [lia | reflexivity | lia].
  - rewrite duration_minutes_us.
    cbn [start_time end_time stored_form appt_of_fields].
    rewrite !time_us_whole_minute.
    apply Z.div_le_lower_bound; lia.
Qed.

Lemma sound_restamped (a : Appointment) (s : string) (u : datetime_t) :
  sound_appt a -> s ∈ AppointmentStatus.ALL ->
  sound_appt (set_updated_at (set_status a s) u).
Proof. intros (_ & Ht & Hd) Hs. split; [exact Hs|]. split; assumption. Qed.

Lemma effect_keeps_sound (uuid_at : nat -> string) (o : op) (d d' : nat)
    (l l' : list Appointment) :
  Forall sound_appt l -> effect uuid_at o d l d' l' -> Forall sound_appt l'.
Proof.
  intros Hl He. destruct He.
  - exact Hl.
  - apply Forall_app. split; [exact Hl|].
    apply Forall_cons. split; [now apply sound_of_fields | constructor].
  - apply Forall_insert; [exact Hl | now apply sound_of_fields].
  - now apply Forall_filter_keep.
  - apply Forall_insert; [exact Hl|]. apply sound_restamped; [|assumption].
    match goal with Hf : list_find _ _ = Some _ |- _ =>
      apply list_find_id in Hf as (_ & _ & Hin) end.
    rewrite Forall_forall in Hl. now apply Hl.
Qed.

Lemma run_sound (now_at : nat -> datetime_t) (uuid_at : nat -> string)
    (ops : list op) (w : world) (l : list Appointment) :
  (forall n, Cal.wf_datetime (now_at n)) ->
  Forall wf_op ops -> holds w l -> Forall sound_appt l ->
  exists l', holds (run now_at uuid_at ops w) l' /\ Forall sound_appt l'.
Proof.
  intros Hclk Hops H Hl.
  apply (run_invariant now_at uuid_at Hclk (fun _ => True)
           (fun _ l => Forall sound_appt l)) with (l := l); auto.
  - intros o d l0 d' l' _ _ Hs He. eapply effect_keeps_sound; eassumption.
  - apply Forall_forall. auto.
Qed.

(** X12.  The controller keeps the data model: after any sequence of
    create, update, delete and status calls, started on the empty file, every
    stored appointment has one of the four statuses, starts before it ends and
    has a [duration_minutes] of at least 15. *)
Theorem run_keeps_appointments_sound (now_at : nat -> datetime_t)
    (uuid_at : nat -> string) (ops : list op) :
  (forall n, Cal.wf_datetime (now_at n)) -> Forall wf_op ops ->
  exists l,
    get_all now_at (run now_at uuid_at ops empty_world)
    = (Ok l, tick (2 * length l) (run now_at uuid_at ops empty_world))
    /\ Forall sound_appt l.
Proof.
  intros Hclk Hops.
  destruct (run_sound now_at uuid_at ops empty_world [] Hclk Hops holds_empty)
    as (l & H & Hs); [constructor|].
  exists l. split; [|exact Hs]. now apply get_all_holds.
Qed.

Lemma demo_calls_wf : Forall wf_op Demo.calls.
Proof.
  repeat (apply Forall_cons; split); try exact I; try apply Forall_nil;
    unfold wf_op, wf_fields, Cal.wf_date, Cal.wf_time; vm_compute;
    intuition discriminate.
Qed.

Lemma demo_calls_with_status_wf : Forall wf_op Demo.calls_with_status.
Proof.
  apply Forall_app. split; [exact demo_calls_wf|].
  apply Forall_cons. split; [exact I | constructor].
Qed.

Lemma run_keeps_appointments_sound_witness :
  exists l,
    get_all Sample.clock
      (run Sample.clock Sample.uuids Demo.calls_with_status empty_world)
    = (Ok l,
       tick (2 * length l)
         (run Sample.clock Sample.uuids Demo.calls_with_status empty_world))
    /\ Forall sound_appt l.
Proof.
  exact (run_keeps_appointments_sound Sample.clock Sample.uuids
           Demo.calls_with_status sample_clock_wf demo_calls_with_status_wf).
Defined.

(** X13.  The counters of the dashboard add up: after any sequence of
    create, update, delete and status calls, started on the empty file, the
    [scheduled], [completed], [cancelled] and [no_show] counts of
    [get_stats] sum to its [total]. *)
Theorem stats_add_up_after_run (now_at : nat -> datetime_t)
    (uuid_at : nat -> string) (ops : list op) :
  (forall n, Cal.wf_datetime (now_at n)) -> Forall wf_op ops ->
  exists st w',
    get_stats now_at (run now_at uuid_at ops empty_world) = (Ok st, w')
    /\ (scheduled st + completed st + cancelled st + no_show st = total st)%nat.
Proof.
  intros Hclk Hops.
  destruct (run_sound now_at uuid_at ops empty_world [] Hclk Hops holds_empty)
    as (l & H & Hs); [constructor|].
  rewrite (get_stats_fields now_at _ l H).
  eexists _, _. split; [reflexivity|].
  cbn [scheduled completed cancelled no_show total].
  apply (count_statuses l).
  eapply Forall_impl; [exact Hs|]. now intros a (Ha & _).
Qed.

Lemma stats_add_up_after_run_witness :
  exists st w',
    get_stats Sample.clock
      (run Sample.clock Sample.uuids Demo.calls_with_status empty_world)
    = (Ok st, w')
    /\ (scheduled st + completed st + cancelled st + no_show st = total st)%nat.
Proof.
  exact (stats_add_up_after_run Sample.clock Sample.uuids
           Demo.calls_with_status sample_clock_wf demo_calls_with_status_wf).
Defined.

(** ** Stored appointments stay apart *)

Lemma time_ltb_us (a b : time_t) :
  Cal.wf_time a -> Cal.wf_time b ->
  (Cal.time_ltb a b = true <-> (Cal.time_us a < Cal.time_us b)%N).
Proof.
  intros Ha Hb. unfold Cal.time_ltb. rewrite (time_compare_us a b Ha Hb).
  destruct (N.compare_spec (Cal.time_us a) (Cal.time_us b)); simpl;
    split; intros; try lia; try discriminate; reflexivity.
Qed.

Lemma apart_sym (a b : Appointment) : apart a b -> apart b a.
Proof.
  unfold apart, overlap. intros H Hd Hb Ha [O1 O2].
  apply H; auto.
Qed.

(** A stored appointment that the conflict check lets pass is apart from
    the record the candidate becomes. *)
Lemma apart_of_passed (f : fields) (a : Appointment) (i : string)
    (c u : datetime_t) :
  wf_fields f -> stored_appt a ->
  (date a = f_date f ->
   status a = AppointmentStatus.CANCELLED
   \/ ~ overlap (f_start_time f) (f_end_time f) (start_time a) (end_time a)) ->
  apart a (stored_form (appt_of_fields i f c u)).
Proof.
  intros (_ & Hfs & Hfe) [(_ & Has & Hae & _) Hst] Hpass.
  unfold apart. cbn [date status start_time end_time stored_form appt_of_fields].
  intros Hd Ha _ [O1 O2].
  destruct (Hpass Hd) as [Hc|Hno]; [contradiction|]. apply Hno.
  assert (Es : start_time a = whole_minute (start_time a))
    by (rewrite <- Hst at 1; reflexivity).
  assert (Ee : end_time a = whole_minute (end_time a))
    by (rewrite <- Hst at 1; reflexivity).
  apply (time_ltb_us _ _ Has (wf_whole_minute _ Hfe)) in O1.
  apply (time_ltb_us _ _ (wf_whole_minute _ Hfs) Hae) in O2.
  rewrite time_us_whole_minute in O1, O2.
  rewrite Es in O1. rewrite Ee in O2. rewrite time_us_whole_minute in O1, O2.
  cbn [whole_minute hour minute] in O1, O2.
  destruct (time_us_split _ Hfs) as (rs & Hrs & Efs).
  destruct (time_us_split _ Hfe) as (re & Hre & Efe).
  split.
  - apply (time_ltb_us _ _ Hfs Hae). rewrite Ee, time_us_whole_minute, Efs.
    cbn [whole_minute hour minute]. lia.
  - apply (time_ltb_us _ _ Has Hfe). rewrite Es, time_us_whole_minute, Efe.
    cbn [whole_minute hour minute]. lia.
Qed.

Lemma conflict_with_none (f : fields) (x : option string)
    (l : list Appointment) (a : Appointment) :
  conflict_with f x l = None -> a ∈ l -> excluded x a = false ->
  date a = f_date f ->
  status a = AppointmentStatus.CANCELLED
  \/ ~ overlap (f_start_time f) (f_end_time f) (start_time a) (end_time a).
Proof.
  unfold conflict_with. intros Hn Hin Hx Hd.
  apply first_conflict_none in Hn. rewrite Forall_forall in Hn.
  destruct (Hn a) as [E|[E|E]]; auto; [|congruence].
  apply list_elem_of_filter. auto.
Qed.

Lemma pairwise_app {A} (R : A -> A -> Prop) (l1 l2 : list A) :
  pairwise R (l1 ++ l2)
  <-> pairwise R l1 /\ pairwise R l2
      /\ Forall (fun a => Forall (R a) l2) l1.
Proof.
  induction l1 as [|x l1 IH]; simpl.
  - split; [intros H; repeat split; auto | tauto].
  - rewrite Forall_app, IH, Forall_cons. tauto.
Qed.

Lemma pairwise_filter {A} (R : A -> A -> Prop) (P : A -> Prop)
    `{forall x, Decision (P x)} (l : list A) :
  pairwise R l -> pairwise R (filter P l).
Proof.
  induction l as [|x l IH]; [auto|]. intros [Hx Hl].
  rewrite filter_cons. destruct (decide (P x)); [|auto].
  split; [now apply Forall_filter_keep | auto].
Qed.

Lemma pairwise_insert {A} (R : A -> A -> Prop) (l : list A) (x : A) :
  (forall a b, R a b -> R b a) ->
  forall j,
    pairwise R l ->
    (forall k b, k ≠ j -> l !! k = Some b -> R b x) ->
    pairwise R (<[j := x]> l).
Proof.
  intros Hsym. induction l as [|y l IH]; intros j Hp Hx; [exact I|].
  destruct Hp as [Hy Hl]. destruct j as [|j]; simpl.
  - split; [|exact Hl]. apply Forall_forall. intros b Hb.
    apply list_elem_of_lookup in Hb as [k Hk].
    apply Hsym. apply (Hx (S k) b); [lia | exact Hk].
  - split.
    + apply Forall_insert; [exact Hy|]. apply (Hx 0%nat y); [lia | reflexivity].
    + apply IH; [exact Hl|]. intros k b Hk Hb. apply (Hx (S k) b); [lia|exact Hb].
Qed.

Lemma pairwise_lookup {A} (R : A -> A -> Prop) (l : list A) :
  (forall a b, R a b -> R b a) -> pairwise R l ->
  forall j k a b, j ≠ k -> l !! j = Some a -> l !! k = Some b -> R a b.
Proof.
  intros Hsym. induction l as [|x l IH]; intros Hp j k a b Hjk Ha Hb;
    [discriminate|].
  destruct Hp as [Hx Hl]. rewrite Forall_forall in Hx.
  destruct j as [|j], k as [|k]; simpl in *; try lia.
  - injection Ha as <-. apply Hx. eapply list_elem_of_lookup_2; eassumption.
  - injection Hb as <-. apply Hsym, Hx.
    eapply list_elem_of_lookup_2; eassumption.
  - apply (IH Hl j k); auto.
Qed.

Lemma NoDup_fmap_filter {A B} (f : A -> B) (P : A -> Prop)
    `{forall x, Decision (P x)} (l : list A) :
  NoDup (f <$> l) -> NoDup (f <$> filter P l).
Proof.
  induction l as [|x l IH]; [auto|]. rewrite fmap_cons, NoDup_cons.
  intros [Hx Hl]. rewrite filter_cons. destruct (decide (P x)); [|auto].
  rewrite fmap_cons. apply NoDup_cons. split; [|auto].
  intros Hin. apply Hx. apply list_elem_of_fmap in Hin as (y & -> & Hy).
  apply list_elem_of_fmap. exists y. split; [reflexivity|].
  now apply list_elem_of_filter in Hy as [_ Hy].
Qed.

Lemma NoDup_ids_index (l : list Appointment) (j k : nat) (a b : Appointment) :
  NoDup (id <$> l) -> l !! j = Some a -> l !! k = Some b -> id a = id b ->
  j = k.
Proof.
  intros Hnd Ha Hb Hid.
  apply (NoDup_lookup (id <$> l) j k (id a)); [exact Hnd | |].
  - now rewrite list_lookup_fmap, Ha.
  - now rewrite list_lookup_fmap, Hb, Hid.
Qed.

Lemma effect_keeps_tidy (uuid_at : nat -> string) (o : op) (d d' : nat)
    (l l' : list Appointment) :
  keeps_status_checked o -> Forall stored_appt l ->
  (fresh_ids uuid_at d -> tidy uuid_at d l) ->
  effect uuid_at o d l d' l' ->
  fresh_ids uuid_at d' -> tidy uuid_at d' l'.
Proof.
  intros Hal Hst HI He. rewrite Forall_forall in Hst.
  destruct He as [o d l|f c u d l Hv Hwf Hc Hu Hcf
                  |i f j old u d l Hfind Hv Hwf Hu Hcf|i d l
                  |i s j old u d l Hfind Hs Hu].
  - exact HI.
  - intros Hfresh.
    assert (Hfd : fresh_ids uuid_at d)
      by (intros m n Hm Hn; apply Hfresh; lia).
    destruct (HI Hfd) as (Hp & Hnd & Hids).
    split; [|split].
    + apply pairwise_app. split; [exact Hp|]. split; [split; [constructor|exact I]|].
      apply Forall_forall. intros a Ha. apply Forall_cons. split; [|constructor].
      apply apart_of_passed; [exact Hwf | now apply Hst|].
      intros Hd. now apply (conflict_with_none f None l a).
    + rewrite fmap_app. apply NoDup_app. split; [exact Hnd|]. split.
      * intros x Hx Hx'. apply list_elem_of_fmap in Hx as (a & -> & Ha).
        rewrite Forall_forall in Hids. destruct (Hids a Ha) as (k & Hk & Ek).
        apply list_elem_of_singleton in Hx'. cbn [id stored_form appt_of_fields] in Hx'.
        rewrite Ek in Hx'. apply Hfresh in Hx'; lia.
      * apply NoDup_singleton.
    + apply Forall_app. split.
      * eapply Forall_impl; [exact Hids|]. intros a (k & Hk & Ek).
        exists k. split; [lia | exact Ek].
      * apply Forall_cons. split; [|constructor].
        exists d. split; [lia | reflexivity].
  - intros Hfresh. destruct (HI Hfresh) as (Hp & Hnd & Hids).
    destruct (list_find_id _ _ _ _ Hfind) as (Hid & Hj & Hin).
    split; [|split].
    + apply pairwise_insert; [exact apart_sym | exact Hp|].
      intros k b Hk Hb.
      assert (Hbin : b ∈ l) by (eapply list_elem_of_lookup_2; eassumption).
      apply apart_of_passed; [exact Hwf | now apply Hst|].
      intros Hd. apply (conflict_with_none f (Some i) l b); auto.
      apply excluded_other. intros Hbi. apply Hk.
      apply (NoDup_ids_index l k j b old Hnd Hb Hj). congruence.
    + rewrite list_fmap_insert. cbn [id stored_form appt_of_fields].
      rewrite <- Hid. rewrite list_insert_id; [exact Hnd|].
      now rewrite list_lookup_fmap, Hj.
    + apply Forall_insert; [exact Hids|].
      rewrite Forall_forall in Hids. destruct (Hids old Hin) as (k & Hk & Ek).
      exists k. split; [exact Hk|].
      cbn [id stored_form appt_of_fields]. congruence.
  - intros Hfresh. destruct (HI Hfresh) as (Hp & Hnd & Hids).
    split; [|split].
    + now apply pairwise_filter.
    + now apply NoDup_fmap_filter.
    + now apply Forall_filter_keep.
  - destruct Hal.
Qed.

(** X14.  As long as no status is set through [update_status], stored
    appointments never claim the same time: after any sequence of create,
    update and delete calls, started on the empty file, with all generated
    ids different, any two stored appointments on the same date that are
    both not cancelled have windows that do not overlap. *)
Theorem no_overlap_without_status_calls (now_at : nat -> datetime_t)
    (uuid_at : nat -> string) (ops : list op) :
  (forall n, Cal.wf_datetime (now_at n)) ->
  Forall wf_op ops -> Forall keeps_status_checked ops ->
  fresh_ids uuid_at (draws (run now_at uuid_at ops empty_world)) ->
  exists l,
    get_all now_at (run now_at uuid_at ops empty_world)
    = (Ok l, tick (2 * length l) (run now_at uuid_at ops empty_world))
    /\ forall j k a b,
         j ≠ k -> l !! j = Some a -> l !! k = Some b ->
         date a = date b ->
         status a ≠ AppointmentStatus.CANCELLED ->
         status b ≠ AppointmentStatus.CANCELLED ->
         ~ overlap (start_time a) (end_time a) (start_time b) (end_time b).
Proof.
  intros Hclk Hops Hal Hfresh.
  destruct (run_invariant now_at uuid_at Hclk keeps_status_checked
              (fun d l => fresh_ids uuid_at d -> tidy uuid_at d l)
              (fun o d l d' l' => effect_keeps_tidy uuid_at o d d' l l')
              ops empty_world [] Hops Hal
              holds_empty) as (l & H & HI).
  { intros _. split; [exact I|]. split; constructor. }
  exists l. split; [now apply get_all_holds|].
  destruct (HI Hfresh) as (Hp & _ & _).
  intros j k a b Hjk Ha Hb.
  exact (pairwise_lookup apart l apart_sym Hp j k a b Hjk Ha Hb).
Qed.

Lemma no_overlap_without_status_calls_witness :
  exists l,
    get_all Sample.clock (run Sample.clock Sample.uuids Demo.calls empty_world)
    = (Ok l,
       tick (2 * length l)
         (run Sample.clock Sample.uuids Demo.calls empty_world))
    /\ forall j k a b,
         j ≠ k -> l !! j = Some a -> l !! k = Some b ->
         date a = date b ->
         status a ≠ AppointmentStatus.CANCELLED ->
         status b ≠ AppointmentStatus.CANCELLED ->
         ~ overlap (start_time a) (end_time a) (start_time b) (end_time b).
Proof.
  apply (no_overlap_without_status_calls Sample.clock Sample.uuids Demo.calls
           sample_clock_wf demo_calls_wf).
  - unfold Demo.calls.
    repeat (apply Forall_cons; split; [exact I|]). constructor.
  - intros m n Hm Hn. vm_compute in Hm, Hn.
    destruct m as [|[|m]], n as [|[|n]]; try lia; try reflexivity;
      vm_compute; discriminate.
Defined.

(** ** When the write operations succeed *)

Lemma conflict_with_none_iff (f : fields) (l : list Appointment) :
  conflict_with f None l = None <-> (forall b, b ∈ l -> ~ conflicts f b).
Proof.
  split.
  - intros Hn b Hin Hb.
    destruct (conflict_with_found f None l b Hin Hb eq_refl) as (c & Hc & _).
    congruence.
  - intros Hno. destruct (conflict_with f None l) as [c|] eqn:Hc; [|reflexivity].
    unfold conflict_with in Hc.
    apply first_conflict_sound in Hc as (Hin & _ & Hst & Ho).
    apply list_elem_of_filter in Hin as [Hd Hin].
    destruct (Hno c Hin). split; [exact Hd | split; [exact Hst | exact Ho]].
Qed.

Lemma excluded_iff (i : string) (b : Appointment) :
  i ≠ "" -> (excluded (Some i) b = false <-> id b ≠ i).
Proof.
  intros Hi. unfold excluded. destruct i as [|c i]; [congruence|]. simpl.
  rewrite bool_decide_eq_false. tauto.
Qed.

Lemma conflict_with_other_none_iff (f : fields) (i : string)
    (l : list Appointment) :
  i ≠ "" ->
  conflict_with f (Some i) l = None
  <-> (forall b, b ∈ l -> id b ≠ i -> ~ conflicts f b).
Proof.
  intros Hi. split.
  - intros Hn b Hin Hne Hb.
    destruct (conflict_with_found f (Some i) l b Hin Hb
                (excluded_other i b Hne)) as (c & Hc & _).
    congruence.
  - intros Hno.
    destruct (conflict_with f (Some i) l) as [c|] eqn:Hc; [|reflexivity].
    unfold conflict_with in Hc.
    apply first_conflict_sound in Hc as (Hin & Hx & Hst & Ho).
    apply list_elem_of_filter in Hin as [Hd Hin].
    apply (excluded_iff i c Hi) in Hx.
    destruct (Hno c Hin Hx). split; [exact Hd | split; [exact Hst | exact Ho]].
Qed.

(** X15.  On a well-kept file [create_appointment] succeeds exactly when the
    fields pass validation and no stored appointment on that date, other
    than cancelled ones, overlaps the window; cancelled appointments and
    other dates never stand in the way. *)
Theorem create_succeeds_iff (now_at : nat -> datetime_t)
    (uuid_at : nat -> string) (w : world) (l : list Appointment) (f : fields) :
  holds w l ->
  ((exists a w', create_with now_at uuid_at f w = (Ok (Success a), w'))
   <-> validate_fields f = [] /\ forall b, b ∈ l -> ~ conflicts f b).
Proof.
  intros H. destruct (decide (validate_fields f = [])) as [Hv|Hv].
  - rewrite (create_valid now_at uuid_at f w l Hv H).
    rewrite <- conflict_with_none_iff.
    destruct (conflict_with f None l) as [c|]; split.
    + intros (a & w' & [=]).
    + intros [_ [=]].
    + auto.
    + intros _. cbv zeta. eauto.
  - rewrite (create_invalid now_at uuid_at f w Hv). split.
    + intros (a & w' & [=]).
    + intros [Hv' _]. contradiction.
Qed.

Lemma create_succeeds_iff_witness :
  (exists a w',
      create_with Sample.clock Sample.uuids
        (Sample.request (Sample.hm 10 0) (Sample.hm 11 0)) Sample.two
      = (Ok (Success a), w'))
  <-> validate_fields (Sample.request (Sample.hm 10 0) (Sample.hm 11 0)) = []
      /\ forall b, b ∈ [Sample.exam; Sample.review] ->
           ~ conflicts (Sample.request (Sample.hm 10 0) (Sample.hm 11 0)) b.
Proof.
  exact (create_succeeds_iff Sample.clock Sample.uuids Sample.two
           [Sample.exam; Sample.review]
           (Sample.request (Sample.hm 10 0) (Sample.hm 11 0)) holds_two).
Defined.

(** X16.  On a well-kept file [update_appointment] of a non-empty id
    succeeds exactly when the fields pass validation, a stored record has
    the id, and no stored appointment with another id on that date, other
    than cancelled ones, overlaps the window: the record that is being
    updated never stands in its own way. *)
Theorem update_succeeds_iff (now_at : nat -> datetime_t) (w : world)
    (l : list Appointment) (appt_id : string) (f : fields) :
  holds w l -> appt_id ≠ "" ->
  ((exists a w', update_with now_at appt_id f w = (Ok (Success a), w'))
   <-> validate_fields f = []
       /\ (exists a, a ∈ l /\ id a = appt_id)
       /\ forall b, b ∈ l -> id b ≠ appt_id -> ~ conflicts f b).
Proof.
  intros H Hi. destruct (decide (validate_fields f = [])) as [Hv|Hv].
  - rewrite (update_valid now_at appt_id f w l Hv H).
    rewrite <- (conflict_with_other_none_iff f appt_id l Hi).
    destruct (list_find (fun a => id a = appt_id) l) as [[j old]|] eqn:Hfind.
    + destruct (list_find_id _ _ _ _ Hfind) as (Hid & _ & Hin).
      destruct (conflict_with f (Some appt_id) l) as [c|]; split.
      * intros (a & w' & [=]).
      * intros (_ & _ & [=]).
      * intros _. eauto.
      * intros _. cbv zeta. eauto.
    + apply list_find_id_None in Hfind. rewrite Forall_forall in Hfind. split.
      * intros (a & w' & [=]).
      * intros (_ & (a & Hin & Hid) & _). now destruct (Hfind a Hin).
  - rewrite (update_invalid now_at appt_id f w Hv). split.
    + intros (a & w' & [=]).
    + intros [Hv' _]. contradiction.
Qed.

Lemma update_succeeds_iff_witness :
  (exists a w',
      update_with Sample.clock "A001"
        (Sample.request (Sample.hm 9 30) (Sample.hm 10 30)) Sample.two
      = (Ok (Success a), w'))
  <-> validate_fields (Sample.request (Sample.hm 9 30) (Sample.hm 10 30)) = []
      /\ (exists a, a ∈ [Sample.exam; Sample.review] /\ id a = "A001")
      /\ forall b, b ∈ [Sample.exam; Sample.review] -> id b ≠ "A001" ->
           ~ conflicts (Sample.request (Sample.hm 9 30) (Sample.hm 10 30)) b.
Proof.
  apply (update_succeeds_iff Sample.clock Sample.two
           [Sample.exam; Sample.review] "A001"
           (Sample.request (Sample.hm 9 30) (Sample.hm 10 30)) holds_two).
  discriminate.
Defined.

(** ** Writing and reading back *)

Lemma list_find_snoc (i : string) (l : list Appointment) (a : Appointment) :
  id a = i ->
  snd <$> list_find (fun x => id x = i) (l ++ [a])
  = Some (match list_find (fun x => id x = i) l with
          | Some (_, old) => old
          | None => a
          end).
Proof.
  intros Hid. induction l as [|x l IH]; simpl.
  - now rewrite decide_True.
  - destruct (decide (id x = i)); [reflexivity|].
    destruct (list_find (fun x => id x = i) (l ++ [a])) as [[k y]|];
      destruct (list_find (fun x => id x = i) l) as [[k' y']|];
      simpl in *; congruence.
Qed.

(** X17.  What is created can be looked up, unless its id was taken: after
    a successful [create_appointment] on a well-kept file, [get_by_id] of the
    new id returns the new appointment with its times cut to the minute when
    no older record has that id, and the oldest record with that id
    otherwise. *)
Theorem create_then_get_by_id (now_at : nat -> datetime_t)
    (uuid_at : nat -> string) (w w' : world) (l : list Appointment)
    (f : fields) (a : Appointment) :
  (forall n, Cal.wf_datetime (now_at n)) -> holds w l -> wf_fields f ->
  create_with now_at uuid_at f w = (Ok (Success (Some a)), w') ->
  holds w' (l ++ [stored_form a])
  /\ get_by_id now_at (id a) w'
     = (Ok (Some (match list_find (fun x => id x = id a) l with
                  | Some (_, old) => old
                  | None => stored_form a
                  end)), tick 2 w').
Proof.
  intros Hclk H Hwf Hc.
  destruct (decide (validate_fields f = [])) as [Hv|Hv];
    [|rewrite (create_invalid now_at uuid_at f w Hv) in Hc; discriminate].
  rewrite (create_valid now_at uuid_at f w l Hv H) in Hc.
  destruct (conflict_with f None l); [discriminate|].
  cbv zeta in Hc. injection Hc as Ha Hw. subst a w'.
  match goal with |- holds ?x ?y /\ _ => assert (H' : holds x y) end.
  { apply holds_snoc; [apply H|]. now apply stored_appt_of_fields. }
  split; [exact H'|].
  rewrite (get_by_id_holds now_at _ _ _ H').
  pose proof (list_find_snoc
                (id (appt_of_fields (Str.upper (Str.take 8 (uuid_at (draws w))))
                       f (now_at (2 * length l + ticks w)%nat)
                       (now_at (S (2 * length l + ticks w)))))
                l (stored_form (appt_of_fields
                       (Str.upper (Str.take 8 (uuid_at (draws w))))
                       f (now_at (2 * length l + ticks w)%nat)
                       (now_at (S (2 * length l + ticks w))))) eq_refl) as Hf.
  destruct (list_find _ (l ++ _)) as [[k y]|]; simpl in Hf; [|discriminate].
  injection Hf as ->. reflexivity.
Qed.

Lemma create_then_get_by_id_witness :
  let f := Sample.request (Sample.hm 10 0) (Sample.hm 11 0) in
  let r := create_with Sample.clock Sample.uuids f Sample.two in
  exists a,
    fst r = Ok (Success (Some a))
    /\ get_by_id Sample.clock (id a) (snd r)
       = (Ok (Some (stored_form a)), tick 2 (snd r)).
Proof.
  cbv zeta. eexists. split; [vm_compute; reflexivity|].
  refine (proj2 (create_then_get_by_id Sample.clock Sample.uuids Sample.two _
                   [Sample.exam; Sample.review]
                   (Sample.request (Sample.hm 10 0) (Sample.hm 11 0)) _
                   sample_clock_wf holds_two _ _)).
  - unfold wf_fields, Cal.wf_date, Cal.wf_time; vm_compute;
      intuition discriminate.
  - vm_compute. reflexivity.
Defined.

Lemma filter_all_in {A} (P : A -> Prop) `{forall x, Decision (P x)}
    (l : list A) :
  Forall P l -> filter P l = l.
Proof.
  induction l as [|x l IH]; [reflexivity|]. intros Hl.
  apply Forall_cons in Hl as [Hx Hl].
  rewrite filter_cons, decide_True by exact Hx. now rewrite IH.
Qed.

Lemma filter_snoc_fresh (i : string) (l : list Appointment) (a : Appointment) :
  id a = i -> Forall (fun x => id x ≠ i) l ->
  filter (fun x => id x ≠ i) (l ++ [a]) = l.
Proof.
  intros Hid Hl. rewrite filter_app, filter_cons, filter_nil.
  rewrite decide_False by (intros Hne; now apply Hne).
  rewrite app_nil_r. apply filter_all_in. exact Hl.
Qed.

(** X18.  Deleting what was just created restores the file: after a
    successful [create_appointment] on a well-kept file in which no record
    has the new id, [delete_appointment] of that id succeeds and leaves the
    file as it was before the creation. *)
Theorem create_then_delete_restores (now_at : nat -> datetime_t)
    (uuid_at : nat -> string) (w w' : world) (l : list Appointment)
    (f : fields) (a : Appointment) :
  (forall n, Cal.wf_datetime (now_at n)) -> holds w l -> wf_fields f ->
  create_with now_at uuid_at f w = (Ok (Success (Some a)), w') ->
  Forall (fun x => id x ≠ id a) l ->
  exists w'',
    delete_appointment (id a) w' = (Ok (Success None), w'')
    /\ file w'' = file w.
Proof.
  intros Hclk H Hwf Hc Hfresh.
  destruct (decide (validate_fields f = [])) as [Hv|Hv];
    [|rewrite (create_invalid now_at uuid_at f w Hv) in Hc; discriminate].
  rewrite (create_valid now_at uuid_at f w l Hv H) in Hc.
  destruct (conflict_with f None l); [discriminate|].
  cbv zeta in Hc.
  set (appt := appt_of_fields _ f _ _) in Hc.
  assert (Hsa : stored_appt (stored_form appt))
    by (now apply stored_appt_of_fields).
  assert (Ha : appt = a) by congruence. clearbody appt. subst appt.
  set (w1 := mkWorld _ _ _) in Hc.
  assert (H' : holds w1 (l ++ [stored_form a]))
    by (apply holds_snoc; [apply H | exact Hsa]).
  assert (Hw : w1 = w') by congruence. rewrite <- Hw.
  unfold delete_appointment, bind. rewrite (delete_holds _ _ _ H').
  rewrite bool_decide_eq_false_2.
  - eexists. split; [reflexivity|]. cbn [file].
    rewrite (filter_snoc_fresh (id a) l (stored_form a) eq_refl Hfresh).
    symmetry. apply H.
  - rewrite Forall_app, Forall_cons. intros (_ & Hne & _). now apply Hne.
Qed.

Lemma create_then_delete_restores_witness :
  let f := Sample.request (Sample.hm 10 0) (Sample.hm 11 0) in
  let r := create_with Sample.clock Sample.uuids f Sample.two in
  exists w'',
    delete_appointment "00000002" (snd r) = (Ok (Success None), w'')
    /\ file w'' = file Sample.two.
Proof.
  cbv zeta.
  refine (create_then_delete_restores Sample.clock Sample.uuids Sample.two _
            [Sample.exam; Sample.review]
            (Sample.request (Sample.hm 10 0) (Sample.hm 11 0))
            (appt_of_fields "00000002"
               (Sample.request (Sample.hm 10 0) (Sample.hm 11 0))
               (Sample.clock 8) (Sample.clock 9))
            sample_clock_wf holds_two _ _ _).
  - unfold wf_fields, Cal.wf_date, Cal.wf_time; vm_compute;
      intuition discriminate.
  - vm_compute. reflexivity.
  - repeat (apply Forall_cons; split; [discriminate|]). constructor.
Defined.

(** X19.  A successful [update_appointment] on a well-kept file replaces
    the fields of the first record with that id and nothing else: the record
    keeps its id and [created_at], takes title, client data, date, times,
    status and notes from the arguments and the reading of the clock at the
    write as [updated_at]; all other records stay as they were, and
    [get_by_id] then returns the record with its times cut to the minute. *)
Theorem update_replaces_fields (now_at : nat -> datetime_t) (w w' : world)
    (l : list Appointment) (appt_id : string) (f : fields)
    (r : option Appointment) :
  (forall n, Cal.wf_datetime (now_at n)) -> holds w l -> wf_fields f ->
  update_with now_at appt_id f w = (Ok (Success r), w') ->
  exists j old,
    list_find (fun a => id a = appt_id) l = Some (j, old)
    /\ r = Some (appt_of_fields appt_id f (created_at old)
                   (now_at (2 + 2 * length l + ticks w)%nat))
    /\ holds w'
         (<[j := stored_form
                   (appt_of_fields appt_id f (created_at old)
                      (now_at (2 + 2 * length l + ticks w)%nat))]> l)
    /\ get_by_id now_at appt_id w'
       = (Ok (Some (stored_form
                      (appt_of_fields appt_id f (created_at old)
                         (now_at (2 + 2 * length l + ticks w)%nat)))),
          tick 2 w').
Proof.
  intros Hclk H Hwf Hu.
  destruct (decide (validate_fields f = [])) as [Hv|Hv];
    [|rewrite (update_invalid now_at appt_id f w Hv) in Hu; discriminate].
  rewrite (update_valid now_at appt_id f w l Hv H) in Hu.
  destruct (list_find (fun a => id a = appt_id) l) as [[j old]|] eqn:Hfind;
    [|discriminate].
  destruct (conflict_with f (Some appt_id) l); [discriminate|].
  cbv zeta in Hu.
  set (new := appt_of_fields appt_id f (created_at old)
                (now_at (2 + 2 * length l + ticks w)%nat)) in *.
  set (w1 := mkWorld _ _ _) in Hu.
  assert (Hr : r = Some new) by congruence.
  assert (Hw : w1 = w') by congruence. rewrite <- Hw.
  exists j, old. split; [reflexivity|]. split; [exact Hr|].
  destruct (list_find_id _ _ _ _ Hfind) as (Hid & _ & Hin).
  assert (H' : holds w1 (<[j := stored_form new]> l)).
  { apply holds_insert; [apply H|].
    apply stored_appt_of_fields; [exact Hwf | | apply Hclk].
    destruct H as [_ Hl]. rewrite Forall_forall in Hl.
    apply (Hl old Hin). }
  split; [exact H'|].
  rewrite (get_by_id_holds now_at _ _ _ H').
  now rewrite (list_find_insert_same appt_id l j old (stored_form new)
                 Hfind eq_refl).
Qed.

Lemma update_replaces_fields_witness :
  let f := Sample.request (Sample.hm 9 30) (Sample.hm 10 30) in
  let r := update_with Sample.clock "A001" f Sample.two in
  exists j old,
    list_find (fun a => id a = "A001") [Sample.exam; Sample.review]
    = Some (j, old)
    /\ get_by_id Sample.clock "A001" (snd r)
       = (Ok (Some (stored_form
                      (appt_of_fields "A001" f (created_at old)
                         (Sample.clock 10)))),
          tick 2 (snd r)).
Proof.
  cbv zeta.
  destruct (update_replaces_fields Sample.clock Sample.two
              (snd (update_with Sample.clock "A001"
                      (Sample.request (Sample.hm 9 30) (Sample.hm 10 30))
                      Sample.two))
              [Sample.exam; Sample.review] "A001"
              (Sample.request (Sample.hm 9 30) (Sample.hm 10 30))
              (Some (appt_of_fields "A001"
                       (Sample.request (Sample.hm 9 30) (Sample.hm 10 30))
                       (Sample.clock 0) (Sample.clock 10)))
              sample_clock_wf holds_two)
    as (j & old & Hf & _ & _ & Hg).
  - unfold wf_fields, Cal.wf_date, Cal.wf_time; vm_compute;
      intuition discriminate.
  - vm_compute. reflexivity.
  - exists j, old. split; [exact Hf | exact Hg].
Defined.

(** ** Seeding *)

Section Seeding.
Variable now_at : nat -> datetime_t.
Hypothesis now_wf : forall n, Cal.wf_datetime (now_at n).

Lemma seed_of_lookups (a : Appointment) :
  seed_of a !! "id" = Some (id a)
  /\ seed_of a !! "title" = Some (title a)
  /\ seed_of a !! "client_name" = Some (client_name a)
  /\ seed_of a !! "client_email" = Some (client_email a)
  /\ seed_of a !! "client_phone" = Some (client_phone a)
  /\ seed_of a !! "date" = Some (Iso.date_isoformat (date a))
  /\ seed_of a !! "start_time" = Some (Iso.strftime_HM (start_time a))
  /\ seed_of a !! "end_time" = Some (Iso.strftime_HM (end_time a))
  /\ seed_of a !! "status" = Some (status a)
  /\ seed_of a !! "notes" = Some (notes a).
Proof. repeat split; reflexivity. Qed.

Lemma stored_seeded (k : nat) (l : list Appointment) :
  Forall wf_seed l -> Forall stored_appt (seeded now_at k l).
Proof.
  revert k. induction l as [|a l IH]; intros k Hl; [constructor|].
  apply Forall_cons in Hl as [(Hd & Hs & He) Hl]. simpl.
  apply Forall_cons. split; [|now apply IH].
  apply stored_appt_stored_form. unfold wf_appt, with_stamps.
  cbn [date start_time end_time created_at updated_at]. auto.
Qed.

Lemma seeded_length (k : nat) (l : list Appointment) :
  length (seeded now_at k l) = length l.
Proof. revert k. induction l as [|a l IH]; intros k; simpl; auto. Qed.

Lemma seed_from_stored (l : list Appointment) :
  forall (l0 : list Appointment) (count : nat) (w : world),
    Forall wf_seed l -> holds w l0 ->
    seed_from now_at (seed_of <$> l) count w
    = (Ok (count + length l)%nat,
       mkWorld (to_dict <$> (l0 ++ seeded now_at (ticks w) l))
         (2 * length l + ticks w) (draws w)).
Proof.
  induction l as [|a l IH]; intros l0 count w Hl H.
  - simpl. unfold ret. rewrite app_nil_r. destruct H as [Hf _].
    rewrite <- Hf. destruct w. simpl. do 2 f_equal. lia.
  - apply Forall_cons in Hl as [(Hd & Hs & He) Hl].
    destruct (seed_of_lookups a)
      as (L1 & L2 & L3 & L4 & L5 & L6 & L7 & L8 & L9 & L10).
    cbn [fmap list_fmap seed_from].
    unfold getitem, parsed. rewrite L1, L2, L3, L4, L5, L6, L7, L8, L9, L10.
    unfold bind at 1, ret at 1. unfold bind at 1, ret at 1.
    unfold bind at 1, ret at 1. unfold bind at 1, ret at 1.
    unfold bind at 1, ret at 1. unfold bind at 1, ret at 1.
    rewrite (date_roundtrip _ Hd). unfold bind at 1, ret at 1.
    unfold bind at 1, ret at 1.
    rewrite (strftime_HM_read _ Hs). unfold bind at 1, ret at 1.
    unfold bind at 1, ret at 1.
    rewrite (strftime_HM_read _ He). unfold bind at 1, ret at 1.
    unfold bind at 1, ret at 1.
    cbn [from_option Datatypes.id].
    unfold bind at 1, now at 1. unfold bind at 1, now at 1.
    cbn [ticks file draws].
    unfold bind at 1.
    match goal with |- context [create ?x ?y] =>
      assert (H' : holds y l0) by (split; apply H);
      rewrite (create_holds x y l0 H') end.
    cbn [ticks draws].
    match goal with |- seed_from _ _ _ ?y = _ =>
      assert (H'' : holds y
                (l0 ++ [stored_form
                          (with_stamps a (now_at (ticks w))
                             (now_at (S (ticks w))))])) end.
    { apply holds_intro. apply Forall_app. split; [apply H|].
      apply Forall_cons. split; [|constructor].
      apply stored_appt_stored_form. unfold wf_appt, with_stamps.
      cbn [date start_time end_time created_at updated_at]. auto. }
    rewrite (IH _ (S count) _ Hl H''). cbn [ticks draws seeded length].
    rewrite <- app_assoc. cbn [app].
    apply pair_equal_spec. split; [f_equal; lia|]. f_equal. lia.
Qed.

End Seeding.

(** X20.  On an empty file [seed_if_empty] inserts every seed record, in
    order, each stamped with two fresh readings of the clock, and returns
    their number; a second call then inserts nothing and returns 0. *)
Theorem seed_if_empty_fills_once (now_at : nat -> datetime_t) (w : world)
    (l : list Appointment) :
  (forall n, Cal.wf_datetime (now_at n)) ->
  file w = [] -> Forall wf_seed l -> l ≠ [] ->
  exists w',
    seed_if_empty now_at (seed_of <$> l) w = (Ok (length l), w')
    /\ holds w' (seeded now_at (ticks w) l)
    /\ exists w'',
         seed_if_empty now_at (seed_of <$> l) w' = (Ok 0%nat, w'')
         /\ file w'' = file w'.
Proof.
  intros Hclk Hf Hl Hne.
  assert (H : holds w []) by (split; [exact Hf | constructor]).
  unfold seed_if_empty at 1. unfold bind.
  rewrite (get_all_holds now_at w [] H). cbn [length Nat.mul].
  rewrite tick_0.
  rewrite (seed_from_stored now_at Hclk l [] 0%nat w Hl H). cbn [app Nat.add].
  eexists. split; [reflexivity|].
  match goal with |- holds ?x ?y /\ _ => assert (H' : holds x y) end.
  { apply holds_intro. now apply (stored_seeded now_at Hclk). }
  split; [exact H'|].
  unfold seed_if_empty, bind. rewrite (get_all_holds now_at _ _ H').
  destruct (seeded now_at (ticks w) l) as [|a r] eqn:E.
  - apply (f_equal length) in E. rewrite seeded_length in E.
    destruct l; [congruence | discriminate].
  - eexists. split; reflexivity.
Qed.

Lemma seed_if_empty_fills_once_witness :
  exists w',
    seed_if_empty Sample.clock (seed_of <$> [Sample.exam; Sample.late])
      empty_world
    = (Ok (length [Sample.exam; Sample.late]), w')
    /\ holds w' (seeded Sample.clock (ticks empty_world)
                   [Sample.exam; Sample.late])
    /\ exists w'',
         seed_if_empty Sample.clock (seed_of <$> [Sample.exam; Sample.late]) w'
         = (Ok 0%nat, w'')
         /\ file w'' = file w'.
Proof.
  apply (seed_if_empty_fills_once Sample.clock empty_world
           [Sample.exam; Sample.late] sample_clock_wf eq_refl).
  - apply Forall_cons. split; [split; [apply wf_exam | split; apply wf_exam]|].
    apply Forall_cons. split; [split; [apply wf_late | split; apply wf_late]|].
    constructor.
  - discriminate.
Defined.

(** X21.  On a well-kept file that is not empty, [seed_if_empty] returns 0
    and writes nothing, whatever the seed records are. *)
Theorem seed_if_empty_skips_nonempty (now_at : nat -> datetime_t) (w : world)
    (l : list Appointment) (SEEDS : list dict) :
  holds w l -> l ≠ [] ->
  seed_if_empty now_at SEEDS w = (Ok 0%nat, tick (2 * length l) w).
Proof.
  intros H Hne. unfold seed_if_empty, bind.
  rewrite (get_all_holds now_at w l H).
  destruct l; [congruence | reflexivity].
Qed.

Lemma seed_if_empty_skips_nonempty_witness :
  seed_if_empty Sample.clock [∅] Sample.two
  = (Ok 0%nat, tick (2 * length [Sample.exam; Sample.review]) Sample.two).
Proof.
  apply (seed_if_empty_skips_nonempty Sample.clock Sample.two
           [Sample.exam; Sample.review] [∅] holds_two).
  discriminate.
Defined.

(** ** The times the form offers *)

(** X22.  The form reads a selected time back correctly: every option of
    [_time_options] is a whole minute within range, and looking up its
    label among the labels gives the option back.  There are 96 options. *)
Theorem time_option_of_its_label (t : time_t) :
  t ∈ _time_options ->
  option_of_label (_format_time t) = Some t
  /\ Cal.wf_time t /\ whole_minute t = t /\ length _time_options = 96%nat.
Proof.
  intros Hin.
  assert (Hall : Forall (fun t => option_of_label (_format_time t) = Some t
                                  /\ Cal.time_okb t = true
                                  /\ whole_minute t = t) _time_options).
  { apply (bool_decide_unpack _). vm_compute. reflexivity. }
  rewrite Forall_forall in Hall. destruct (Hall t Hin) as (H1 & H2 & H3).
  repeat split; try assumption; try reflexivity;
    apply time_okb_wf in H2; apply H2.
Qed.

Lemma time_option_of_its_label_witness :
  option_of_label (_format_time (Sample.hm 9 0)) = Some (Sample.hm 9 0)
  /\ Cal.wf_time (Sample.hm 9 0) /\ whole_minute (Sample.hm 9 0) = Sample.hm 9 0
  /\ length _time_options = 96%nat.
Proof.
  apply time_option_of_its_label.
  apply (bool_decide_unpack _). vm_compute. reflexivity.
Defined.

(** ** Records with missing keys *)

Section MissingKeys.
Variable now_at : nat -> datetime_t.

(** X23.  A record without the optional keys is still read: with "notes",
    "created_at" and "updated_at" missing, [from_dict] returns the
    appointment with empty notes and with the two readings of the clock it
    takes as its timestamps. *)
Theorem from_dict_defaults (a : Appointment) (w : world) :
  (forall n, Cal.wf_datetime (now_at n)) -> wf_seed a ->
  from_dict now_at (base.delete "notes" (seed_of a)) w
  = (Ok (mkAppointment (id a) (title a) (client_name a) (client_email a)
           (client_phone a) (date a) (whole_minute (start_time a))
           (whole_minute (end_time a)) (status a) ""
           (now_at (ticks w)) (now_at (S (ticks w)))),
     tick 2 w).
Proof.
  intros Hclk (Hd & Hs & He).
  set (d := base.delete "notes" (seed_of a)).
  assert (L : d !! "id" = Some (id a) /\ d !! "title" = Some (title a)
              /\ d !! "client_name" = Some (client_name a)
              /\ d !! "client_email" = Some (client_email a)
              /\ d !! "client_phone" = Some (client_phone a)
              /\ d !! "date" = Some (Iso.date_isoformat (date a))
              /\ d !! "start_time" = Some (Iso.strftime_HM (start_time a))
              /\ d !! "end_time" = Some (Iso.strftime_HM (end_time a))
              /\ d !! "status" = Some (status a)
              /\ d !! "notes" = None /\ d !! "created_at" = None
              /\ d !! "updated_at" = None)
    by (repeat split; reflexivity).
  destruct L as (L1 & L2 & L3 & L4 & L5 & L6 & L7 & L8 & L9 & L10 & L11 & L12).
  unfold from_dict, getitem, parsed, bind, ret, raise, now.
  rewrite L1, L2, L3, L4, L5, L6. cbv beta iota.
  rewrite (date_roundtrip _ Hd), L7. cbv beta iota.
  rewrite (strftime_HM_read _ Hs), L8. cbv beta iota.
  rewrite (strftime_HM_read _ He), L9, L10, L11, L12. cbv beta iota.
  cbn [from_option Datatypes.id ticks].
  rewrite (datetime_roundtrip _ (Hclk _)). cbv beta iota.
  rewrite (datetime_roundtrip _ (Hclk _)). cbv beta iota.
  reflexivity.
Qed.

End MissingKeys.

Lemma from_dict_defaults_witness :
  from_dict Sample.clock (base.delete "notes" (seed_of Sample.late)) Sample.two
  = (Ok (mkAppointment "A003" "Tax Consultation" "Carol White"
           "carol.white@gmail.com" "+1 555 300 4003" Sample.day
           (Sample.hm 11 0) (Sample.hm 12 0) "Scheduled" ""
           (Sample.clock 4) (Sample.clock 5)),
     tick 2 Sample.two).
Proof.
  apply (from_dict_defaults Sample.clock Sample.late Sample.two
           sample_clock_wf).
  split; [apply wf_late | split; apply wf_late].
Defined.

(** X24.  A record that lacks one of the nine required keys is not read:
    [from_dict] raises the [KeyError] of that key and leaves the world as it
    was, without a reading of the clock. *)
Theorem from_dict_missing_required (now_at : nat -> datetime_t)
    (a : Appointment) (w : world) (k : string) :
  wf_seed a -> k ∈ required_keys ->
  from_dict now_at (base.delete k (to_dict a)) w = (Raise (KeyError k), w).
Proof.
  intros (Hd & Hs & He) Hk.
  destruct (to_dict_lookups a)
    as (L1 & L2 & L3 & L4 & L5 & L6 & L7 & L8 & L9 & L10 & L11 & L12).
  unfold from_dict, getitem, parsed, bind, ret, raise, now.
  rewrite !lookup_delete.
  rewrite L1, L2, L3, L4, L5, L6, L7, L8, L9.
  unfold required_keys in Hk.
  repeat (apply elem_of_cons in Hk as [->|Hk]);
    [..|now apply elem_of_nil in Hk];
    repeat first
      [ rewrite decide_True by reflexivity
      | rewrite decide_False by discriminate
      | rewrite (date_roundtrip _ Hd)
      | rewrite (strftime_HM_read _ Hs)
      | rewrite (strftime_HM_read _ He)
      | progress cbv beta iota ];
    reflexivity.
Qed.

Lemma from_dict_missing_required_witness :
  from_dict Sample.clock (base.delete "status" (to_dict Sample.exam)) Sample.two
  = (Raise (KeyError "status"), Sample.two).
Proof.
  apply (from_dict_missing_required Sample.clock Sample.exam Sample.two).
  - split; [apply wf_exam | split; apply wf_exam].
  - apply (bool_decide_unpack _). vm_compute. reflexivity.
Defined.

(** ** The conflict that is reported *)

Lemma first_conflict_earliest (s e : time_t) (x : option string)
    (d : date_t) (l : list Appointment) (c : Appointment) :
  first_conflict s e x (filter (fun a => date a = d) l) = Some c ->
  exists l1 l2,
    l = l1 ++ c :: l2
    /\ first_conflict s e x (filter (fun a => date a = d) l1) = None.
Proof.
  induction l as [|a l IH]; [discriminate|].
  rewrite filter_cons. destruct (decide (date a = d)) as [Hd|Hd].
  - rewrite first_conflict_unfold.
    destruct (excluded x a) eqn:Hx;
      [|destruct (bool_decide (status a = AppointmentStatus.CANCELLED)) eqn:Hc;
        [|destruct (Cal.time_ltb s (end_time a)
                    && Cal.time_ltb (start_time a) e) eqn:Ho]].
    + intros H. destruct (IH H) as (l1 & l2 & -> & Hn).
      exists (a :: l1), l2. split; [reflexivity|].
      rewrite filter_cons, decide_True, first_conflict_unfold, Hx by exact Hd.
      exact Hn.
    + intros H. destruct (IH H) as (l1 & l2 & -> & Hn).
      exists (a :: l1), l2. split; [reflexivity|].
      rewrite filter_cons, decide_True, first_conflict_unfold, Hx, Hc
        by exact Hd.
      exact Hn.
    + intros [= <-]. exists [], l. split; reflexivity.
    + intros H. destruct (IH H) as (l1 & l2 & -> & Hn).
      exists (a :: l1), l2. split; [reflexivity|].
      rewrite filter_cons, decide_True, first_conflict_unfold, Hx, Hc, Ho
        by exact Hd.
      exact Hn.
  - intros H. destruct (IH H) as (l1 & l2 & -> & Hn).
    exists (a :: l1), l2. split; [reflexivity|].
    rewrite filter_cons, decide_False by exact Hd. exact Hn.
Qed.

(** X25.  The conflict that is reported is the first one in the file: when
    [create_appointment] with valid fields fails on a well-kept file, its one
    message is the conflict message of a stored appointment in the way, and
    no appointment stored before that one is in the way. *)
Theorem create_reports_first_conflict (now_at : nat -> datetime_t)
    (uuid_at : nat -> string) (w w' : world) (l : list Appointment)
    (f : fields) (errors : list string) :
  holds w l -> validate_fields f = [] ->
  create_with now_at uuid_at f w = (Ok (Failure errors), w') ->
  exists l1 c l2,
    l = l1 ++ c :: l2
    /\ errors = [conflict_message c]
    /\ conflicts f c
    /\ forall b, b ∈ l1 -> ~ conflicts f b.
Proof.
  intros H Hv Hc. rewrite (create_valid now_at uuid_at f w l Hv H) in Hc.
  destruct (conflict_with f None l) as [c|] eqn:Hcf; [|discriminate].
  assert (He : errors = [conflict_message c]) by congruence.
  unfold conflict_with in Hcf.
  destruct (first_conflict_earliest _ _ _ _ _ _ Hcf) as (l1 & l2 & Hl & Hn).
  exists l1, c, l2. split; [exact Hl|]. split; [exact He|].
  apply first_conflict_sound in Hcf as (Hin & _ & Hst & Ho).
  apply list_elem_of_filter in Hin as [Hd _].
  split; [split; [exact Hd | split; [exact Hst | exact Ho]]|].
  now apply conflict_with_none_iff.
Qed.

Lemma create_reports_first_conflict_witness :
  exists l1 c l2,
    [Sample.exam; Sample.review] = l1 ++ c :: l2
    /\ [conflict_message Sample.exam] = [conflict_message c]
    /\ conflicts (Sample.request (Sample.hm 9 30) (Sample.hm 9 45)) c
    /\ forall b, b ∈ l1 ->
         ~ conflicts (Sample.request (Sample.hm 9 30) (Sample.hm 9 45)) b.
Proof.
  apply (create_reports_first_conflict Sample.clock Sample.uuids Sample.two
           (tick 4 Sample.two) [Sample.exam; Sample.review]
           (Sample.request (Sample.hm 9 30) (Sample.hm 9 45))
           [conflict_message Sample.exam] holds_two).
  - vm_compute. reflexivity.
  - vm_compute. reflexivity.
Defined.

(** ** Upcoming and past *)

Lemma compare_refl_of_ordering {K} (cmp : K -> K -> comparison) (x : K) :
  ordering cmp -> cmp x x = Eq.
Proof. intros [O _ _]. specialize (O x x). now destruct (cmp x x). Qed.

(** X26.  At one reading of the clock an appointment is never both
    upcoming and past; one that starts exactly at the reading is neither,
    and only a Scheduled appointment is upcoming. *)
Theorem upcoming_and_past_exclude (now_at : nat -> datetime_t)
    (a : Appointment) (w : world) :
  exists u p,
    is_upcoming now_at a w = (Ok u, tick 1 w)
    /\ is_past now_at a w = (Ok p, tick 1 w)
    /\ (u = true -> p = false)
    /\ (u = true -> status a = AppointmentStatus.SCHEDULED)
    /\ (start_datetime a = now_at (ticks w) -> u = false /\ p = false).
Proof.
  unfold is_upcoming, is_past, bind, now, ret. eexists _, _.
  split; [reflexivity|]. split; [reflexivity|].
  fold (start_datetime a). unfold Cal.datetime_ltb.
  destruct ordering_datetime as [O E L].
  split; [|split].
  - intros Hu. apply andb_true_iff in Hu as [Hu _].
    rewrite (O (now_at (ticks w)) (start_datetime a)).
    now destruct (Cal.datetime_compare (now_at (ticks w)) (start_datetime a)).
  - intros Hu. apply andb_true_iff in Hu as [_ Hu].
    now apply bool_decide_eq_true in Hu.
  - intros ->.
    now rewrite (compare_refl_of_ordering _ _ ordering_datetime).
Qed.

(** ** Generated identifiers *)

Lemma take_length (n : nat) (s : string) :
  String.length (Str.take n s) = Nat.min n (String.length s).
Proof.
  revert s. induction n as [|n IH]; intros [|c s]; simpl; auto.
Qed.

Lemma upper_length (s : string) : String.length (Str.upper s) = String.length s.
Proof. induction s as [|c s IH]; simpl; auto. Qed.

Lemma upper_char_hex (c : ascii) :
  lower_hex c = true -> upper_hex (Str.upper_char c) = true.
Proof. destruct c as [[] [] [] [] [] [] [] []]; vm_compute; congruence. Qed.

Lemma upper_hex_all (s : string) :
  all_chars lower_hex s = true -> all_chars upper_hex (Str.upper s) = true.
Proof.
  induction s as [|c s IH]; simpl; [reflexivity|].
  intros H. apply andb_true_iff in H as [Hc Hs].
  now rewrite (upper_char_hex c Hc), (IH Hs).
Qed.

(** X27.  The text of a UUID starts with eight hexadecimal digits.  From
    such a text [generate_id] makes an id of exactly eight characters, each a
    digit or one of the capitals A-F, and so never the empty id; it draws one
    identifier and touches neither the file nor the clock. *)
Theorem generate_id_shape (uuid_at : nat -> string) (w : world) :
  (8 <= String.length (uuid_at (draws w)))%nat ->
  all_chars lower_hex (Str.take 8 (uuid_at (draws w))) = true ->
  exists i,
    generate_id uuid_at w = (Ok i, mkWorld (file w) (ticks w) (S (draws w)))
    /\ String.length i = 8%nat /\ all_chars upper_hex i = true /\ i ≠ "".
Proof.
  intros Hlen Hhex. unfold generate_id, bind, uuid4, ret. eexists.
  split; [reflexivity|].
  assert (Hl : String.length (Str.upper (Str.take 8 (uuid_at (draws w)))) = 8%nat)
    by (rewrite upper_length, take_length; lia).
  split; [exact Hl|]. split; [now apply upper_hex_all|].
  intros E. rewrite E in Hl. discriminate.
Qed.

Lemma generate_id_shape_witness :
  exists i,
    generate_id (fun _ => "3f2a9c1e-5b7d-4e8a-9f10-2c6d8e4b7a11") Sample.two
    = (Ok i, mkWorld (file Sample.two) (ticks Sample.two) (S (draws Sample.two)))
    /\ String.length i = 8%nat /\ all_chars upper_hex i = true /\ i ≠ "".
Proof.
  apply (generate_id_shape (fun _ => "3f2a9c1e-5b7d-4e8a-9f10-2c6d8e4b7a11")
           Sample.two); [vm_compute; lia | reflexivity].
Defined.
